(** * slack_history.py: export of a user's Slack conversations

    A shallow embedding of [slack_history.py].  The script talks to the
    Slack web API through the [slacker] client, prints to the console and
    writes JSON files.  All three are made explicit here: a run is a
    function on a [World] that holds the state of the remote service, the
    directories and files of the working directory, and the chronological
    log of every remote call, console line and file-system action.

    The script is Python 2 code (it writes the [encode]d bytes of the JSON
    text to a file opened in text mode); that is the semantics modelled.
    Paths are resolved as POSIX does without symbolic links, and the
    working directory is taken to be the top of the file system the script
    sees.  What a file system may refuse beyond that (permissions, a full
    disk, a name it does not take) is left to a parameter, [Disk]. *)

From Stdlib Require Import Ascii String.
From stdpp Require Import gmap strings list pretty.

(** ** Data exchanged with the remote service *)

(** A message is an opaque JSON object: a dictionary from field names to
    values.  The script only ever reads the field ["ts"]. *)
Abbreviation Message := (gmap string string).

(** The three objects [slack.channels], [slack.groups] and [slack.im]. *)
Inductive Kind := Channels | Groups | Im.

(** Keyword arguments of [pageableObject.history(...)]. *)
Record HistoryArgs := {
  channel : string;
  latest : option string;
  oldest : nat;
  count : nat
}.

(** The [body] of a history response. *)
Record HistoryBody := {
  messages : list Message;
  has_more : bool
}.

Record Channel := { channel_id : string; channel_name : string }.
Record Group := {
  group_id : string;
  group_name : string;
  group_members : list string
}.
Record DirectMessage := { dm_id : string; dm_user : string }.
Record User := { user_id : string; user_name : string }.
Record AuthInfo := {
  auth_team : string;
  auth_user : string;
  auth_user_id : string
}.

(** ** Exceptions *)

Inductive RemoteFailure := AuthFailure | NetworkFailure | RateLimited.

Inductive Exn :=
| RemoteError (e : RemoteFailure)
| IndexError
| KeyError (key : string)
| IOError (path : string)
| OSError (path : string)
| SystemExit (status : nat).

(** ** Observable actions *)

Inductive Call :=
| AuthTest
| UsersList
| ListOf (k : Kind)
| InfoOf (k : Kind) (conversation : string)
| HistoryOf (k : Kind) (args : HistoryArgs).

(** [channelInfo] is either the object the remote returned or, for direct
    messages, the dictionary [{'members': [...]}] built by the script. *)
Inductive ChannelInfo :=
| RemoteInfo (json : string)
| Members (members : list string).

(** What [json.dumps] is applied to. *)
Inductive Document :=
| Metadata (auth_info : AuthInfo) (users : gmap string string)
| Export (channel_info : ChannelInfo) (msgs : list Message).

(** [MadeDirs] stands for one directory created, under its normalised
    path; [Opened] and [Wrote] carry the file name as the script gave it. *)
Inductive Event :=
| Called (c : Call)
| Printed (line : string)
| MadeDirs (directory : string)
| Opened (path : string)
| Wrote (path : string) (doc : Document).

(** ** The world a run acts on *)

Record World (S : Type) := mkWorld {
  remote : S;
  dirs : gset string;
  files : gmap string (list Document);
  events : list Event
}.
Arguments mkWorld {S}.
Arguments remote {S}.
Arguments dirs {S}.
Arguments files {S}.
Arguments events {S}.

Definition emit {S} (e : Event) (w : World S) : World S :=
  mkWorld (remote w) (dirs w) (files w) (events w ++ [e]).

Definition set_remote {S} (s : S) (w : World S) : World S :=
  mkWorld s (dirs w) (files w) (events w).

(** The operations a file system may refuse for reasons the world above
    does not show: permission denied, disk full, a name too long. *)
Inductive FileOp :=
| MakeDir (directory : string)
| OpenW (fileName : string)
| WriteTo (fileName : string) (doc : Document).

(** The file system the script runs on: which operation it refuses, given
    everything that has happened so far. *)
Class Disk (S : Type) := { refuses : FileOp → World S → bool }.
Arguments refuses {S _}.

(** ** The monad of runs: state, exceptions, and fuel for [while True] *)

Inductive Result (A : Type) :=
| Ok (a : A)
| Raise (e : Exn)
| OutOfFuel.
Arguments Ok {A}.
Arguments Raise {A}.
Arguments OutOfFuel {A}.

Definition M (S A : Type) : Type := World S → Result A * World S.

Global Instance M_ret {S} : MRet (M S) := λ A a w, (Ok a, w).

Global Instance M_bind {S} : MBind (M S) := λ A B f m w,
  match m w with
  | (Ok a, w') => f a w'
  | (Raise e, w') => (Raise e, w')
  | (OutOfFuel, w') => (OutOfFuel, w')
  end.

Definition raise {S A} (e : Exn) : M S A := λ w, (Raise e, w).
Definition out_of_fuel {S A} : M S A := λ w, (OutOfFuel, w).
Definition log {S} (e : Event) : M S unit := λ w, (Ok tt, emit e w).
Definition print {S} (line : string) : M S unit := log (Printed line).

(** [for x in xs: body] *)
Fixpoint for_each {S A} (xs : list A) (body : A → M S unit) : M S unit :=
  match xs with
  | [] => mret tt
  | x :: xs' => body x;; for_each xs' body
  end.

(** ** The remote service *)

(** An endpoint answers from the current state of the service with a
    failure or a body, and moves the service to a new state. *)
Definition Reply (S A : Type) : Type := S → (RemoteFailure + A) * S.

(** An object with a [history] method ([pageableObject]). *)
Record Pageable (S : Type) := mkPageable {
  kind : Kind;
  history : HistoryArgs → Reply S HistoryBody
}.
Arguments mkPageable {S}.
Arguments kind {S}.
Arguments history {S}.

(** The [Slacker] client. *)
Record Slacker (S : Type) := mkSlacker {
  auth_test : Reply S AuthInfo;
  users_list : Reply S (list User);
  channels_list : Reply S (list Channel);
  channels_info : string → Reply S string;
  channels_history : HistoryArgs → Reply S HistoryBody;
  groups_list : Reply S (list Group);
  groups_info : string → Reply S string;
  groups_history : HistoryArgs → Reply S HistoryBody;
  im_list : Reply S (list DirectMessage);
  im_history : HistoryArgs → Reply S HistoryBody
}.
Arguments mkSlacker {S}.
Arguments auth_test {S}.
Arguments users_list {S}.
Arguments channels_list {S}.
Arguments channels_info {S}.
Arguments channels_history {S}.
Arguments groups_list {S}.
Arguments groups_info {S}.
Arguments groups_history {S}.
Arguments im_list {S}.
Arguments im_history {S}.

Definition channels {S} (slack : Slacker S) : Pageable S :=
  mkPageable Channels (channels_history slack).
Definition groups {S} (slack : Slacker S) : Pageable S :=
  mkPageable Groups (groups_history slack).
Definition im {S} (slack : Slacker S) : Pageable S :=
  mkPageable Im (im_history slack).

(** One remote call: it is logged, the service answers and changes state,
    and a failure surfaces as an exception. *)
Definition call {S A} (c : Call) (endpoint : Reply S A) : M S A := λ w,
  let w1 := emit (Called c) w in
  match endpoint (remote w1) with
  | (inl e, s') => (Raise (RemoteError e), set_remote s' w1)
  | (inr body, s') => (Ok body, set_remote s' w1)
  end.

(** ** Python list and dictionary accesses *)

(** [xs[-1]] *)
Definition last_item {S} (xs : list Message) : M S Message :=
  match last xs with
  | Some x => mret x
  | None => raise IndexError
  end.

(** [d[key]] *)
Definition getitem {S} (d : Message) (key : string) : M S string :=
  match d !! key with
  | Some v => mret v
  | None => raise (KeyError key)
  end.

(** ** getHistory *)

Definition history_args (channelId : string) (lastTimestamp : option string)
    (pageSize : nat) : HistoryArgs :=
  {| channel := channelId; latest := lastTimestamp; oldest := 0;
     count := pageSize |}.

(** The [while(True)] loop of [getHistory], started from the given values
    of the local variables [messages] and [lastTimestamp].  [fuel] bounds
    the number of iterations. *)
Fixpoint getHistory_loop {S} (fuel : nat) (pageableObject : Pageable S)
    (channelId : string) (pageSize : nat)
    (msgs : list Message) (lastTimestamp : option string)
    : M S (list Message) :=
  match fuel with
  | 0 => out_of_fuel
  | Datatypes.S fuel' =>
    let args := history_args channelId lastTimestamp pageSize in
    response ← call (HistoryOf (kind pageableObject) args)
                    (history pageableObject args);
    let msgs := msgs ++ messages response in
    if has_more response then
      m ← last_item msgs;
      ts ← getitem m "ts";
      getHistory_loop fuel' pageableObject channelId pageSize msgs (Some ts)
    else
      mret msgs
  end.

Definition getHistory {S} (fuel : nat) (pageableObject : Pageable S)
    (channelId : string) (pageSize : nat) : M S (list Message) :=
  getHistory_loop fuel pageableObject channelId pageSize [] None.

(** The default value of the parameter [pageSize]. *)
Definition default_pageSize : nat := 100.

(** ** File system

    Directories and files are kept under their normalised paths: the names
    from the top down, joined by [/].  The top itself is always a
    directory. *)

(** [path.split('/')] *)
Fixpoint split_path (path : string) : list string :=
  match path with
  | EmptyString => [EmptyString]
  | String c rest =>
    if Ascii.eqb c "/"%char then EmptyString :: split_path rest
    else match split_path rest with
         | name :: names => String c name :: names
         | [] => [String c EmptyString]
         end
  end.

(** ['/'.join(names)] *)
Fixpoint join_path (names : list string) : string :=
  match names with
  | [] => EmptyString
  | name :: rest =>
    match rest with
    | [] => name
    | _ => name +:+ "/" +:+ join_path rest
    end
  end.

Definition is_dir {S} (w : World S) (names : list string) : bool :=
  match names with
  | [] => true
  | _ => bool_decide (join_path names ∈ dirs w)
  end.

Definition is_file {S} (w : World S) (names : list string) : bool :=
  bool_decide (is_Some (files w !! join_path names)).

(** The empty name and [.] stay in the directory. *)
Definition stays (name : string) : bool :=
  String.eqb name "" || String.eqb name ".".

(** What a path leads to: nothing, when a directory on the way is missing
    or is a file; a directory; or an entry, which may or may not exist, of
    an existing directory. *)
Inductive Target :=
| Nowhere
| Directory (names : list string)
| Entry (names : list string).

(** Path resolution from the directory [cur]. *)
Fixpoint target_from {S} (w : World S) (cur names : list string) : Target :=
  match names with
  | [] => Directory cur
  | name :: rest =>
    if stays name then target_from w cur rest
    else if String.eqb name ".." then target_from w (removelast cur) rest
    else if is_dir w (cur ++ [name]) then target_from w (cur ++ [name]) rest
    else match rest with
         | [] => Entry (cur ++ [name])
         | _ => Nowhere
         end
  end.

Definition target {S} (w : World S) (path : string) : Target :=
  if String.eqb path "" then Nowhere
  else target_from w [] (split_path path).

(** [os.path.exists(p)] *)
Definition path_exists {S} (p : string) (w : World S) : bool :=
  match target w p with
  | Nowhere => false
  | Directory _ => true
  | Entry names => is_file w names
  end.

(** The names of a path without its trailing slashes. *)
Fixpoint strip_slashes (names : list string) : list string :=
  match names with
  | [] => []
  | name :: rest =>
    match strip_slashes rest with
    | [] => if String.eqb name "" then [] else [name]
    | rest' => name :: rest'
    end
  end.

(** [os.makedirs(name)] from the directory [cur] on: the directories on the
    way are created where they are missing, the last one has to be new.
    (In the library this is a recursion on [os.path.split(name)] that
    ignores the error of an intermediate [os.mkdir] on a directory that
    exists, and returns early when the last name is [.].) *)
Fixpoint makedirs_from {S} `{!Disk S} (name : string)
    (cur names : list string) : M S unit := λ w,
  match names with
  | [] => (Ok tt, w)
  | n :: rest =>
    if stays n then makedirs_from name cur rest w
    else if String.eqb n ".." then
      match rest with
      | [] => (Raise (OSError name), w)
      | _ => makedirs_from name (removelast cur) rest w
      end
    else if is_dir w (cur ++ [n]) then
      match rest with
      | [] => (Raise (OSError name), w)
      | _ => makedirs_from name (cur ++ [n]) rest w
      end
    else if is_file w (cur ++ [n])
            || refuses (MakeDir (join_path (cur ++ [n]))) w then
      (Raise (OSError name), w)
    else
      makedirs_from name (cur ++ [n]) rest
        (mkWorld (remote w) ({[join_path (cur ++ [n])]} ∪ dirs w) (files w)
           (events w ++ [MadeDirs (join_path (cur ++ [n]))]))
  end.

Definition makedirs {S} `{!Disk S} (name : string) : M S unit :=
  match strip_slashes (split_path name) with
  | [] => raise (OSError name)
  | names => makedirs_from name [] names
  end.

Definition mkdir {S} `{!Disk S} (directory : string) : M S unit := λ w,
  if path_exists directory w then (Ok tt, w)
  else makedirs directory w.

(** [open(fileName, 'w')]: it fails unless [fileName] leads to an entry of
    an existing directory that is not itself a directory; then the file is
    created or truncated. *)
Definition open_w {S} `{!Disk S} (fileName : string) : M S unit := λ w,
  match target w fileName with
  | Entry names =>
    if refuses (OpenW fileName) w then (Raise (IOError fileName), w)
    else (Ok tt, mkWorld (remote w) (dirs w)
                   (<[join_path names := []]> (files w))
                   (events w ++ [Opened fileName]))
  | _ => (Raise (IOError fileName), w)
  end.

(** The normalised path of a path, whatever exists. *)
Fixpoint names_from (cur names : list string) : list string :=
  match names with
  | [] => cur
  | name :: rest =>
    if stays name then names_from cur rest
    else if String.eqb name ".." then names_from (removelast cur) rest
    else names_from (cur ++ [name]) rest
  end.

Definition key_of (path : string) : string :=
  join_path (names_from [] (split_path path)).

(** [outFile.write(json.dumps(doc, ...).encode('utf-8'))], where [outFile]
    is the file opened under [fileName].  A write that fails leaves the
    file without the document: truncated, as [open] left it. *)
Definition write {S} `{!Disk S} (fileName : string) (doc : Document)
    : M S unit := λ w,
  if refuses (WriteTo fileName doc) w then (Raise (IOError fileName), w)
  else
    (Ok tt, mkWorld (remote w) (dirs w)
              (<[key_of fileName
                 := default [] (files w !! key_of fileName) ++ [doc]]>
                 (files w))
              (events w ++ [Wrote fileName doc])).

(** A string without [/]. *)
Fixpoint slash_free (s : string) : bool :=
  match s with
  | EmptyString => true
  | String c rest => negb (Ascii.eqb c "/"%char) && slash_free rest
  end.

(** A name that leads one directory down: no [/], not empty, not [.] and
    not [..]. *)
Definition plain (name : string) : bool :=
  slash_free name && negb (stays name) && negb (String.eqb name "..").

(** ["{parent}/{file}.json".format(parent = ..., file = ...)] *)
Definition json_path (parent file : string) : string :=
  parent +:+ "/" +:+ file +:+ ".json".

Definition newline : string := String (Ascii.ascii_of_nat 10) "".

(** ** The three exporters *)

Definition getChannels {S} `{!Disk S} (fuel : nat) (slack : Slacker S)
    (dryRun : bool) : M S unit :=
  chans ← call (ListOf Channels) (channels_list slack);
  print (newline +:+ "found channels: ");;
  for_each chans (λ channel, print (channel_name channel));;
  if negb dryRun then
    let parentDir := "channels" in
    mkdir parentDir;;
    for_each chans (λ channel,
      print ("getting history for channel " +:+ channel_name channel);;
      let fileName := json_path parentDir (channel_name channel) in
      msgs ← getHistory fuel (channels slack) (channel_id channel)
               default_pageSize;
      channelInfo ← call (InfoOf Channels (channel_id channel))
                      (channels_info slack (channel_id channel));
      open_w fileName;;
      print ("writing " +:+ pretty (length msgs) +:+ " records to "
             +:+ fileName);;
      write fileName (Export (RemoteInfo channelInfo) msgs))
  else mret tt.

(** [userIdNameMap.get(key, fallback)] *)
Definition dict_get (userIdNameMap : gmap string string) (key fallback : string)
    : string :=
  default fallback (userIdNameMap !! key).

Definition getDirectMessages {S} `{!Disk S} (fuel : nat) (slack : Slacker S)
    (ownerId : string) (userIdNameMap : gmap string string) (dryRun : bool)
    : M S unit :=
  dms ← call (ListOf Im) (im_list slack);
  print (newline
         +:+ "found direct messages (1:1) with the following users:");;
  for_each dms (λ dm,
    print (dict_get userIdNameMap (dm_user dm)
             (dm_user dm +:+ " (name unknown)")));;
  if negb dryRun then
    let parentDir := "direct_messages" in
    mkdir parentDir;;
    for_each dms (λ dm,
      let name := dict_get userIdNameMap (dm_user dm)
                    (dm_user dm +:+ " (name unknown)") in
      print ("getting history for direct messages with " +:+ name);;
      let fileName := json_path parentDir name in
      msgs ← getHistory fuel (im slack) (dm_id dm) default_pageSize;
      let channelInfo := Members [dm_user dm; ownerId] in
      open_w fileName;;
      print ("writing " +:+ pretty (length msgs) +:+ " records to "
             +:+ fileName);;
      write fileName (Export channelInfo msgs))
  else mret tt.

Definition getPrivateChannels {S} `{!Disk S} (fuel : nat) (slack : Slacker S)
    (dryRun : bool) : M S unit :=
  grps ← call (ListOf Groups) (groups_list slack);
  print (newline +:+ "found private channels:");;
  for_each grps (λ group,
    print (group_name group +:+ ": ("
           +:+ pretty (length (group_members group)) +:+ " members)"));;
  if negb dryRun then
    let parentDir := "private_channels" in
    mkdir parentDir;;
    for_each grps (λ group,
      print ("getting history for private channel " +:+ group_name group
             +:+ " with id " +:+ group_id group);;
      let fileName := json_path parentDir (group_name group) in
      msgs ← getHistory fuel (groups slack) (group_id group)
               default_pageSize;
      channelInfo ← call (InfoOf Groups (group_id group))
                      (groups_info slack (group_id group));
      open_w fileName;;
      print ("writing " +:+ pretty (length msgs) +:+ " records to "
             +:+ fileName);;
      write fileName (Export (RemoteInfo channelInfo) msgs))
  else mret tt.

Definition getUserMap {S} (slack : Slacker S) : M S (gmap string string) :=
  users ← call UsersList (users_list slack);
  let userIdNameMap :=
    foldl (λ m user, <[user_id user := user_name user]> m) ∅ users in
  print ("found " +:+ pretty (length users) +:+ " users ");;
  mret userIdNameMap.

Definition doTestAuth {S} (slack : Slacker S) : M S AuthInfo :=
  testAuth ← call AuthTest (auth_test slack);
  let teamName := auth_team testAuth in
  let currentUser := auth_user testAuth in
  print ("Successfully authenticated for team " +:+ teamName
         +:+ " and user " +:+ currentUser +:+ " ");;
  mret testAuth.

(** ** Command line

    The parser the script builds with [argparse], as data, and the part of
    [parse_args] that concerns optional arguments.  [argparse] matches
    an option by its full name or an unambiguous prefix, takes the value of
    [--token] from [--token=VALUE] or from the next string, and leaves by
    [SystemExit]: status 0 after [--help], status 2 after an error.
    Strings it does not recognise are only reported once everything else
    has been parsed.  The separator [--] is not modelled: a command line
    that contains it is rejected here. *)

Inductive Action := store | store_true | help.

Record Argument := mkArgument {
  option_strings : list string;
  dest : string;
  action : Action;
  required : bool
}.

(** [parser.add_argument(name, action = ...)]: nothing in the script passes
    [required], so it has its default, [False]. *)
Definition add_argument (name : string) (act : Action) : Argument :=
  {| option_strings := [name];
     dest := String.substring 2 (String.length name - 2) name;
     action := act;
     required := false |}.

(** [argparse.ArgumentParser(...)] comes with [-h] and [--help]. *)
Definition parser : list Argument :=
  [ {| option_strings := ["-h"; "--help"]; dest := "help"; action := help;
       required := false |};
    add_argument "--token" store;
    add_argument "--dryRun" store_true;
    add_argument "--skipPrivateChannels" store_true;
    add_argument "--skipChannels" store_true;
    add_argument "--skipDirectMessages" store_true ].

Inductive Value := VNone | VStr (s : string) | VBool (b : bool).

Abbreviation Namespace := (gmap string Value).

(** The defaults: [None] for a stored value, [False] for a flag. *)
Definition defaults : Namespace :=
  foldl (λ ns a,
           match action a with
           | store => <[dest a := VNone]> ns
           | store_true => <[dest a := VBool false]> ns
           | help => ns
           end) ∅ parser.

(** [args.token] *)
Definition token (args : Namespace) : option string :=
  match args !! "token" with
  | Some (VStr s) => Some s
  | _ => None
  end.

(** [args.dryRun], [args.skipChannels], ... *)
Definition flag (args : Namespace) (name : string) : bool :=
  match args !! name with
  | Some (VBool b) => b
  | _ => false
  end.

(** [arg.split('=', 1)] *)
Fixpoint split_explicit (arg : string) : string * option string :=
  match arg with
  | EmptyString => (EmptyString, None)
  | String c rest =>
    if Ascii.eqb c "="%char then (EmptyString, Some rest)
    else let '(name, explicit) := split_explicit rest in
         (String c name, explicit)
  end.

Inductive Lookup :=
| Unknown
| Ambiguous
| Found (a : Argument) (explicit_arg : option string).

Definition named (name : string) (a : Argument) : bool :=
  existsb (String.eqb name) (option_strings a).

Definition abbreviates (name : string) (a : Argument) : bool :=
  existsb (String.prefix name) (option_strings a).

Fixpoint all_h (s : string) : bool :=
  match s with
  | EmptyString => true
  | String c rest => Ascii.eqb c "h"%char && all_h rest
  end.

(** Which declared option a string that starts with [-] denotes. *)
Definition lookup_option (arg : string) : Lookup :=
  match find (named arg) parser with
  | Some a => Found a None
  | None =>
    let '(name, explicit) := split_explicit arg in
    match explicit, find (named name) parser with
    | Some v, Some a => Found a (Some v)
    | _, _ =>
      if String.prefix "--" arg then
        match filter (λ a, abbreviates name a = true) parser with
        | [] => Unknown
        | [a] => Found a explicit
        | _ => Ambiguous
        end
      else if String.prefix "-h" arg then
        let rest := String.substring 2 (String.length arg - 2) arg in
        match find (named "-h") parser with
        | Some a => Found a (if all_h rest then None else Some rest)
        | None => Unknown
        end
      else Unknown
    end
  end.

Definition is_digit (c : Ascii.ascii) : bool :=
  (48 <=? Ascii.nat_of_ascii c) && (Ascii.nat_of_ascii c <=? 57).

Fixpoint all_digits (s : string) : bool :=
  match s with
  | EmptyString => true
  | String c rest => is_digit c && all_digits rest
  end.

(** After any digits: a dot followed by at least one digit, or, when
    [seen] says a digit was read, the end of the string. *)
Fixpoint number_tail (seen : bool) (s : string) : bool :=
  match s with
  | EmptyString => seen
  | String c rest =>
    if is_digit c then number_tail true rest
    else Ascii.eqb c "."%char && all_digits rest
         && negb (String.eqb rest EmptyString)
  end.

(** [-\d+] or [-\d*\.\d+] *)
Definition negative_number (arg : string) : bool :=
  match arg with
  | String "-"%char rest => number_tail false rest
  | _ => false
  end.

Fixpoint has_space (s : string) : bool :=
  match s with
  | EmptyString => false
  | String c rest => Ascii.eqb c " "%char || has_space rest
  end.

(** Strings [argparse] takes for arguments rather than options. *)
Definition positional_like (arg : string) : bool :=
  match arg with
  | EmptyString => true
  | String c rest =>
    if negb (Ascii.eqb c "-"%char) then true
    else if String.eqb rest EmptyString then true
    else match lookup_option arg with
         | Unknown => negative_number arg || has_space arg
         | _ => false
         end
  end.

Definition ambiguous (arg : string) : bool :=
  negb (positional_like arg)
  && match lookup_option arg with Ambiguous => true | _ => false end.

Definition usage_error : Exn := SystemExit 2.

(** The left-to-right pass over the command line: the namespace so far,
    the destinations seen, and whether some string was not recognised. *)
Fixpoint consume (argv : list string) (ns : Namespace) (seen : list string)
    (extras : bool) : Exn + (Namespace * list string * bool) :=
  match argv with
  | [] => inr (ns, seen, extras)
  | arg :: rest =>
    if String.eqb arg "--" then inl usage_error
    else if positional_like arg then consume rest ns seen true
    else
      match lookup_option arg with
      | Unknown => consume rest ns seen true
      | Ambiguous => inl usage_error
      | Found a explicit =>
        match action a, explicit with
        | help, None => inl (SystemExit 0)
        | help, Some _ => inl usage_error
        | store_true, None =>
          consume rest (<[dest a := VBool true]> ns) (dest a :: seen) extras
        | store_true, Some _ => inl usage_error
        | store, Some v =>
          consume rest (<[dest a := VStr v]> ns) (dest a :: seen) extras
        | store, None =>
          match rest with
          | v :: rest' =>
            if negb (String.eqb v "--") && positional_like v then
              consume rest' (<[dest a := VStr v]> ns) (dest a :: seen) extras
            else inl usage_error
          | [] => inl usage_error
          end
        end
      end
  end.

Definition missing_required (seen : list string) : bool :=
  existsb (λ a, required a && negb (bool_decide (dest a ∈ seen))) parser.

(** The namespace [argparse] builds from a command line, or the
    [SystemExit] it leaves with. *)
Definition parse (argv : list string) : Exn + Namespace :=
  if existsb ambiguous argv then inl usage_error
  else
    match consume argv defaults [] false with
    | inl e => inl e
    | inr (ns, seen, extras) =>
      if missing_required seen then inl usage_error
      else if extras then inl usage_error
      else inr ns
    end.

(** [parser.parse_args()] on [sys.argv[1:]]. *)
Definition parse_args {S} (argv : list string) : M S Namespace :=
  match parse argv with
  | inl e => raise e
  | inr ns => mret ns
  end.

(** ** The script body

    [service token] is the client [Slacker(token)]: the remote service as
    seen with that token. *)

(** Everything after [parser.parse_args()]. *)
Definition program {S} `{!Disk S} (fuel : nat)
    (service : option string → Slacker S)
    (args : Namespace) : M S unit :=
  let slack := service (token args) in
  testAuth ← doTestAuth slack;
  userIdNameMap ← getUserMap slack;
  let dryRun := flag args "dryRun" in
  (if negb dryRun then
     open_w "metadata.json";;
     print "writing metadata";;
     write "metadata.json" (Metadata testAuth userIdNameMap)
   else mret tt);;
  (if negb (flag args "skipChannels") then getChannels fuel slack dryRun
   else mret tt);;
  (if negb (flag args "skipPrivateChannels") then
     getPrivateChannels fuel slack dryRun
   else mret tt);;
  if negb (flag args "skipDirectMessages") then
    getDirectMessages fuel slack (auth_user_id testAuth) userIdNameMap dryRun
  else mret tt.

Definition main {S} `{!Disk S} (fuel : nat)
    (service : option string → Slacker S)
    (argv : list string) : M S unit :=
  args ← parse_args argv;
  program fuel service args.

(** ** Reading a run back from the log *)

(** The [history] requests among some logged events, in order. *)
Definition history_requests (evs : list Event) : list HistoryArgs :=
  omap (λ e, match e with
             | Called (HistoryOf _ args) => Some args
             | _ => None
             end) evs.

(** The [history] requests logged between two worlds of one run. *)
Definition requests_since {S} (w w' : World S) : list HistoryArgs :=
  history_requests (drop (length (events w)) (events w')).

(** What the service, started in state [s], answers to a sequence of
    [history] requests. *)
Fixpoint replies {S} (p : Pageable S) (s : S) (reqs : list HistoryArgs)
    : list (RemoteFailure + HistoryBody) :=
  match reqs with
  | [] => []
  | args :: reqs' =>
    let '(r, s') := history p args s in r :: replies p s' reqs'
  end.

(** The world after logging one [history] request that moved the service
    to state [s']. *)
Definition requested {S} (p : Pageable S) (args : HistoryArgs) (s' : S)
    (w : World S) : World S :=
  set_remote s' (emit (Called (HistoryOf (kind p) args)) w).

(** The log entry of a [history] request sent to [p]. *)
Definition called {S} (p : Pageable S) (args : HistoryArgs) : Event :=
  Called (HistoryOf (kind p) args).

(** How the outcome of a run relates to the last answer it received: it
    returns after a final page, raises the failure of the remote, raises
    on its own or is cut short after a page that announces more. *)
Definition outcome_of_last (r : Result (list Message))
    (l : option (RemoteFailure + HistoryBody)) : Prop :=
  match r with
  | Ok _ => ∃ body, l = Some (inr body) ∧ has_more body = false
  | Raise (RemoteError e) => l = Some (inl e)
  | Raise _ => ∃ body, l = Some (inr body) ∧ has_more body = true
  | OutOfFuel => l = None ∨ ∃ body, l = Some (inr body) ∧ has_more body = true
  end.

(** ** A conversation served in pages *)

(** Modelled from the spec: the remote side of [history], which is not part
    of the script.  A conversation is a list of messages, newest first.  A
    request whose cursor [latest] is unset is answered from the newest
    message on; one whose cursor is a timestamp is answered from the message
    after the one that carries this timestamp.  The page holds at most
    [count] messages, and [has_more] tells whether older ones remain. *)
Fixpoint older_than (t : string) (conversation : list Message)
    : list Message :=
  match conversation with
  | [] => []
  | m :: rest =>
    if bool_decide (m !! "ts" = Some t) then rest else older_than t rest
  end.

Definition page (conversation : list Message) (args : HistoryArgs)
    : HistoryBody :=
  let available :=
    match latest args with
    | None => conversation
    | Some t => older_than t conversation
    end in
  {| messages := take (count args) available;
     has_more := bool_decide (count args < length available) |}.

Definition serving (k : Kind) (conversation : list Message)
    : Pageable unit :=
  mkPageable k (λ args s, (inr (page conversation args), s)).

(** ceil(n / p) *)
Definition ceil_div (n p : nat) : nat := (n + p - 1) / p.

(** The timestamp of the last of the first [n] messages. *)
Definition cursor_after (conversation : list Message) (n : nat)
    : option string :=
  last (take n conversation) ≫= (.!! "ts").

(** The requests a conversation of pages of [P] messages calls for: page
    [j] is asked for with the cursor left by the [j * P] messages before
    it. *)
Definition page_requests (ch : string) (P : nat)
    (conversation : list Message) (pages : nat) : list HistoryArgs :=
  (λ j, history_args ch (cursor_after conversation (j * P)) P)
    <$> seq 0 pages.

(** A world with an empty working directory and an empty log. *)
Definition fresh {S} (s : S) : World S := mkWorld s ∅ ∅ [].

(** The message [{ts: ...}]. *)
Definition msg (ts : string) : Message := {["ts" := ts]}.

(** The messages of a sequence of answers, in the order received. *)
Definition received (rs : list (RemoteFailure + HistoryBody)) : list Message :=
  rs ≫= (λ r, match r with inr body => messages body | inl _ => [] end).

(** The number of requests a conversation of [n] messages takes. *)
Definition requests_needed (n P : nat) : nat := max 1 (ceil_div n P).

(** A service that answers from a prepared script, whatever is asked, and
    is unreachable once the script is used up. *)
Definition scripted (k : Kind)
    : Pageable (list (RemoteFailure + HistoryBody)) :=
  mkPageable k (λ args script,
    match script with
    | r :: rest => (r, rest)
    | [] => (inl NetworkFailure, [])
    end).

(** A service that always has one more page. *)
Definition endless (k : Kind) : Pageable unit :=
  mkPageable k (λ args s,
    (inr {| messages := [msg "1"]; has_more := true |}, s)).

(** ** What a run may do *)

(** [w'] is reached from [w] by logged actions that all satisfy [Q];
    directories and files only change through logged actions, a file only
    when a name that leads to it is opened or written. *)
Definition extends {S} (Q : Event → Prop) (w w' : World S) : Prop :=
  ∃ evs, events w' = events w ++ evs
    ∧ Forall Q evs
    ∧ (∀ d, d ∈ dirs w' ↔ d ∈ dirs w ∨ MadeDirs d ∈ evs)
    ∧ (∀ k, (∀ f, Opened f ∈ evs → key_of f ≠ k) →
            (∀ f doc, Wrote f doc ∈ evs → key_of f ≠ k) →
            files w' !! k = files w !! k).

(** Every run of [m] stays within [Q]. *)
Definition confined {S A} (Q : Event → Prop) (m : M S A) : Prop :=
  ∀ w, extends Q w (m w).2.

(** The actions of a dry run: console output, the identity check, the
    user list and the three conversation lists. *)
Definition dry_run_event (e : Event) : Prop :=
  match e with
  | Printed _ => True
  | Called AuthTest | Called UsersList | Called (ListOf _) => True
  | _ => False
  end.

(** The actions left when channels and private channels are skipped. *)
Definition direct_messages_event (e : Event) : Prop :=
  match e with
  | Printed _ => True
  | Called AuthTest | Called UsersList => True
  | Called (ListOf Im) | Called (HistoryOf Im _) => True
  | MadeDirs d => d = "direct_messages"
  | Opened f | Wrote f _ =>
    f = "metadata.json" ∨ String.prefix "direct_messages/" f = true
  | _ => False
  end.

(** ** A small workspace, for instances *)

(** A file system that refuses nothing. *)
Definition reliable {S} : Disk S := {| refuses := λ _ _, false |}.

(** The disk of the demo workspace. *)
Global Instance demo_disk : Disk unit := reliable.

(** The conversations of the workspace, newest message first. *)
Definition demo_conversation (conversation : string) : list Message :=
  if String.eqb conversation "C1" then [msg "3"; msg "2"; msg "1"]
  else if String.eqb conversation "D2" then [msg "7"]
  else [].

(** Every conversation is served in pages. *)
Definition demo_history (args : HistoryArgs) : Reply unit HistoryBody :=
  λ s, (inr (page (demo_conversation (channel args)) args), s).

(** An endpoint that always returns [body]. *)
Definition answer {A} (body : A) : Reply unit A := λ s, (inr body, s).

(** An endpoint that rejects the token. *)
Definition refuse {A} : Reply unit A := λ s, (inl AuthFailure, s).

(** The workspace as seen with a token; without one every call is
    refused. *)
Definition demo_service (token : option string) : Slacker unit :=
  match token with
  | None =>
    mkSlacker refuse refuse refuse (λ _, refuse) (λ _, refuse)
      refuse (λ _, refuse) (λ _, refuse) refuse (λ _, refuse)
  | Some _ =>
    mkSlacker
      (answer {| auth_team := "acme"; auth_user := "alice";
                 auth_user_id := "U1" |})
      (answer [ {| user_id := "U1"; user_name := "alice" |};
                {| user_id := "U2"; user_name := "bob" |} ])
      (answer [ {| channel_id := "C1"; channel_name := "general" |} ])
      (λ conversation, answer ("info " +:+ conversation))
      demo_history
      (answer [ {| group_id := "G1"; group_name := "secret";
                   group_members := ["U1"; "U2"] |} ])
      (λ conversation, answer ("info " +:+ conversation))
      demo_history
      (answer [ {| dm_id := "D1"; dm_user := "U2" |};
                {| dm_id := "D2"; dm_user := "U9" |} ])
      demo_history
  end.

(** The namespace of a command line that parses. *)
Definition parsed (argv : list string) : Namespace :=
  match parse argv with
  | inr args => args
  | inl _ => ∅
  end.

(** The calls among some logged events. *)
Definition calls (evs : list Event) : list Call :=
  omap (λ e, match e with Called c => Some c | _ => None end) evs.

(** The script with the exporters of channels and of private channels
    left out. *)
Definition direct_messages_only {S} `{!Disk S} (fuel : nat)
    (service : option string → Slacker S) (args : Namespace) : M S unit :=
  let slack := service (token args) in
  testAuth ← doTestAuth slack;
  userIdNameMap ← getUserMap slack;
  let dryRun := flag args "dryRun" in
  (if negb dryRun then
     open_w "metadata.json";;
     print "writing metadata";;
     write "metadata.json" (Metadata testAuth userIdNameMap)
   else mret tt);;
  if negb (flag args "skipDirectMessages") then
    getDirectMessages fuel slack (auth_user_id testAuth) userIdNameMap dryRun
  else mret tt.

(** The whole script, from the command line on, without these two
    exporters. *)
Definition main_without_channels {S} `{!Disk S} (fuel : nat)
    (service : option string → Slacker S) (argv : list string) : M S unit :=
  args ← parse_args argv;
  direct_messages_only fuel service args.

(** A boolean flag is given when it stands on the command line in full, or
    when the namespace parsed from the command line has it set (as it is
    after an abbreviation of the flag). *)
Definition given (name : string) (argv : list string) : Prop :=
  name ∈ argv
  ∨ flag (parsed argv) (dest (add_argument name store_true)) = true.

(** The map [getUserMap] builds in that workspace. *)
Definition demo_users : gmap string string :=
  {["U1" := "alice"; "U2" := "bob"]}.

(** The four options that take no value. *)
Definition boolean_flags : list string :=
  ["--dryRun"; "--skipPrivateChannels"; "--skipChannels";
   "--skipDirectMessages"].

(** A service that answers one page and is then rate limited. *)
Definition rate_limited : list (RemoteFailure + HistoryBody) :=
  [inr {| messages := [msg "9"; msg "8"]; has_more := true |};
   inl RateLimited;
   inr {| messages := [msg "7"]; has_more := false |}].

(** ** Parts of the functions, by name *)

(** The cursor the loop holds after some answers: the timestamp of the last
    message received. *)
Definition cursor_of (rs : list (RemoteFailure + HistoryBody))
    : option string :=
  last (received rs) ≫= (.!! "ts").

(** The dictionary [getUserMap] fills from a list of users. *)
Definition user_map (users : list User) : gmap string string :=
  foldl (λ m user, <[user_id user := user_name user]> m) ∅ users.

(** The body of the loop of [getChannels] that exports the channels. *)
Definition export_channel {S} `{!Disk S} (fuel : nat) (slack : Slacker S)
    (channel : Channel) : M S unit :=
  print ("getting history for channel " +:+ channel_name channel);;
  let fileName := json_path "channels" (channel_name channel) in
  msgs ← getHistory fuel (channels slack) (channel_id channel)
           default_pageSize;
  channelInfo ← call (InfoOf Channels (channel_id channel))
                  (channels_info slack (channel_id channel));
  open_w fileName;;
  print ("writing " +:+ pretty (length msgs) +:+ " records to "
         +:+ fileName);;
  write fileName (Export (RemoteInfo channelInfo) msgs).

(** The body of the loop of [getPrivateChannels] that exports the private
    channels. *)
Definition export_group {S} `{!Disk S} (fuel : nat) (slack : Slacker S)
    (group : Group) : M S unit :=
  print ("getting history for private channel " +:+ group_name group
         +:+ " with id " +:+ group_id group);;
  let fileName := json_path "private_channels" (group_name group) in
  msgs ← getHistory fuel (groups slack) (group_id group) default_pageSize;
  channelInfo ← call (InfoOf Groups (group_id group))
                  (groups_info slack (group_id group));
  open_w fileName;;
  print ("writing " +:+ pretty (length msgs) +:+ " records to "
         +:+ fileName);;
  write fileName (Export (RemoteInfo channelInfo) msgs).

(** The file [getDirectMessages] writes a conversation to. *)
Definition dm_file (userIdNameMap : gmap string string)
    (dm : DirectMessage) : string :=
  json_path "direct_messages"
    (dict_get userIdNameMap (dm_user dm) (dm_user dm +:+ " (name unknown)")).

(** What [getChannels] writes for a channel: the answer of
    [channels.info] for it and the messages [getHistory] returned for it
    just before. *)
Definition channel_document {S} (fuel : nat) (slack : Slacker S)
    (channel : Channel) (doc : Document) : Prop :=
  ∃ w1 w2 msgs info s,
    getHistory fuel (channels slack) (channel_id channel) default_pageSize w1
    = (Ok msgs, w2)
    ∧ channels_info slack (channel_id channel) (remote w2) = (inr info, s)
    ∧ doc = Export (RemoteInfo info) msgs.

(** The same for a private channel. *)
Definition group_document {S} (fuel : nat) (slack : Slacker S)
    (group : Group) (doc : Document) : Prop :=
  ∃ w1 w2 msgs info s,
    getHistory fuel (groups slack) (group_id group) default_pageSize w1
    = (Ok msgs, w2)
    ∧ groups_info slack (group_id group) (remote w2) = (inr info, s)
    ∧ doc = Export (RemoteInfo info) msgs.


(** The names under which the service lists conversations have no [/]. *)
Definition slash_free_names {S} (slack : Slacker S)
    (userIdNameMap : gmap string string) : Prop :=
  (∀ s chans s',
     channels_list slack s = (inr chans, s') →
     Forall (λ channel, slash_free (channel_name channel) = true) chans)
  ∧ (∀ s grps s',
       groups_list slack s = (inr grps, s') →
       Forall (λ group, slash_free (group_name group) = true) grps)
  ∧ (∀ s dms s',
       im_list slack s = (inr dms, s') →
       Forall (λ dm, slash_free (dict_get userIdNameMap (dm_user dm)
                                   (dm_user dm +:+ " (name unknown)"))
                     = true) dms).

(** The actions that leave [metadata.json] alone. *)
Definition keeps_metadata (e : Event) : Prop :=
  match e with
  | Opened f | Wrote f _ => key_of f ≠ "metadata.json"
  | _ => True
  end.

(** ** Further instances *)

(** The demo workspace when the user list is out of reach. *)
Definition no_users_service (token : option string) : Slacker unit :=
  let demo := demo_service token in
  mkSlacker (auth_test demo) (λ s, (inl NetworkFailure, s))
    (channels_list demo) (channels_info demo) (channels_history demo)
    (groups_list demo) (groups_info demo) (groups_history demo)
    (im_list demo) (im_history demo).


(** A working directory in which [channels] is a file. *)
Definition cluttered : World unit :=
  mkWorld tt ∅ {["channels" := []]} [].

(** A working directory in which [metadata.json] is a directory. *)
Definition occupied : World unit :=
  mkWorld tt {["metadata.json"]} ∅ [].

(** A page whose only message has no timestamp. *)
Definition untimed : list (RemoteFailure + HistoryBody) :=
  [inr {| messages := [{["text" := "hello"]}]; has_more := true |}].

(** * Properties of [getHistory] *)

Section GetHistory.
Context {S : Type}.
Implicit Types (p : Pageable S) (w : World S) (msgs : list Message).

(** One iteration of the loop. *)
Lemma getHistory_loop_step fuel p ch P msgs cur w :
  getHistory_loop (Datatypes.S fuel) p ch P msgs cur w =
  let args := history_args ch cur P in
  match history p args (remote w) with
  | (inl e, s') => (Raise (RemoteError e), requested p args s' w)
  | (inr body, s') =>
    let msgs' := msgs ++ messages body in
    if has_more body then
      match last msgs' with
      | None => (Raise IndexError, requested p args s' w)
      | Some m =>
        match m !! "ts" with
        | None => (Raise (KeyError "ts"), requested p args s' w)
        | Some ts =>
          getHistory_loop fuel p ch P msgs' (Some ts)
            (requested p args s' w)
        end
      end
    else (Ok msgs', requested p args s' w)
  end.
Proof.
  cbn [getHistory_loop]. unfold mbind, M_bind, call, requested. cbn.
  destruct (history p (history_args ch cur P) (remote w)) as [[e|body] s'];
    cbn; [reflexivity|].
  destruct (has_more body); [|reflexivity].
  unfold last_item. destruct (last (msgs ++ messages body)) as [m|];
    cbn; [|reflexivity].
  unfold getitem. destruct (m !! "ts"); reflexivity.
Qed.

(** A page without [has_more] ends the loop at once. *)
Lemma getHistory_loop_last_page fuel p ch P msgs cur w body s' :
  history p (history_args ch cur P) (remote w) = (inr body, s') →
  has_more body = false →
  getHistory_loop (Datatypes.S fuel) p ch P msgs cur w =
  (Ok (msgs ++ messages body), requested p (history_args ch cur P) s' w).
Proof.
  intros Hreply Hmore. rewrite getHistory_loop_step. cbn zeta.
  rewrite Hreply, Hmore. reflexivity.
Qed.

(** The log after the single request of a run that took one. *)
Lemma events_requested p args s' w :
  events (requested p args s' w)
  = events w ++ [Called (HistoryOf (kind p) args)].
Proof. reflexivity. Qed.

Lemma requests_since_app w w' evs :
  events w' = events w ++ evs →
  requests_since w w' = history_requests evs.
Proof.
  intros Hevs. unfold requests_since. by rewrite Hevs, drop_app_length.
Qed.
End GetHistory.

Section Trace.
Context {S : Type}.
Implicit Types (p : Pageable S) (w : World S) (msgs : list Message).

Lemma length_replies p s reqs : length (replies p s reqs) = length reqs.
Proof.
  revert s. induction reqs as [|a reqs IH]; intros s; [done|].
  cbn. destruct (history p a s). cbn. by rewrite IH.
Qed.

Lemma history_requests_called p reqs :
  history_requests (called p <$> reqs) = reqs.
Proof. induction reqs as [|a reqs IH]; [done|]. cbn. by f_equal. Qed.

Lemma getHistory_loop_trace p ch P fuel : ∀ msgs cur w, ∃ reqs,
  let run := getHistory_loop fuel p ch P msgs cur w in
  events run.2 = events w ++ (called p <$> reqs)
  ∧ dirs run.2 = dirs w ∧ files run.2 = files w
  ∧ length reqs ≤ fuel
  ∧ (run.1 = OutOfFuel → length reqs = fuel)
  ∧ (∀ i r, replies p (remote w) reqs !! i = Some r →
            Datatypes.S i < length reqs →
            ∃ body, r = inr body ∧ has_more body = true)
  ∧ outcome_of_last run.1 (last (replies p (remote w) reqs)).
Proof.
  induction fuel as [|fuel IH]; intros msgs cur w.
  { exists []. cbn. rewrite app_nil_r. repeat split; eauto; try lia; try done. }
  rewrite getHistory_loop_step. cbn zeta.
  set (args := history_args ch cur P).
  destruct (history p args (remote w)) as [[e|body] s'] eqn:Hreply.
  { exists [args]. cbn. rewrite Hreply. cbn.
    repeat split; eauto; try lia; try done; intros; lia. }
  destruct (has_more body) eqn:Hmore.
  2:{ exists [args]. cbn. rewrite Hreply. cbn.
    repeat split; eauto; try lia; try done; intros; lia. }
  destruct (last (msgs ++ messages body)) as [m|].
  2:{ exists [args]. cbn. rewrite Hreply. cbn.
    repeat split; eauto; try lia; try done; intros; lia. }
  destruct (m !! "ts") as [ts|].
  2:{ exists [args]. cbn. rewrite Hreply. cbn.
    repeat split; eauto; try lia; try done; intros; lia. }
  destruct (IH (msgs ++ messages body) (Some ts) (requested p args s' w))
    as (reqs & Hev & Hd & Hf & Hlen & Hout & Hmid & Hlast).
  exists (args :: reqs). cbn zeta in *.
  destruct (getHistory_loop fuel p ch P (msgs ++ messages body) (Some ts)
              (requested p args s' w)) as [r w'].
  cbn [fst snd] in *. cbn [replies]. rewrite Hreply.
  change (remote (requested p args s' w)) with s' in *.
  repeat split.
  - rewrite Hev. cbn. by rewrite <- app_assoc.
  - by rewrite Hd.
  - by rewrite Hf.
  - cbn. lia.
  - intros Hr. cbn. by rewrite (Hout Hr).
  - intros [|i] r0 Hi Hlt; cbn in *.
    + injection Hi as <-. eauto.
    + apply (Hmid i r0 Hi). lia.
  - destruct reqs as [|a reqs].
    + cbn in *. destruct r as [?|[]|]; cbn in *;
        try (destruct Hlast as (? & [=] & _)); try done.
      right. eauto.
    + cbn [replies] in *. destruct (history p a s') as [r1 s1].
      by rewrite last_cons_cons.
Qed.

(** The requests of a run, its outcome and its last answer. *)
Lemma getHistory_trace p ch P fuel w :
  let run := getHistory fuel p ch P w in
  let reqs := requests_since w run.2 in
  events run.2 = events w ++ (called p <$> reqs)
  ∧ dirs run.2 = dirs w ∧ files run.2 = files w
  ∧ length reqs ≤ fuel
  ∧ (run.1 = OutOfFuel → length reqs = fuel)
  ∧ (∀ i r, replies p (remote w) reqs !! i = Some r →
            Datatypes.S i < length reqs →
            ∃ body, r = inr body ∧ has_more body = true)
  ∧ outcome_of_last run.1 (last (replies p (remote w) reqs)).
Proof.
  cbn zeta. unfold getHistory.
  destruct (getHistory_loop_trace p ch P fuel [] None w)
    as (reqs & Hev & Hrest).
  cbn zeta in *.
  rewrite (requests_since_app _ _ _ Hev), history_requests_called.
  by split.
Qed.

(** Only the last answer of a run can be a failure or a final page. *)
Lemma reply_is_last p ch P fuel w i r :
  let run := getHistory fuel p ch P w in
  let reqs := requests_since w run.2 in
  replies p (remote w) reqs !! i = Some r →
  (∀ body, r = inr body → has_more body = false) →
  length reqs = Datatypes.S i ∧ last (replies p (remote w) reqs) = Some r.
Proof.
  cbn zeta. intros Hi Hr.
  destruct (getHistory_trace p ch P fuel w)
    as (_ & _ & _ & _ & _ & Hmid & _). cbn zeta in Hmid.
  pose proof (lookup_lt_Some _ _ _ Hi) as Hlt.
  rewrite length_replies in Hlt.
  assert (length (requests_since w (getHistory fuel p ch P w).2)
          = Datatypes.S i) as Hlen.
  { destruct (decide (Datatypes.S i
                      < length (requests_since w (getHistory fuel p ch P w).2)))
      as [Hlt'|]; [|lia].
    destruct (Hmid i r Hi Hlt') as (body & -> & Hmore).
    rewrite (Hr body eq_refl) in Hmore. discriminate. }
  split; [done|]. by rewrite last_lookup, length_replies, Hlen.
Qed.

Lemma getHistory_loop_diverges p ch P :
  (∀ args s, ∃ body s',
      history p args s = (inr body, s') ∧ has_more body = true
      ∧ ∃ m ts, last (messages body) = Some m ∧ m !! "ts" = Some ts) →
  ∀ fuel msgs cur w, (getHistory_loop fuel p ch P msgs cur w).1 = OutOfFuel.
Proof.
  intros Hp. induction fuel as [|fuel IH]; intros msgs cur w; [done|].
  rewrite getHistory_loop_step. cbn zeta.
  destruct (Hp (history_args ch cur P) (remote w))
    as (body & s' & -> & -> & m & ts & Hm & Hts).
  rewrite last_app, Hm, Hts. apply IH.
Qed.

(** More fuel does not change the outcome of a run that ended. *)
Lemma getHistory_loop_fuel_mono p ch P fuel : ∀ fuel' msgs cur w,
  fuel ≤ fuel' →
  (getHistory_loop fuel p ch P msgs cur w).1 ≠ OutOfFuel →
  getHistory_loop fuel' p ch P msgs cur w
  = getHistory_loop fuel p ch P msgs cur w.
Proof.
  induction fuel as [|fuel IH]; intros fuel' msgs cur w Hle Hend;
    [done|].
  destruct fuel' as [|fuel']; [lia|].
  rewrite !getHistory_loop_step in *. cbn zeta in *.
  destruct (history p (history_args ch cur P) (remote w))
    as [[e|body] s']; [done|].
  destruct (has_more body); [|done].
  destruct (last (msgs ++ messages body)) as [m|]; [|done].
  destruct (m !! "ts"); [|done].
  apply IH; [lia|done].
Qed.

(** With a non-empty accumulated list, [msgs[-1]] is in range. *)
Lemma getHistory_loop_no_IndexError p ch P fuel : ∀ msgs cur w,
  msgs ≠ [] →
  (getHistory_loop fuel p ch P msgs cur w).1 ≠ Raise IndexError.
Proof.
  induction fuel as [|fuel IH]; intros msgs cur w Hne; [done|].
  rewrite getHistory_loop_step. cbn zeta.
  destruct (history p (history_args ch cur P) (remote w))
    as [[e|body] s']; [done|].
  destruct (has_more body); [|done].
  destruct (last (msgs ++ messages body)) as [m|] eqn:Hlast.
  - destruct (m !! "ts"); [|done]. apply IH.
    by destruct msgs.
  - apply last_None in Hlast. by destruct msgs.
Qed.
End Trace.

(** C2. When the first page comes back with [has_more = false], the run
    of [getHistory] returns exactly that page's messages, whatever their
    number, and the log grows by exactly one history request. *)
Theorem getHistory_first_page_final {S} (p : Pageable S) (w : World S)
    (ch : string) (P fuel : nat) (body : HistoryBody) (s' : S) :
  history p (history_args ch None P) (remote w) = (inr body, s') →
  has_more body = false →
  getHistory (Datatypes.S fuel) p ch P w
  = (Ok (messages body),
     mkWorld s' (dirs w) (files w)
       (events w ++ [Called (HistoryOf (kind p) (history_args ch None P))]))
  ∧ requests_since w (getHistory (Datatypes.S fuel) p ch P w).2
    = [history_args ch None P].
Proof.
  intros Hreply Hmore. unfold getHistory.
  rewrite (getHistory_loop_last_page _ _ _ _ _ _ _ _ _ Hreply Hmore).
  split; [reflexivity|]. cbn [snd].
  by rewrite (requests_since_app _ _ _ (events_requested _ _ _ _)).
Qed.

(** C3. For a conversation without messages (the first answer is the
    empty page with [has_more = false]) the run issues exactly one history
    request and returns the empty list. *)
Theorem getHistory_empty_conversation {S} (p : Pageable S) (w : World S)
    (ch : string) (P fuel : nat) (s' : S) :
  history p (history_args ch None P) (remote w)
  = (inr {| messages := []; has_more := false |}, s') →
  (getHistory (Datatypes.S fuel) p ch P w).1 = Ok []
  ∧ requests_since w (getHistory (Datatypes.S fuel) p ch P w).2
    = [history_args ch None P].
Proof.
  intros Hreply. unfold getHistory.
  rewrite (getHistory_loop_last_page _ _ _ _ _ _ _ _ _ Hreply eq_refl).
  split; [reflexivity|]. cbn [snd].
  by rewrite (requests_since_app _ _ _ (events_requested _ _ _ _)).
Qed.

(** C5. When some request of a run of [getHistory] fails, the run raises
    that very failure: the failed request is the last one the run sent
    (nothing is retried), and nothing is returned. *)
Theorem getHistory_failure_propagates {S} (p : Pageable S) (w : World S)
    (ch : string) (P fuel i : nat) (e : RemoteFailure) :
  replies p (remote w)
    (requests_since w (getHistory fuel p ch P w).2) !! i = Some (inl e) →
  (getHistory fuel p ch P w).1 = Raise (RemoteError e)
  ∧ length (requests_since w (getHistory fuel p ch P w).2) = Datatypes.S i.
Proof.
  intros Hi.
  destruct (reply_is_last p ch P fuel w i (inl e) Hi) as [Hlen Hlast];
    [done|].
  split; [|done].
  destruct (getHistory_trace p ch P fuel w)
    as (_ & _ & _ & _ & _ & _ & Hout). cbn zeta in Hout.
  rewrite Hlast in Hout.
  destruct (getHistory fuel p ch P w).1 as [?|[]|]; cbn in Hout;
    try (destruct Hout as (? & [=] & _)); try done.
  - by injection Hout as ->.
  - by destruct Hout as [|(? & [=] & _)].
Qed.

(** C10. [getHistory] returns if and only if some request of its run is
    answered with [has_more = false]; once it has returned, more fuel
    changes nothing.  Against a service that always answers with a
    non-empty page and [has_more = true] it never returns: however many
    iterations are allowed, all of them are used to send requests. *)
Theorem getHistory_returns_iff {S} (p : Pageable S) (w : World S)
    (ch : string) (P : nat) :
  ((∃ fuel msgs, (getHistory fuel p ch P w).1 = Ok msgs) ↔
   (∃ fuel i body,
      replies p (remote w)
        (requests_since w (getHistory fuel p ch P w).2) !! i
      = Some (inr body)
      ∧ has_more body = false))
  ∧ (∀ fuel fuel' msgs,
       (getHistory fuel p ch P w).1 = Ok msgs → fuel ≤ fuel' →
       getHistory fuel' p ch P w = getHistory fuel p ch P w)
  ∧ ((∀ args s, ∃ body s',
        history p args s = (inr body, s') ∧ has_more body = true
        ∧ ∃ m ts, last (messages body) = Some m ∧ m !! "ts" = Some ts) →
     ∀ fuel, (getHistory fuel p ch P w).1 = OutOfFuel
             ∧ length (requests_since w (getHistory fuel p ch P w).2) = fuel).
Proof.
  split; [split|split].
  - intros (fuel & msgs & Hok). exists fuel.
    destruct (getHistory_trace p ch P fuel w)
      as (_ & _ & _ & _ & _ & _ & Hout). cbn zeta in Hout.
    rewrite Hok in Hout. destruct Hout as (body & Hlast & Hmore).
    rewrite last_lookup in Hlast. eauto.
  - intros (fuel & i & body & Hi & Hmore). exists fuel.
    destruct (reply_is_last p ch P fuel w i (inr body) Hi) as [_ Hlast].
    { by intros ? [= <-]. }
    destruct (getHistory_trace p ch P fuel w)
      as (_ & _ & _ & _ & _ & _ & Hout). cbn zeta in Hout.
    rewrite Hlast in Hout.
    destruct (getHistory fuel p ch P w).1 as [msgs|[]|]; cbn in Hout;
      eauto; try done;
      try (destruct Hout as (? & [= <-] & ?); congruence).
    destruct Hout as [|(? & [= <-] & ?)]; congruence.
  - intros fuel fuel' msgs Hok Hle. unfold getHistory in *.
    apply getHistory_loop_fuel_mono; [done|]. by rewrite Hok.
  - intros Hp fuel.
    assert ((getHistory fuel p ch P w).1 = OutOfFuel) as Hout
      by apply (getHistory_loop_diverges p ch P Hp).
    split; [done|].
    by destruct (getHistory_trace p ch P fuel w)
      as (_ & _ & _ & _ & Hlen & _); apply Hlen.
Qed.

(** C9. [messages[-1]] is out of range exactly when the first answer is an
    empty page with [has_more = true], and then the run sends this one
    request and fails with [IndexError], neither returning nor looping.  In
    every other case the accumulated list is non-empty whenever the index
    is evaluated, so no [IndexError] is raised. *)
Theorem getHistory_IndexError_iff {S} (p : Pageable S) (w : World S)
    (ch : string) (P fuel : nat) :
  ((getHistory fuel p ch P w).1 = Raise IndexError ↔
   0 < fuel ∧ ∃ body s',
     history p (history_args ch None P) (remote w) = (inr body, s')
     ∧ has_more body = true ∧ messages body = [])
  ∧ (∀ body s',
       0 < fuel →
       history p (history_args ch None P) (remote w) = (inr body, s') →
       has_more body = true →
       messages body = [] →
       getHistory fuel p ch P w
       = (Raise IndexError, requested p (history_args ch None P) s' w)).
Proof.
  assert (∀ body s',
            0 < fuel →
            history p (history_args ch None P) (remote w) = (inr body, s') →
            has_more body = true →
            messages body = [] →
            getHistory fuel p ch P w
            = (Raise IndexError,
               requested p (history_args ch None P) s' w)) as Hraises.
  { intros body s' Hfuel Hreply Hmore Hnil. unfold getHistory.
    destruct fuel as [|fuel]; [lia|].
    rewrite getHistory_loop_step. cbn zeta.
    by rewrite Hreply, Hmore, Hnil. }
  split; [|exact Hraises]. split.
  - unfold getHistory. destruct fuel as [|fuel]; [done|].
    rewrite getHistory_loop_step. cbn zeta.
    destruct (history p (history_args ch None P) (remote w))
      as [[e|body] s'] eqn:Hreply; [done|].
    destruct (has_more body) eqn:Hmore; [|done].
    rewrite app_nil_l.
    destruct (last (messages body)) as [m|] eqn:Hlast.
    + assert (messages body ≠ []) as Hne
        by (by intros Heq; rewrite Heq in Hlast).
      destruct (m !! "ts"); [|done]. intros Hraise.
      by apply getHistory_loop_no_IndexError in Hraise.
    + apply last_None in Hlast. intros _. split; [lia|].
      by exists body, s'.
  - intros (Hfuel & body & s' & Hreply & Hmore & Hnil).
    by rewrite (Hraises body s' Hfuel Hreply Hmore Hnil).
Qed.

(** * A conversation served in pages *)

Section Paged.
Context (k : Kind) (conversation : list Message) (ch : string) (P : nat).
Hypothesis P_pos : 0 < P.
Hypothesis timestamps : Forall (λ m : Message, is_Some (m !! "ts")) conversation.
Hypothesis distinct : NoDup (omap (λ m : Message, m !! "ts") conversation).

Lemma ceil_div_spec n :
  n ≤ ceil_div n P * P
  ∧ (0 < n → (ceil_div n P - 1) * P < n)
  ∧ ceil_div n P ≤ n.
Proof.
  unfold ceil_div.
  pose proof (Nat.div_mod_eq (n + P - 1) P) as Hdiv.
  pose proof (Nat.mod_upper_bound (n + P - 1) P) as Hmod.
  repeat split; [nia| |nia]. intros Hn. nia.
Qed.

Lemma older_than_lookup : ∀ convo i (m : Message) t,
  Forall (λ m : Message, is_Some (m !! "ts")) convo →
  NoDup (omap (λ m : Message, m !! "ts") convo) →
  convo !! i = Some m → m !! "ts" = Some t →
  older_than t convo = drop (Datatypes.S i) convo.
Proof.
  induction convo as [|m0 rest IH]; intros i m t Hts Hnd Hi Ht; [done|].
  apply Forall_cons in Hts as [[t0 Ht0] Hts].
  cbn in Hnd. rewrite Ht0 in Hnd. cbn in Hnd.
  apply NoDup_cons in Hnd as [Hnotin Hnd].
  destruct i as [|i]; cbn in *.
  - injection Hi as ->. by rewrite bool_decide_eq_true_2.
  - rewrite bool_decide_eq_false_2; [by eapply IH|].
    intros Heq. apply Hnotin.
    assert (t0 = t) as -> by congruence.
    apply list_elem_of_omap. exists m. split; [|done].
    by eapply list_elem_of_lookup_2.
Qed.

Lemma cursor_after_Some n :
  0 < n → n ≤ length conversation →
  ∃ m t, conversation !! (n - 1) = Some m ∧ m !! "ts" = Some t
         ∧ last (take n conversation) = Some m
         ∧ cursor_after conversation n = Some t.
Proof.
  intros Hpos Hle.
  destruct (lookup_lt_is_Some_2 conversation (n - 1)) as [m Hm]; [lia|].
  destruct (proj1 (Forall_lookup _ _) timestamps _ _ Hm) as [t Ht].
  exists m, t. unfold cursor_after.
  assert (last (take n conversation) = Some m) as Hlast.
  { rewrite last_lookup, length_take_le by lia.
    rewrite lookup_take_lt by lia.
    by replace (pred n) with (n - 1) by lia. }
  by rewrite Hlast.
Qed.

(** What the service holds back for the request that follows [n]
    received messages. *)
Lemma page_at n :
  n = 0 ∨ n < length conversation →
  page conversation (history_args ch (cursor_after conversation n) P)
  = {| messages := take P (drop n conversation);
       has_more := bool_decide (P < length conversation - n) |}.
Proof.
  intros Hn. unfold page. cbn.
  assert (match cursor_after conversation n with
          | None => conversation
          | Some t => older_than t conversation
          end = drop n conversation) as ->.
  { destruct (decide (n = 0)) as [->|Hne]; [done|].
    destruct (cursor_after_Some n) as (m & t & Hm & Ht & _ & ->); [lia..|].
    rewrite (older_than_lookup _ _ _ _ timestamps distinct Hm Ht).
    f_equal. lia. }
  by rewrite length_drop.
Qed.

Lemma getHistory_loop_serving d : ∀ j fuel w,
  d < fuel →
  (j = 0 ∨ j * P < length conversation) →
  (∀ j', j ≤ j' < j + d → (j' + 1) * P < length conversation) →
  length conversation ≤ (j + d + 1) * P →
  getHistory_loop fuel (serving k conversation) ch P
    (take (j * P) conversation) (cursor_after conversation (j * P)) w
  = (Ok conversation,
     mkWorld (remote w) (dirs w) (files w)
       (events w ++ (called (serving k conversation)
                     <$> ((λ j, history_args ch
                                  (cursor_after conversation (j * P)) P)
                          <$> seq j (Datatypes.S d))))).
Proof.
  induction d as [|d IH]; intros j fuel w Hfuel Hj Hmore Hend;
    (destruct fuel as [|fuel]; [lia|]);
    (assert (j * P = 0 ∨ j * P < length conversation) as Hj'
       by (destruct Hj as [->|]; [left|right]; lia));
    rewrite getHistory_loop_step; cbn zeta;
    cbn [serving history]; rewrite (page_at _ Hj'); cbn [messages has_more];
    rewrite take_take_drop.
  - rewrite bool_decide_eq_false_2 by lia.
    rewrite take_ge by lia. destruct w as [[] ? ? ?]. reflexivity.
  - assert ((j + 1) * P < length conversation) as Hnext
      by (apply Hmore; lia).
    rewrite bool_decide_eq_true_2 by lia.
    replace (j * P + P) with ((j + 1) * P) by lia.
    destruct (cursor_after_Some ((j + 1) * P))
      as (m & t & _ & Ht & Hlast & Hcur); [lia..|].
    rewrite Hlast, Ht, <- Hcur.
    rewrite IH; [|lia|right; lia|intros; apply Hmore; lia|lia].
    destruct w as [[] ? ? ?]. cbn. f_equal. f_equal.
    rewrite <- app_assoc. cbn. unfold called. cbn.
    repeat f_equal; lia.
Qed.
End Paged.

Section Returns.
Context {S : Type}.
Implicit Types (p : Pageable S) (w : World S) (msgs : list Message).

Lemma getHistory_loop_returns p ch P fuel : ∀ msgs cur w m,
  (getHistory_loop fuel p ch P msgs cur w).1 = Ok m →
  m = msgs ++ received (replies p (remote w)
        (requests_since w (getHistory_loop fuel p ch P msgs cur w).2)).
Proof.
  induction fuel as [|fuel IH]; intros msgs cur w m; [done|].
  rewrite getHistory_loop_step. cbn zeta.
  set (args := history_args ch cur P).
  destruct (history p args (remote w)) as [[e|body] s'] eqn:Hreply;
    [done|].
  destruct (has_more body).
  2:{ intros [= <-]. cbn [snd].
      rewrite (requests_since_app _ _ _ (events_requested _ _ _ _)).
      cbn. rewrite Hreply. cbn. by rewrite app_nil_r. }
  destruct (last (msgs ++ messages body)) as [m'|]; [|done].
  destruct (m' !! "ts") as [ts|]; [|done].
  intros Hok. rewrite (IH _ _ _ _ Hok).
  destruct (getHistory_loop_trace p ch P fuel (msgs ++ messages body)
              (Some ts) (requested p args s' w)) as (reqs & Hev & _).
  cbn zeta in Hev.
  rewrite (requests_since_app _ _ _ Hev), history_requests_called.
  rewrite events_requested, <- app_assoc in Hev.
  rewrite (requests_since_app _ _ _ Hev).
  change (history_requests ([Called (HistoryOf (kind p) args)]
                            ++ (called p <$> reqs)))
    with (args :: history_requests (called p <$> reqs)).
  rewrite history_requests_called. cbn [replies]. rewrite Hreply.
  unfold received. cbn. by rewrite <- app_assoc.
Qed.
End Returns.

(** C1, amended.  A conversation of [N] messages with pairwise distinct
    timestamps, served newest first in pages of [P >= 1] messages, is
    fetched with [max 1 (ceil (N / P))] requests: the first with the cursor
    unset, request [j] with the timestamp of the last of the [j * P]
    messages appended so far.  The run returns the conversation itself,
    which is the concatenation of the pages in the order received. *)
Theorem getHistory_serving (k : Kind) (conversation : list Message)
    (ch : string) (P fuel : nat) (w : World unit) :
  0 < P →
  Forall (λ m : Message, is_Some (m !! "ts")) conversation →
  NoDup (omap (λ m : Message, m !! "ts") conversation) →
  requests_needed (length conversation) P ≤ fuel →
  (getHistory fuel (serving k conversation) ch P w).1 = Ok conversation
  ∧ requests_since w (getHistory fuel (serving k conversation) ch P w).2
    = page_requests ch P conversation
        (requests_needed (length conversation) P)
  ∧ length (requests_since w
              (getHistory fuel (serving k conversation) ch P w).2)
    = requests_needed (length conversation) P
  ∧ head (requests_since w
            (getHistory fuel (serving k conversation) ch P w).2)
    = Some (history_args ch None P)
  ∧ conversation
    = received (replies (serving k conversation) (remote w)
        (requests_since w
           (getHistory fuel (serving k conversation) ch P w).2)).
Proof.
  intros HP Hts Hnd Hfuel. unfold requests_needed in *.
  pose proof (ceil_div_spec P HP (length conversation))
    as (Hup & Hlow & Hle).
  assert (getHistory fuel (serving k conversation) ch P w
          = (Ok conversation,
             mkWorld (remote w) (dirs w) (files w)
               (events w ++ (called (serving k conversation)
                  <$> page_requests ch P conversation
                        (max 1 (ceil_div (length conversation) P))))))
    as Hrun.
  { unfold getHistory, page_requests.
    destruct (max 1 (ceil_div (length conversation) P)) as [|d] eqn:Hd;
      [lia|].
    apply (getHistory_loop_serving k conversation ch P HP Hts Hnd d 0);
      [lia|by left| |nia].
    intros j' Hj'.
    assert ((j' + 1) * P ≤ (ceil_div (length conversation) P - 1) * P)
      by (apply Nat.mul_le_mono_r; lia).
    lia. }
  assert (requests_since w (getHistory fuel (serving k conversation) ch P w).2
          = page_requests ch P conversation
              (max 1 (ceil_div (length conversation) P))) as Hreqs.
  { rewrite Hrun. cbn [snd].
    erewrite requests_since_app; [|reflexivity].
    apply history_requests_called. }
  repeat split.
  - by rewrite Hrun.
  - done.
  - rewrite Hreqs. unfold page_requests. by rewrite length_fmap, length_seq.
  - rewrite Hreqs. unfold page_requests.
    by destruct (max 1 (ceil_div (length conversation) P)) eqn:Hd; [lia|].
  - pose proof (getHistory_loop_returns (serving k conversation) ch P fuel
                  [] None w conversation) as Hret.
    apply Hret. exact (f_equal fst Hrun).
Qed.

(** The conversation [3, 2, 1] with pages of two: two requests, the second
    with [latest = "2"]. *)
Lemma getHistory_serving_example :
  (0 < 2
   ∧ Forall (λ m : Message, is_Some (m !! "ts")) [msg "3"; msg "2"; msg "1"]
   ∧ NoDup (omap (λ m : Message, m !! "ts") [msg "3"; msg "2"; msg "1"])
   ∧ requests_needed 3 2 ≤ 2)
  ∧ (getHistory 2 (serving Channels [msg "3"; msg "2"; msg "1"]) "C1" 2
       (fresh tt)).1 = Ok [msg "3"; msg "2"; msg "1"]
  ∧ requests_since (fresh tt)
      (getHistory 2 (serving Channels [msg "3"; msg "2"; msg "1"]) "C1" 2
         (fresh tt)).2
    = [history_args "C1" None 2; history_args "C1" (Some "2") 2].
Proof.
  assert (0 < 2) as H1 by lia.
  assert (Forall (λ m : Message, is_Some (m !! "ts"))
            [msg "3"; msg "2"; msg "1"]) as H2
    by (repeat constructor; by eexists).
  assert (NoDup (omap (λ m : Message, m !! "ts")
                   [msg "3"; msg "2"; msg "1"])) as H3
    by (apply (bool_decide_unpack _); vm_compute; exact I).
  assert (requests_needed 3 2 ≤ 2) as H4 by (vm_compute; lia).
  destruct (getHistory_serving Channels [msg "3"; msg "2"; msg "1"] "C1" 2 2
              (fresh tt) H1 H2 H3 H4) as (Hok & Hreqs & _).
  split; [done|]. split; [exact Hok|]. rewrite Hreqs. reflexivity.
Defined.

(** C1 as stated fails for a conversation without messages: the run sends
    one request although [ceil (0 / 2) = 0]. *)
Lemma getHistory_no_messages_one_request :
  (getHistory 1 (serving Channels []) "C1" 2 (fresh tt)).1 = Ok []
  ∧ length (requests_since (fresh tt)
              (getHistory 1 (serving Channels []) "C1" 2 (fresh tt)).2)
    ≠ ceil_div (length (@nil Message)) 2.
Proof. split; [reflexivity|]. vm_compute. lia. Qed.

(** * Paths and the file system *)

Section Paths.
Implicit Types (s name parent : string) (names cur : list string).

Lemma append_cons c s1 s2 : String c s1 +:+ s2 = String c (s1 +:+ s2).
Proof. reflexivity. Qed.

Lemma append_nil s : "" +:+ s = s.
Proof. reflexivity. Qed.

Lemma length_append a s :
  String.length (a +:+ s) = String.length a + String.length s.
Proof.
  induction a as [|c a IH]; [done|].
  rewrite append_cons. cbn. by rewrite IH.
Qed.

Lemma append_inv_tail a b s : a +:+ s = b +:+ s → a = b.
Proof.
  revert b. induction a as [|c a IH]; intros [|c' b] Heq.
  - done.
  - apply (f_equal String.length) in Heq.
    rewrite !length_append in Heq. cbn in Heq. lia.
  - apply (f_equal String.length) in Heq.
    rewrite !length_append in Heq. cbn in Heq. lia.
  - rewrite !append_cons in Heq.
    injection Heq as -> Heq. f_equal. by apply IH.
Qed.

(** The path determines the name. *)
Lemma json_path_name parent name1 name2 :
  json_path parent name1 = json_path parent name2 → name1 = name2.
Proof.
  unfold json_path. intros Heq.
  apply (inj (String.app parent)) in Heq.
  apply (inj (String.app "/")) in Heq.
  by apply append_inv_tail in Heq.
Qed.

Lemma slash_free_app s1 s2 :
  slash_free (s1 +:+ s2) = slash_free s1 && slash_free s2.
Proof.
  induction s1 as [|c s1 IH]; [done|].
  rewrite append_cons. cbn. rewrite IH. by destruct (Ascii.eqb c "/").
Qed.

Lemma split_path_slash_free s : slash_free s = true → split_path s = [s].
Proof.
  induction s as [|c s IH]; [done|]. cbn.
  destruct (Ascii.eqb c "/"); [done|]. cbn. intros Hs. by rewrite IH.
Qed.

Lemma split_path_app s1 s2 :
  slash_free s1 = true →
  split_path (s1 +:+ "/" +:+ s2) = s1 :: split_path s2.
Proof.
  induction s1 as [|c s1 IH]; [done|]. rewrite append_cons. cbn.
  destruct (Ascii.eqb c "/"); [done|]. cbn. intros Hs. by rewrite IH.
Qed.

(** A name with an extension is never empty, [.] or [..]. *)
Lemma json_name_plain name :
  slash_free name = true → plain (name +:+ ".json") = true.
Proof.
  intros Hname. unfold plain. rewrite slash_free_app, Hname. cbn.
  assert (5 ≤ String.length (name +:+ ".json")) as Hlen
    by (rewrite length_append; cbn; lia).
  destruct (name +:+ ".json") as [|c1 [|c2 [|c3 s]]]; cbn in Hlen; try lia.
  unfold stays. cbn.
  by destruct (Ascii.eqb c1 "."), (Ascii.eqb c2 ".").
Qed.

Lemma split_json_path parent name :
  slash_free parent = true → slash_free name = true →
  split_path (json_path parent name) = [parent; name +:+ ".json"].
Proof.
  intros Hparent Hname. unfold json_path.
  rewrite (split_path_app _ _ Hparent), split_path_slash_free; [done|].
  by rewrite slash_free_app, Hname.
Qed.

Lemma plain_stays name : plain name = true → stays name = false.
Proof. unfold plain. destruct (stays name); [|done]. by rewrite andb_false_r. Qed.

Lemma plain_up name : plain name = true → String.eqb name ".." = false.
Proof.
  unfold plain. destruct (String.eqb name ".."); [|done].
  by rewrite andb_false_r.
Qed.

Lemma plain_slash_free name : plain name = true → slash_free name = true.
Proof. unfold plain. by destruct (slash_free name). Qed.

Lemma plain_nonempty name : plain name = true → String.eqb name "" = false.
Proof.
  intros Hname. apply plain_stays in Hname. unfold stays in Hname.
  by destruct (String.eqb name "").
Qed.

(** A path that leads somewhere leads to its normalised path. *)
Lemma target_from_names {S} (w : World S) names : ∀ cur,
  match target_from w cur names with
  | Nowhere => True
  | Directory ns | Entry ns => ns = names_from cur names
  end.
Proof.
  induction names as [|name rest IH]; intros cur; [done|]. cbn.
  destruct (stays name); [apply IH|].
  destruct (String.eqb name ".."); [apply IH|].
  destruct (is_dir w (cur ++ [name])); [apply IH|].
  by destruct rest.
Qed.

Lemma target_key {S} (w : World S) path names :
  target w path = Entry names → join_path names = key_of path.
Proof.
  unfold target, key_of. destruct (String.eqb path ""); [done|].
  intros Htarget.
  pose proof (target_from_names w (split_path path) []) as Hnames.
  rewrite Htarget in Hnames. by rewrite Hnames.
Qed.

Lemma key_of_plain name : plain name = true → key_of name = name.
Proof.
  intros Hname. unfold key_of.
  rewrite (split_path_slash_free _ (plain_slash_free _ Hname)). cbn.
  by rewrite (plain_stays _ Hname), (plain_up _ Hname).
Qed.

Lemma key_of_json_path parent name :
  plain parent = true → slash_free name = true →
  key_of (json_path parent name) = json_path parent name.
Proof.
  intros Hparent Hname. unfold key_of.
  rewrite (split_json_path _ _ (plain_slash_free _ Hparent) Hname). cbn.
  rewrite (plain_stays _ Hparent), (plain_up _ Hparent).
  pose proof (json_name_plain _ Hname) as Hfile.
  by rewrite (plain_stays _ Hfile), (plain_up _ Hfile).
Qed.

Lemma target_plain {S} (w : World S) name :
  plain name = true →
  target w name
  = if bool_decide (name ∈ dirs w) then Directory [name] else Entry [name].
Proof.
  intros Hname. unfold target.
  rewrite (plain_nonempty _ Hname).
  rewrite (split_path_slash_free _ (plain_slash_free _ Hname)). cbn.
  by rewrite (plain_stays _ Hname), (plain_up _ Hname).
Qed.

Lemma target_json_path {S} (w : World S) parent name :
  plain parent = true → slash_free name = true →
  target w (json_path parent name)
  = if bool_decide (parent ∈ dirs w) then
      if bool_decide (json_path parent name ∈ dirs w)
      then Directory [parent; name +:+ ".json"]
      else Entry [parent; name +:+ ".json"]
    else Nowhere.
Proof.
  intros Hparent Hname. unfold target.
  assert (String.eqb (json_path parent name) "" = false) as ->.
  { apply String.eqb_neq. intros Heq.
    apply (f_equal String.length) in Heq. unfold json_path in Heq.
    rewrite !length_append in Heq. cbn in Heq. lia. }
  rewrite (split_json_path _ _ (plain_slash_free _ Hparent) Hname). cbn.
  rewrite (plain_stays _ Hparent), (plain_up _ Hparent).
  destruct (bool_decide (parent ∈ dirs w)); [|done]. cbn.
  pose proof (json_name_plain _ Hname) as Hfile.
  by rewrite (plain_stays _ Hfile), (plain_up _ Hfile).
Qed.

(** Below a name that is not a directory nothing can be opened. *)
Lemma target_below {S} (w : World S) parent rest :
  plain parent = true → parent ∉ dirs w →
  target w (parent +:+ "/" +:+ rest) = Nowhere.
Proof.
  intros Hparent Hdir. unfold target.
  assert (String.eqb (parent +:+ "/" +:+ rest) "" = false) as ->.
  { apply String.eqb_neq. intros Heq.
    apply (f_equal String.length) in Heq.
    rewrite !length_append in Heq. cbn in Heq. lia. }
  rewrite (split_path_app _ _ (plain_slash_free _ Hparent)). cbn.
  rewrite (plain_stays _ Hparent), (plain_up _ Hparent).
  rewrite (bool_decide_eq_false_2 _ Hdir).
  destruct (split_path rest) eqn:Hsplit; [|done].
  by destruct rest as [|c rest]; cbn in Hsplit;
    [|destruct (Ascii.eqb c "/"); [|destruct (split_path rest)]].
Qed.
End Paths.

Section FileSystem.
Context {S : Type} `{!Disk S}.
Implicit Types (w : World S).

Lemma path_exists_plain name w :
  plain name = true →
  path_exists name w
  = bool_decide (name ∈ dirs w) || bool_decide (is_Some (files w !! name)).
Proof.
  intros Hname. unfold path_exists. rewrite (target_plain _ _ Hname).
  by destruct (bool_decide (name ∈ dirs w)).
Qed.

(** [mkdir] of a name in the working directory. *)
Lemma mkdir_plain name w :
  plain name = true →
  mkdir name w
  = if path_exists name w then (Ok tt, w)
    else if refuses (MakeDir name) w then (Raise (OSError name), w)
    else (Ok tt, mkWorld (remote w) ({[name]} ∪ dirs w) (files w)
                   (events w ++ [MadeDirs name])).
Proof.
  intros Hname. unfold mkdir.
  destruct (path_exists name w) eqn:Hexists; [done|].
  rewrite (path_exists_plain _ _ Hname) in Hexists.
  apply orb_false_iff in Hexists as [Hdir Hfile].
  unfold makedirs.
  rewrite (split_path_slash_free _ (plain_slash_free _ Hname)). cbn.
  rewrite (plain_nonempty _ Hname). cbn.
  rewrite (plain_stays _ Hname), (plain_up _ Hname).
  unfold is_file. cbn. by rewrite Hdir, Hfile.
Qed.
End FileSystem.

(** * The exporters and the command line *)

Section Confined.
Context {S : Type} `{!Disk S} (Q : Event → Prop).

Lemma extends_refl (w : World S) : extends Q w w.
Proof.
  exists []. rewrite app_nil_r. split; [done|]. split; [constructor|].
  split; [|done].
  intros d. split; [by left|]. intros [Hd|Hd]; [done|].
  by apply elem_of_nil in Hd.
Qed.

Lemma extends_trans (w1 w2 w3 : World S) :
  extends Q w1 w2 → extends Q w2 w3 → extends Q w1 w3.
Proof.
  intros (evs1 & He1 & HQ1 & Hd1 & Hf1) (evs2 & He2 & HQ2 & Hd2 & Hf2).
  exists (evs1 ++ evs2). split; [|split; [|split]].
  - by rewrite He2, He1, app_assoc.
  - by apply Forall_app.
  - intros d. rewrite Hd2, Hd1, elem_of_app. tauto.
  - intros k Ho Hw. rewrite Hf2, Hf1; [done|..].
    + intros f ?. apply Ho, elem_of_app. by left.
    + intros f doc ?. apply (Hw f doc), elem_of_app. by left.
    + intros f ?. apply Ho, elem_of_app. by right.
    + intros f doc ?. apply (Hw f doc), elem_of_app. by right.
Qed.

Lemma extends_one e (w w' : World S) :
  Q e →
  events w' = events w ++ [e] →
  (∀ d, d ∈ dirs w' ↔ d ∈ dirs w ∨ MadeDirs d = e) →
  (∀ k, (∀ f, Opened f = e → key_of f ≠ k) →
        (∀ f doc, Wrote f doc = e → key_of f ≠ k) →
        files w' !! k = files w !! k) →
  extends Q w w'.
Proof.
  intros HQ He Hd Hf. exists [e]. split; [done|].
  split; [by repeat constructor|]. split.
  - intros d. rewrite Hd, list_elem_of_singleton. done.
  - intros k Ho Hw. apply Hf.
    + intros f Heq. apply Ho. by apply list_elem_of_singleton.
    + intros f doc Heq. apply (Hw f doc). by apply list_elem_of_singleton.
Qed.

Lemma confined_ret {A} (a : A) : confined (S := S) Q (mret a).
Proof. intros w. apply extends_refl. Qed.

Lemma confined_raise {A} e : confined Q (raise (S := S) (A := A) e).
Proof. intros w. apply extends_refl. Qed.

Lemma confined_out_of_fuel {A} : confined Q (out_of_fuel (S := S) (A := A)).
Proof. intros w. apply extends_refl. Qed.

Lemma confined_bind {A B} (m : M S A) (f : A → M S B) :
  confined Q m → (∀ a, confined Q (f a)) → confined Q (m ≫= f).
Proof.
  intros Hm Hf w. unfold mbind, M_bind. specialize (Hm w).
  destruct (m w) as [[a|e|] w1]; cbn in *; [|done..].
  eapply extends_trans; [done|]. apply Hf.
Qed.

Lemma confined_print line : Q (Printed line) → confined (S := S) Q (print line).
Proof.
  intros HQ w. apply (extends_one (Printed line)); cbn; auto.
  intros d. split; [by left|]. by intros [?|?].
Qed.

Lemma confined_call {A} c (endpoint : Reply S A) :
  Q (Called c) → confined Q (call c endpoint).
Proof.
  intros HQ w. unfold call. cbn.
  destruct (endpoint (remote w)) as [[e|body] s'];
    (apply (extends_one (Called c)); cbn; auto;
     intros d; split; [by left|]; by intros [?|?]).
Qed.

Lemma confined_mkdir d :
  plain d = true → Q (MadeDirs d) → confined Q (mkdir d).
Proof.
  intros Hd HQ w. rewrite (mkdir_plain _ _ Hd).
  destruct (path_exists d w); cbn; [apply extends_refl|].
  destruct (refuses (MakeDir d) w); cbn; [apply extends_refl|].
  apply (extends_one (MadeDirs d)); cbn; auto.
  intros d'. rewrite elem_of_union, elem_of_singleton.
  split; [intros [->|?]; auto|intros [?|[= ->]]; auto].
Qed.

Lemma confined_open_w f : Q (Opened f) → confined Q (open_w f).
Proof.
  intros HQ w. unfold open_w.
  destruct (target w f) as [|names|names] eqn:Htarget; cbn;
    [apply extends_refl..|].
  destruct (refuses (OpenW f) w); cbn; [apply extends_refl|].
  apply (extends_one (Opened f)); cbn; auto.
  - intros d. split; [by left|]. by intros [?|?].
  - intros k Hne _. apply lookup_insert_ne.
    rewrite (target_key _ _ _ Htarget). by apply Hne.
Qed.

Lemma confined_write f doc : Q (Wrote f doc) → confined Q (write f doc).
Proof.
  intros HQ w. unfold write.
  destruct (refuses (WriteTo f doc) w); cbn; [apply extends_refl|].
  apply (extends_one (Wrote f doc)); cbn; auto.
  - intros d. split; [by left|]. by intros [?|?].
  - intros k _ Hne. apply lookup_insert_ne. by apply (Hne f doc).
Qed.

Lemma confined_for_each_in {A} (xs : list A) (body : A → M S unit) :
  (∀ x, x ∈ xs → confined Q (body x)) → confined Q (for_each xs body).
Proof.
  induction xs as [|x xs IH]; intros Hbody; cbn.
  - apply confined_ret.
  - apply confined_bind; [apply Hbody, list_elem_of_here|].
    intros _. apply IH. intros y Hy. by apply Hbody, list_elem_of_further.
Qed.

Lemma confined_for_each {A} (xs : list A) (body : A → M S unit) :
  (∀ x, confined Q (body x)) → confined Q (for_each xs body).
Proof. intros Hbody. apply confined_for_each_in. auto. Qed.

Lemma confined_getHistory_loop (p : Pageable S) ch P fuel :
  (∀ args, Q (Called (HistoryOf (kind p) args))) →
  ∀ msgs cur, confined Q (getHistory_loop fuel p ch P msgs cur).
Proof.
  intros HQ. induction fuel as [|fuel IH]; intros msgs cur; cbn.
  - apply confined_out_of_fuel.
  - apply confined_bind; [by apply confined_call|].
    intros body. destruct (has_more body); [|apply confined_ret].
    apply confined_bind.
    { unfold last_item. destruct (last _);
        [apply confined_ret|apply confined_raise]. }
    intros m. apply confined_bind; [|intros; apply IH].
    unfold getitem. destruct (m !! "ts");
      [apply confined_ret|apply confined_raise].
Qed.

Lemma confined_getHistory (p : Pageable S) ch P fuel :
  (∀ args, Q (Called (HistoryOf (kind p) args))) →
  confined Q (getHistory fuel p ch P).
Proof. intros HQ. by apply confined_getHistory_loop. Qed.

Lemma confined_parse_args argv : confined (S := S) Q (parse_args argv).
Proof.
  unfold parse_args. destruct (parse argv);
    [apply confined_raise|apply confined_ret].
Qed.

Lemma confined_doTestAuth (slack : Slacker S) :
  Q (Called AuthTest) → (∀ line, Q (Printed line)) →
  confined Q (doTestAuth slack).
Proof.
  intros HQ HP. unfold doTestAuth.
  apply confined_bind; [by apply confined_call|]. intros a.
  apply confined_bind; [by apply confined_print|]. intros _.
  apply confined_ret.
Qed.

Lemma confined_getUserMap (slack : Slacker S) :
  Q (Called UsersList) → (∀ line, Q (Printed line)) →
  confined Q (getUserMap slack).
Proof.
  intros HQ HP. unfold getUserMap.
  apply confined_bind; [by apply confined_call|]. intros a.
  apply confined_bind; [by apply confined_print|]. intros _.
  apply confined_ret.
Qed.
End Confined.

Ltac confine :=
  repeat first
    [ apply confined_ret
    | apply confined_raise
    | apply confined_print
    | apply confined_call
    | apply confined_mkdir; [reflexivity|]
    | apply confined_open_w
    | apply confined_write
    | apply confined_getHistory
    | apply confined_doTestAuth
    | apply confined_getUserMap
    | apply confined_for_each; intros ?
    | apply confined_bind; [|intros ?] ].

(** ** Flags on the command line *)

Section Flags.
Implicit Types (ns : Namespace) (argv : list string).

Lemma lookup_option_parser arg a explicit :
  lookup_option arg = Found a explicit → a ∈ parser.
Proof.
  unfold lookup_option.
  destruct (find (named arg) parser) as [a0|] eqn:Hwhole.
  { intros [= <- _]. apply list_elem_of_In. by apply find_some in Hwhole as [? _]. }
  destruct (split_explicit arg) as [name [v|]].
  - destruct (find (named name) parser) as [a0|] eqn:Hname.
    { intros [= <- _]. apply list_elem_of_In.
      by apply find_some in Hname as [? _]. }
    destruct (String.prefix "--" arg).
    + destruct (filter _ parser) as [|a1 [|a2 l]] eqn:Hfilter; [done| |done].
      intros [= <- _].
      assert (a1 ∈ filter (λ a, abbreviates name a = true) parser) as Hin
        by (rewrite Hfilter; apply list_elem_of_here).
      by apply list_elem_of_filter in Hin as [_ ?].
    + destruct (String.prefix "-h" arg); [|done].
      destruct (find (named "-h") parser) as [a0|] eqn:Hh; [|done].
      intros [= <- _]. apply list_elem_of_In.
      by apply find_some in Hh as [? _].
  - destruct (String.prefix "--" arg).
    + destruct (filter _ parser) as [|a1 [|a2 l]] eqn:Hfilter; [done| |done].
      intros [= <- _].
      assert (a1 ∈ filter (λ a, abbreviates name a = true) parser) as Hin
        by (rewrite Hfilter; apply list_elem_of_here).
      by apply list_elem_of_filter in Hin as [_ ?].
    + destruct (String.prefix "-h" arg); [|done].
      destruct (find (named "-h") parser) as [a0|] eqn:Hh; [|done].
      intros [= <- _]. apply list_elem_of_In.
      by apply find_some in Hh as [? _].
Qed.

Lemma store_is_token a : a ∈ parser → action a = store → dest a = "token".
Proof.
  unfold parser. intros Ha.
  repeat (apply elem_of_cons in Ha as [->|Ha]); try done.
  by apply elem_of_nil in Ha.
Qed.

Lemma flag_lookup name :
  name ∈ boolean_flags →
  String.eqb name "--" = false
  ∧ positional_like name = false
  ∧ lookup_option name = Found (add_argument name store_true) None
  ∧ dest (add_argument name store_true) ≠ "token".
Proof.
  unfold boolean_flags. intros Hname.
  repeat (apply elem_of_cons in Hname as [->|Hname]);
    [..|by apply elem_of_nil in Hname]; by vm_compute.
Qed.

Lemma flag_insert_true ns d d' :
  flag ns d = true ∨ d' = d → flag (<[d' := VBool true]> ns) d = true.
Proof.
  unfold flag. intros Hd. destruct (decide (d' = d)) as [->|Hne].
  - by rewrite lookup_insert_eq.
  - rewrite lookup_insert_ne by done. by destruct Hd.
Qed.

Lemma flag_insert_token ns d v :
  d ≠ "token" → flag (<["token" := VStr v]> ns) d = flag ns d.
Proof. intros Hd. unfold flag. by rewrite lookup_insert_ne. Qed.

Lemma consume_keeps_flag name n : ∀ argv ns seen extras r,
  name ∈ boolean_flags →
  length argv ≤ n →
  consume argv ns seen extras = inr r →
  flag ns (dest (add_argument name store_true)) = true ∨ name ∈ argv →
  flag r.1.1 (dest (add_argument name store_true)) = true.
Proof.
  intros argv ns seen extras r Hname. revert argv ns seen extras r.
  destruct (flag_lookup name Hname) as (Hdd & Hpos & Hfound & Htoken).
  set (d := dest (add_argument name store_true)) in *.
  induction n as [|n IH]; intros argv ns seen extras r Hlen Hrun Hflag.
  { destruct argv; [|cbn in Hlen; lia]. cbn in Hrun.
    injection Hrun as <-. destruct Hflag as [?|Hin]; [done|].
    by apply elem_of_nil in Hin. }
  destruct argv as [|arg rest].
  { cbn in Hrun. injection Hrun as <-. destruct Hflag as [?|Hin]; [done|].
    by apply elem_of_nil in Hin. }
  cbn [length] in Hlen. cbn [consume] in Hrun.
  assert (arg = name ∨ (flag ns d = true ∨ name ∈ rest)) as Hcase.
  { destruct Hflag as [?|Hin]; [by right; left|].
    apply elem_of_cons in Hin as [->|?]; [by left|by right; right]. }
  clear Hflag.
  destruct (String.eqb arg "--") eqn:Hdash; [done|].
  destruct (positional_like arg) eqn:Hposarg.
  { destruct Hcase as [->|Hcase]; [congruence|].
    apply (IH rest ns seen true r); [lia|done|done]. }
  destruct (lookup_option arg) as [| |a explicit] eqn:Hlook; [|done|].
  { destruct Hcase as [->|Hcase]; [congruence|].
    apply (IH rest ns seen true r); [lia|done|done]. }
  pose proof (lookup_option_parser _ _ _ Hlook) as Ha.
  destruct (action a) eqn:Hact.
  - (* store *)
    pose proof (store_is_token a Ha Hact) as Hdest.
    assert (arg ≠ name) as Hne.
    { intros ->. rewrite Hfound in Hlook. injection Hlook as <- _.
      discriminate. }
    destruct Hcase as [?|Hcase]; [done|].
    destruct explicit as [v|].
    + eapply (IH rest); [lia|exact Hrun|].
      rewrite Hdest, flag_insert_token by done. done.
    + destruct rest as [|v rest']; [done|].
      destruct (negb (String.eqb v "--") && positional_like v) eqn:Hv;
        [|done].
      apply andb_true_iff in Hv as [_ Hv].
      eapply (IH rest'); [cbn in Hlen; lia|exact Hrun|].
      rewrite Hdest, flag_insert_token by done.
      destruct Hcase as [?|Hin]; [by left|right].
      apply elem_of_cons in Hin as [->|?]; [congruence|done].
  - (* store_true *)
    destruct explicit; [done|].
    eapply (IH rest); [lia|exact Hrun|].
    destruct Hcase as [->|[?|?]].
    + left. apply flag_insert_true. right.
      rewrite Hfound in Hlook. by injection Hlook as <-.
    + left. apply flag_insert_true. by left.
    + by right.
  - (* help *)
    by destruct explicit.
Qed.

(** A boolean flag that stands on a command line that parses is set in
    the namespace. *)
Lemma flag_given name argv args :
  name ∈ boolean_flags → name ∈ argv → parse argv = inr args →
  flag args (dest (add_argument name store_true)) = true.
Proof.
  intros Hname Hin. unfold parse.
  destruct (existsb ambiguous argv); [done|].
  destruct (consume argv defaults [] false) as [e|[[ns seen] extras]] eqn:Hrun;
    [done|].
  destruct (missing_required seen); [done|].
  destruct extras; [done|]. intros [= <-].
  apply (consume_keeps_flag name (length argv) argv defaults [] false
           (ns, seen, false) Hname); [lia|done|by right].
Qed.
Lemma given_parsed name argv args :
  name ∈ boolean_flags → given name argv → parse argv = inr args →
  flag args (dest (add_argument name store_true)) = true.
Proof.
  intros Hname [Hin|Hset] Hparse; [by apply (flag_given name argv)|].
  unfold parsed in Hset. by rewrite Hparse in Hset.
Qed.
End Flags.

Section Exporters.
Context {S : Type} `{!Disk S}.
Implicit Types (slack : Slacker S) (w : World S).

Lemma main_parsed fuel (service : option string → Slacker S) argv args w :
  parse argv = inr args →
  main fuel service argv w = program fuel service args w.
Proof.
  intros Hparse. unfold main, parse_args. by rewrite Hparse.
Qed.

Lemma main_rejected fuel (service : option string → Slacker S) argv e w :
  parse argv = inl e →
  main fuel service argv w = (Raise e, w).
Proof.
  intros Hparse. unfold main, parse_args. by rewrite Hparse.
Qed.

Lemma getChannels_dry fuel slack :
  confined dry_run_event (getChannels fuel slack true).
Proof. unfold getChannels. cbn [negb]. confine; exact I. Qed.

Lemma getPrivateChannels_dry fuel slack :
  confined dry_run_event (getPrivateChannels fuel slack true).
Proof. unfold getPrivateChannels. cbn [negb]. confine; exact I. Qed.

Lemma getDirectMessages_dry fuel slack ownerId userIdNameMap :
  confined dry_run_event
    (getDirectMessages fuel slack ownerId userIdNameMap true).
Proof. unfold getDirectMessages. cbn [negb]. confine; exact I. Qed.

Lemma program_dry fuel (service : option string → Slacker S) args :
  flag args "dryRun" = true →
  confined dry_run_event (program fuel service args).
Proof.
  intros Hdry. unfold program. rewrite Hdry. cbn [negb].
  apply confined_bind; [confine; intros; exact I|]. intros testAuth.
  apply confined_bind; [confine; intros; exact I|]. intros userIdNameMap.
  apply confined_bind; [confine|]. intros _.
  apply confined_bind.
  { destruct (negb _); [apply getChannels_dry|confine]. }
  intros _. apply confined_bind.
  { destruct (negb _); [apply getPrivateChannels_dry|confine]. }
  intros _. destruct (negb _); [apply getDirectMessages_dry|confine].
Qed.

Lemma prefix_app s1 s2 : String.prefix s1 (s1 +:+ s2) = true.
Proof.
  induction s1 as [|c s1 IH]; [by destruct s2|].
  change (String c s1 +:+ s2) with (String c (s1 +:+ s2)).
  cbn [String.prefix]. by destruct (ascii_dec c c).
Qed.

Lemma json_path_direct_messages name :
  String.prefix "direct_messages/" (json_path "direct_messages" name) = true.
Proof. apply (prefix_app "direct_messages/" (name +:+ ".json")). Qed.

Lemma getDirectMessages_confined fuel slack ownerId userIdNameMap dryRun :
  confined direct_messages_event
    (getDirectMessages fuel slack ownerId userIdNameMap dryRun).
Proof.
  unfold getDirectMessages.
  apply confined_bind; [confine; exact I|]. intros dms.
  apply confined_bind; [confine; exact I|]. intros _.
  apply confined_bind; [confine; exact I|]. intros _.
  destruct (negb dryRun); [|confine].
  confine; cbn; auto using json_path_direct_messages.
Qed.

Lemma program_skipping fuel (service : option string → Slacker S) args :
  flag args "skipChannels" = true →
  flag args "skipPrivateChannels" = true →
  confined direct_messages_event (program fuel service args).
Proof.
  intros Hc Hp. unfold program. rewrite Hc, Hp. cbn [negb].
  apply confined_bind; [confine; intros; exact I|]. intros testAuth.
  apply confined_bind; [confine; intros; exact I|]. intros userIdNameMap.
  apply confined_bind.
  { destruct (negb _); confine; cbn; auto. }
  intros _. apply confined_bind; [confine|]. intros _.
  apply confined_bind; [confine|]. intros _.
  destruct (negb _); [apply getDirectMessages_confined|confine].
Qed.
End Exporters.

(** What a run that stays within [dry_run_event] has not done. *)
Lemma dry_run_summary {S} (w w' : World S) :
  extends dry_run_event w w' →
  ∃ evs,
    events w' = events w ++ evs
    ∧ Forall dry_run_event evs
    ∧ (∀ k a, Called (HistoryOf k a) ∉ evs)
    ∧ (∀ k c, Called (InfoOf k c) ∉ evs)
    ∧ (∀ d, MadeDirs d ∉ evs)
    ∧ (∀ f, Opened f ∉ evs)
    ∧ (∀ f doc, Wrote f doc ∉ evs)
    ∧ dirs w' = dirs w
    ∧ files w' = files w.
Proof.
  intros (evs & Hev & HQ & Hd & Hf).
  assert (∀ e, e ∈ evs → dry_run_event e) as Hin
    by (by apply Forall_forall).
  exists evs. split; [done|]. split; [done|].
  assert (∀ d, MadeDirs d ∉ evs) as Hmk by (intros d Hd'; apply (Hin _ Hd')).
  assert (∀ f, Opened f ∉ evs) as Hop by (intros f Hf'; apply (Hin _ Hf')).
  assert (∀ f doc, Wrote f doc ∉ evs) as Hwr
    by (intros f doc Hf'; apply (Hin _ Hf')).
  repeat split; try done.
  - intros k a Hc. apply (Hin _ Hc).
  - intros k c Hc. apply (Hin _ Hc).
  - apply set_eq. intros d. rewrite Hd. split; [|by left].
    intros [?|Hd']; [done|]. by apply Hmk in Hd'.
  - apply map_eq. intros k. apply Hf.
    + intros f Hf'. by apply Hop in Hf'.
    + intros f doc Hf'. by apply Hwr in Hf'.
Qed.

(** C4, amended.  A run whose command line gives [--dryRun] does nothing
    but print and call the identity check, the user list and the
    conversation lists: it sends no [info] and no [history] request,
    creates no directory, opens and writes no file, and leaves directories
    and files as they were. *)
Theorem dry_run_frame {S} `{!Disk S} (fuel : nat)
    (service : option string → Slacker S)
    (argv : list string) (w : World S) :
  given "--dryRun" argv →
  ∃ evs,
    events (main fuel service argv w).2 = events w ++ evs
    ∧ Forall dry_run_event evs
    ∧ (∀ k a, Called (HistoryOf k a) ∉ evs)
    ∧ (∀ k c, Called (InfoOf k c) ∉ evs)
    ∧ (∀ d, MadeDirs d ∉ evs)
    ∧ (∀ f, Opened f ∉ evs)
    ∧ (∀ f doc, Wrote f doc ∉ evs)
    ∧ dirs (main fuel service argv w).2 = dirs w
    ∧ files (main fuel service argv w).2 = files w.
Proof.
  intros Hgiven. apply dry_run_summary.
  destruct (parse argv) as [e|args] eqn:Hparse.
  - rewrite (main_rejected _ _ _ _ _ Hparse). apply extends_refl.
  - rewrite (main_parsed _ _ _ _ _ Hparse). apply program_dry.
    apply (given_parsed "--dryRun" argv args); [|done..].
    unfold boolean_flags. rewrite !elem_of_cons. auto.
Qed.

(** A dry run over the demo workspace. *)
Lemma dry_run_frame_witness :
  given "--dryRun" ["--token=xoxp"; "--dryRun"]
  ∧ ∃ evs,
    events (main 0 demo_service ["--token=xoxp"; "--dryRun"] (fresh tt)).2
    = events (fresh tt) ++ evs
    ∧ Forall dry_run_event evs
    ∧ (∀ k a, Called (HistoryOf k a) ∉ evs)
    ∧ (∀ k c, Called (InfoOf k c) ∉ evs)
    ∧ (∀ d, MadeDirs d ∉ evs)
    ∧ (∀ f, Opened f ∉ evs)
    ∧ (∀ f doc, Wrote f doc ∉ evs)
    ∧ dirs (main 0 demo_service ["--token=xoxp"; "--dryRun"] (fresh tt)).2
      = dirs (fresh tt)
    ∧ files (main 0 demo_service ["--token=xoxp"; "--dryRun"] (fresh tt)).2
      = files (fresh tt).
Proof.
  assert (given "--dryRun" ["--token=xoxp"; "--dryRun"]) as H1
    by (left; rewrite !elem_of_cons; auto).
  split; [exact H1|].
  exact (dry_run_frame 0 demo_service ["--token=xoxp"; "--dryRun"]
           (fresh tt) H1).
Defined.

(** C4 as stated fails: a dry run over a workspace with a channel and a
    private channel completes without a single [info] call. *)
Lemma dry_run_issues_no_info_call :
  (main 0 demo_service ["--token=xoxp"; "--dryRun"] (fresh tt)).1 = Ok tt
  ∧ calls (events
      (main 0 demo_service ["--token=xoxp"; "--dryRun"] (fresh tt)).2)
    = [AuthTest; UsersList; ListOf Channels; ListOf Groups; ListOf Im]
  ∧ ¬ ∃ k c, InfoOf k c ∈ calls (events
      (main 0 demo_service ["--token=xoxp"; "--dryRun"] (fresh tt)).2).
Proof.
  assert (calls (events
      (main 0 demo_service ["--token=xoxp"; "--dryRun"] (fresh tt)).2)
    = [AuthTest; UsersList; ListOf Channels; ListOf Groups; ListOf Im])
    as Hcalls by (vm_compute; reflexivity).
  split; [vm_compute; reflexivity|]. split; [done|].
  intros (k & c & Hin). rewrite Hcalls in Hin.
  repeat (apply elem_of_cons in Hin as [Heq|Hin]; [discriminate|]).
  by apply elem_of_nil in Hin.
Qed.

Lemma bind_ext {S A B} (m : M S A) (f g : A → M S B) (w : World S) :
  (∀ a w', f a w' = g a w') → (m ≫= f) w = (m ≫= g) w.
Proof.
  intros Hfg. unfold mbind, M_bind. by destruct (m w) as [[a|e|] w'].
Qed.

(** C7. When the command line gives [--skipChannels] and
    [--skipPrivateChannels], the script is the script without these two
    exporters: it lists, fetches and asks [info] of no channel and no
    private channel, and it does not create the directories [channels]
    and [private_channels]. *)
Theorem skipping_channels_frame {S} `{!Disk S} (fuel : nat)
    (service : option string → Slacker S) (argv : list string)
    (w : World S) :
  given "--skipChannels" argv →
  given "--skipPrivateChannels" argv →
  main fuel service argv w = main_without_channels fuel service argv w
  ∧ ∃ evs,
    events (main fuel service argv w).2 = events w ++ evs
    ∧ Forall direct_messages_event evs
    ∧ (∀ k, k ≠ Im → Called (ListOf k) ∉ evs)
    ∧ (∀ k c, Called (InfoOf k c) ∉ evs)
    ∧ (∀ k a, k ≠ Im → Called (HistoryOf k a) ∉ evs)
    ∧ (MadeDirs "channels" ∉ evs)
    ∧ (MadeDirs "private_channels" ∉ evs)
    ∧ ("channels" ∈ dirs (main fuel service argv w).2 ↔ "channels" ∈ dirs w)
    ∧ ("private_channels" ∈ dirs (main fuel service argv w).2
       ↔ "private_channels" ∈ dirs w).
Proof.
  intros Hgc Hgp.
  assert (main fuel service argv w = main_without_channels fuel service argv w
          ∧ extends direct_messages_event w (main fuel service argv w).2)
    as [Hmain Hext].
  { unfold main_without_channels, main, parse_args.
    destruct (parse argv) as [e|args] eqn:Hparse.
    { split; [done|]. apply extends_refl. }
    assert (flag args "skipChannels" = true) as Hc.
    { apply (given_parsed "--skipChannels" argv args); [|done..].
      unfold boolean_flags. rewrite !elem_of_cons. auto. }
    assert (flag args "skipPrivateChannels" = true) as Hp.
    { apply (given_parsed "--skipPrivateChannels" argv args); [|done..].
      unfold boolean_flags. rewrite !elem_of_cons. auto. }
    split; [|by apply program_skipping].
    change (program fuel service args w
            = direct_messages_only fuel service args w).
    unfold program, direct_messages_only. rewrite Hc, Hp. cbn [negb].
    apply bind_ext. intros testAuth w1.
    apply bind_ext. intros userIdNameMap w2.
    apply bind_ext. by intros [] w3. }
  split; [done|]. destruct Hext as (evs & Hev & HQ & Hd & Hf).
  assert (∀ e, e ∈ evs → direct_messages_event e) as Hin
    by (by apply Forall_forall).
  assert (MadeDirs "channels" ∉ evs) as Hmc
    by (intros Hd'; by apply Hin in Hd').
  assert (MadeDirs "private_channels" ∉ evs) as Hmp
    by (intros Hd'; by apply Hin in Hd').
  exists evs. split; [done|]. split; [done|].
  split; [|split; [|split; [|split; [|split; [|split]]]]]; try done.
  - intros k Hk Hc'. apply Hin in Hc'. by destruct k.
  - intros k c Hc'. by apply Hin in Hc'.
  - intros k a Hk Hc'. apply Hin in Hc'. by destruct k.
  - rewrite Hd. tauto.
  - rewrite Hd. tauto.
Qed.

(** A run over the demo workspace with both flags. *)
Lemma skipping_channels_frame_witness :
  (given "--skipChannels"
     ["--token=xoxp"; "--skipChannels"; "--skipPrivateChannels"]
   ∧ given "--skipPrivateChannels"
       ["--token=xoxp"; "--skipChannels"; "--skipPrivateChannels"])
  ∧ ("channels" ∈ dirs
       (main 2 demo_service
          ["--token=xoxp"; "--skipChannels"; "--skipPrivateChannels"]
          (fresh tt)).2
     ↔ "channels" ∈ dirs (fresh tt))
  ∧ ("private_channels" ∈ dirs
       (main 2 demo_service
          ["--token=xoxp"; "--skipChannels"; "--skipPrivateChannels"]
          (fresh tt)).2
     ↔ "private_channels" ∈ dirs (fresh tt)).
Proof.
  assert (given "--skipChannels"
            ["--token=xoxp"; "--skipChannels"; "--skipPrivateChannels"])
    as H1 by (left; rewrite !elem_of_cons; auto).
  assert (given "--skipPrivateChannels"
            ["--token=xoxp"; "--skipChannels"; "--skipPrivateChannels"])
    as H2 by (left; rewrite !elem_of_cons; auto).
  split; [done|].
  destruct (skipping_channels_frame 2 demo_service
              ["--token=xoxp"; "--skipChannels"; "--skipPrivateChannels"]
              (fresh tt) H1 H2)
    as (_ & evs & _ & _ & _ & _ & _ & _ & _ & Hch & Hpr).
  by split.
Defined.

(** What the demo run with both flags does, in full. *)
Example skipping_channels_run :
  let run := main 2 demo_service
               ["--token=xoxp"; "--skipChannels"; "--skipPrivateChannels"]
               (fresh tt) in
  run.1 = Ok tt
  ∧ calls (events run.2)
    = [AuthTest; UsersList; ListOf Im;
       HistoryOf Im (history_args "D1" None 100);
       HistoryOf Im (history_args "D2" None 100)]
  ∧ elements (dirs run.2) = ["direct_messages"]
  ∧ (dom (files run.2) : gset string)
    = {["metadata.json"; "direct_messages/bob.json";
        "direct_messages/U9 (name unknown).json"]}.
Proof. vm_compute. repeat split; reflexivity. Qed.

Section Saving.
Context {S : Type} `{!Disk S}.
Implicit Types (w : World S).

(** [with open(fileName, 'w') as outFile: print(line); outFile.write(doc)],
    when it completes. *)
Lemma save_Ok fileName line doc w w' :
  (open_w fileName;; print line;; write fileName doc) w = (Ok tt, w') →
  w' = mkWorld (remote w) (dirs w) (<[key_of fileName := [doc]]> (files w))
         (events w ++ [Opened fileName; Printed line; Wrote fileName doc]).
Proof.
  unfold mbind, M_bind, open_w.
  destruct (target w fileName) as [|names|names] eqn:Htarget; [done..|].
  destruct (refuses (OpenW fileName) w); [done|].
  cbn [print log]. unfold write.
  destruct (refuses (WriteTo fileName doc) _); [done|].
  intros [= <-]. unfold emit. cbn.
  rewrite (target_key _ _ _ Htarget).
  by rewrite lookup_insert_eq, insert_insert_eq, <- !app_assoc.
Qed.

(** The same, whatever the outcome: only the file opened can change, and
    it is left with the document, or without any. *)
Lemma save_any fileName line doc w r w' :
  (open_w fileName;; print line;; write fileName doc) w = (r, w') →
  dirs w' = dirs w
  ∧ (r ≠ Ok tt →
     files w' = files w ∨ files w' = <[key_of fileName := []]> (files w)).
Proof.
  unfold mbind, M_bind, open_w.
  destruct (target w fileName) as [|names|names] eqn:Htarget;
    [intros [= <- <-]; auto..|].
  destruct (refuses (OpenW fileName) w); [intros [= <- <-]; auto|].
  cbn [print log]. unfold write.
  destruct (refuses (WriteTo fileName doc) _); intros [= <- <-]; cbn.
  - split; [done|]. intros _. right. by rewrite (target_key _ _ _ Htarget).
  - done.
Qed.

(** On a disk that refuses nothing, a file in an existing directory is
    written. *)
Lemma save_reliable parent name line doc w :
  (∀ op w', refuses op w' = false) →
  plain parent = true → slash_free name = true →
  parent ∈ dirs w → json_path parent name ∉ dirs w →
  (open_w (json_path parent name);; print line;;
   write (json_path parent name) doc) w
  = (Ok tt,
     mkWorld (remote w) (dirs w)
       (<[json_path parent name := [doc]]> (files w))
       (events w ++ [Opened (json_path parent name); Printed line;
                     Wrote (json_path parent name) doc])).
Proof.
  intros Hdisk Hparent Hname Hdir Hfile.
  unfold mbind, M_bind, open_w.
  rewrite (target_json_path _ _ _ Hparent Hname).
  rewrite (bool_decide_eq_true_2 _ Hdir), (bool_decide_eq_false_2 _ Hfile).
  rewrite Hdisk. cbn [print log]. unfold write. rewrite Hdisk.
  rewrite (key_of_json_path _ _ Hparent Hname).
  unfold emit. cbn.
  by rewrite lookup_insert_eq, insert_insert_eq, <- !app_assoc.
Qed.

(** A loop whose passes all complete. *)
Lemma for_each_Ok {A} (xs : list A) (body : A → M S unit)
    (I : World S → Prop) :
  (∀ x w, x ∈ xs → I w → ∃ w', body x w = (Ok tt, w') ∧ I w') →
  ∀ w, I w → ∃ w', for_each xs body w = (Ok tt, w') ∧ I w'.
Proof.
  induction xs as [|x xs IH]; intros Hbody w Hw; [by exists w|].
  destruct (Hbody x w (list_elem_of_here _ _) Hw) as (w1 & Hx & Hw1).
  destruct (IH (λ y w0 Hy, Hbody y w0 (list_elem_of_further _ _ _ Hy))
              w1 Hw1) as (w' & Hrest & Hw').
  exists w'. split; [|done].
  cbn [for_each]. unfold mbind, M_bind. by rewrite Hx.
Qed.

Lemma json_path_below parent name : json_path parent name ≠ parent.
Proof.
  intros Heq. apply (f_equal String.length) in Heq. unfold json_path in Heq.
  rewrite !length_append in Heq. cbn in Heq. lia.
Qed.

(** [mkdir] of a name that is not a file, on a disk that refuses
    nothing. *)
Lemma mkdir_reliable name w :
  (∀ op w', refuses op w' = false) →
  plain name = true → files w !! name = None →
  ∃ w', mkdir name w = (Ok tt, w')
    ∧ name ∈ dirs w'
    ∧ (∀ d, d ∈ dirs w' → d = name ∨ d ∈ dirs w)
    ∧ files w' = files w.
Proof.
  intros Hdisk Hname Hfile. rewrite (mkdir_plain _ _ Hname).
  rewrite (path_exists_plain _ _ Hname), Hfile.
  rewrite (bool_decide_eq_false_2 (is_Some None)) by (by intros [? ?]).
  rewrite orb_false_r, Hdisk.
  destruct (bool_decide (name ∈ dirs w)) eqn:Hdir.
  - apply bool_decide_eq_true in Hdir. exists w. auto.
  - eexists. split; [done|]. cbn. split; [set_solver|]. split; [|done].
    intros d. rewrite elem_of_union, elem_of_singleton. tauto.
Qed.
End Saving.

Section DirectMessages.
Context {S : Type} `{!Disk S}.
Implicit Types (slack : Slacker S) (w : World S).

Lemma confined_any {A} (m : M S A) w :
  confined (λ _, True) m → ∃ evs, events (m w).2 = events w ++ evs.
Proof. intros Hm. destruct (Hm w) as (evs & Hev & _). eauto. Qed.

Lemma for_each_print {A} (f : A → string) (xs : list A) : ∀ w,
  for_each xs (λ x, print (f x)) w
  = (Ok tt, mkWorld (remote w) (dirs w) (files w)
              (events w ++ ((λ x, Printed (f x)) <$> xs))).
Proof.
  induction xs as [|x xs IH]; intros w.
  - cbn. rewrite app_nil_r. by destruct w.
  - cbn [for_each]. unfold mbind, M_bind. cbn [print log].
    rewrite IH. cbn. by rewrite <- app_assoc.
Qed.

Lemma for_each_Ok_inv {A} (xs : list A) (body : A → M S unit) x :
  (∀ x, confined (λ _, True) (body x)) →
  x ∈ xs →
  ∀ w w', for_each xs body w = (Ok tt, w') →
  ∃ w1 w2 evs, body x w1 = (Ok tt, w2) ∧ events w' = events w2 ++ evs.
Proof.
  intros Hbody. induction xs as [|y ys IH]; intros Hx w w' Hrun.
  { by apply elem_of_nil in Hx. }
  cbn [for_each] in Hrun. unfold mbind, M_bind in Hrun.
  destruct (body y w) as [[[]|e|] wy] eqn:Hy; [|done..].
  apply elem_of_cons in Hx as [->|Hx].
  - destruct (confined_any (for_each ys body) wy) as [evs Hev].
    { by apply confined_for_each. }
    rewrite Hrun in Hev. eauto.
  - by apply (IH Hx wy w').
Qed.

(** One pass of the loop that exports the direct messages. *)
Lemma export_direct_message_Ok fuel slack ownerId name (dm : DirectMessage)
    w1 w2 :
  (print ("getting history for direct messages with " +:+ name);;
   msgs ← getHistory fuel (im slack) (dm_id dm) default_pageSize;
   open_w (json_path "direct_messages" name);;
   print ("writing " +:+ pretty (length msgs) +:+ " records to "
          +:+ json_path "direct_messages" name);;
   write (json_path "direct_messages" name)
     (Export (Members [dm_user dm; ownerId]) msgs)) w1 = (Ok tt, w2) →
  Printed ("getting history for direct messages with " +:+ name)
    ∈ events w2
  ∧ ∃ msgs, Wrote (json_path "direct_messages" name)
              (Export (Members [dm_user dm; ownerId]) msgs) ∈ events w2.
Proof.
  unfold mbind, M_bind. cbn [print log].
  set (w1' := emit _ w1).
  destruct (confined_any (getHistory fuel (im slack) (dm_id dm)
                            default_pageSize) w1') as [evs Hev].
  { by apply confined_getHistory. }
  destruct (getHistory fuel (im slack) (dm_id dm) default_pageSize w1')
    as [[msgs|e|] wh]; [|done..].
  cbn [snd] in Hev. unfold open_w, write.
  destruct (target wh _); [done..|].
  destruct (refuses (OpenW _) wh); [done|]. cbn [print log].
  destruct (refuses (WriteTo _ _) _); [done|]. intros [= <-]. cbn.
  rewrite Hev. subst w1'. cbn. split.
  - rewrite !elem_of_app, !list_elem_of_singleton. auto 10.
  - exists msgs. rewrite !elem_of_app, !list_elem_of_singleton. auto.
Qed.
End DirectMessages.

Lemma getDirectMessages_listing {S} `{!Disk S} (fuel : nat)
    (slack : Slacker S)
    (ownerId : string) (userIdNameMap : gmap string string) (dryRun : bool)
    (dms : list DirectMessage) (s' : S) (w : World S) :
  im_list slack (remote w) = (inr dms, s') →
  getDirectMessages fuel slack ownerId userIdNameMap dryRun w
  = (if negb dryRun then
       mkdir "direct_messages";;
       for_each dms (λ dm,
         print ("getting history for direct messages with "
                +:+ dict_get userIdNameMap (dm_user dm)
                      (dm_user dm +:+ " (name unknown)"));;
         msgs ← getHistory fuel (im slack) (dm_id dm) default_pageSize;
         open_w
           (json_path "direct_messages"
              (dict_get userIdNameMap (dm_user dm)
                 (dm_user dm +:+ " (name unknown)")));;
         print ("writing " +:+ pretty (length msgs) +:+ " records to "
                +:+ json_path "direct_messages"
                      (dict_get userIdNameMap (dm_user dm)
                         (dm_user dm +:+ " (name unknown)")));;
         write (json_path "direct_messages"
                  (dict_get userIdNameMap (dm_user dm)
                     (dm_user dm +:+ " (name unknown)")))
           (Export (Members [dm_user dm; ownerId]) msgs))
     else mret tt)
      (mkWorld s' (dirs w) (files w)
         (events w
          ++ [Called (ListOf Im);
              Printed (newline +:+
                "found direct messages (1:1) with the following users:")]
          ++ ((λ dm, Printed (dict_get userIdNameMap (dm_user dm)
                                (dm_user dm +:+ " (name unknown)")))
              <$> dms))).
Proof.
  intros Hlist. unfold getDirectMessages.
  unfold mbind at 1. unfold M_bind at 1. unfold call. cbn [emit remote].
  rewrite Hlist.
  unfold mbind at 1. unfold M_bind at 1. cbn [print log emit set_remote
    remote dirs files events].
  unfold mbind at 1. unfold M_bind at 1. rewrite for_each_print.
  unfold emit, set_remote. cbn [remote dirs files events].
  by rewrite <- !app_assoc.
Qed.

(** On a disk that refuses nothing, the export of the direct messages
    completes when every history is fetched and every file can be
    opened. *)
Lemma getDirectMessages_completes {S} `{!Disk S} (fuel : nat)
    (slack : Slacker S) (ownerId : string)
    (userIdNameMap : gmap string string) (dms : list DirectMessage)
    (s' : S) (w : World S) :
  im_list slack (remote w) = (inr dms, s') →
  (∀ op w', refuses op w' = false) →
  (∀ dm' w', dm' ∈ dms →
     ∃ msgs, (getHistory fuel (im slack) (dm_id dm') default_pageSize w').1
             = Ok msgs) →
  (∀ dm', dm' ∈ dms →
     slash_free (dict_get userIdNameMap (dm_user dm')
                   (dm_user dm' +:+ " (name unknown)")) = true) →
  files w !! "direct_messages" = None →
  (∀ dm', dm' ∈ dms → dm_file userIdNameMap dm' ∉ dirs w) →
  (getDirectMessages fuel slack ownerId userIdNameMap false w).1 = Ok tt.
Proof.
  intros Hlist Hdisk Hhistory Hnames Hfile Hfree.
  rewrite (getDirectMessages_listing _ _ _ _ _ _ _ _ Hlist). cbn [negb].
  set (w3 := mkWorld s' _ _ _).
  destruct (mkdir_reliable "direct_messages" w3 Hdisk eq_refl Hfile)
    as (w4 & Hmk & Hdir & Hdirs & _).
  unfold mbind at 1. unfold M_bind at 1. rewrite Hmk.
  match goal with |- (for_each dms ?body w4).1 = _ =>
    destruct (for_each_Ok dms body
                (λ w0, "direct_messages" ∈ dirs w0
                       ∧ ∀ dm', dm' ∈ dms →
                           dm_file userIdNameMap dm' ∉ dirs w0))
      with (w := w4) as (w' & -> & _); [| |done]
  end.
  - intros dm' w0 Hdm' [Hdir0 Hfree0].
    unfold mbind at 1. unfold M_bind at 1. cbn [print log].
    set (w1 := emit _ w0).
    unfold mbind at 1. unfold M_bind at 1.
    destruct (Hhistory dm' w1 Hdm') as [msgs Hmsgs].
    destruct (getHistory_trace (im slack) (dm_id dm') default_pageSize
                fuel w1) as (_ & Hd & _).
    cbn zeta in Hd.
    destruct (getHistory fuel (im slack) (dm_id dm') default_pageSize w1)
      as [r w2]. cbn [fst snd] in *. subst r.
    rewrite (save_reliable "direct_messages" _ _ _ w2 Hdisk eq_refl
               (Hnames dm' Hdm')).
    + eexists. split; [done|]. cbn [dirs]. by rewrite Hd.
    + by rewrite Hd.
    + rewrite Hd. by apply Hfree0.
  - split; [done|]. intros dm' Hdm' Hin.
    apply Hdirs in Hin as [Heq|Hin]; [|by apply (Hfree dm')].
    by apply json_path_below in Heq.
Qed.

(** C6. For a direct message whose user is not in the map, the line
    printed in the listing is the user id followed by [" (name unknown)"],
    whatever the mode; the listing of a dry run completes, so the lookup
    does not fail; an export that completes has announced and written the
    file [direct_messages/<id> (name unknown).json]; and the export does
    complete, and writes that file, on a disk that refuses nothing when
    every history is fetched and the names of the files are plain and
    free. *)
Theorem unknown_user_name {S} `{!Disk S} (fuel : nat) (slack : Slacker S)
    (ownerId : string) (userIdNameMap : gmap string string)
    (dms : list DirectMessage) (dm : DirectMessage) (s' : S) (w : World S) :
  im_list slack (remote w) = (inr dms, s') →
  dm ∈ dms →
  userIdNameMap !! dm_user dm = None →
  (∀ dryRun,
     Printed (dm_user dm +:+ " (name unknown)")
     ∈ events (getDirectMessages fuel slack ownerId userIdNameMap dryRun w).2)
  ∧ (getDirectMessages fuel slack ownerId userIdNameMap true w).1 = Ok tt
  ∧ ((getDirectMessages fuel slack ownerId userIdNameMap false w).1 = Ok tt →
     Printed ("getting history for direct messages with "
              +:+ dm_user dm +:+ " (name unknown)")
     ∈ events (getDirectMessages fuel slack ownerId userIdNameMap false w).2
     ∧ ∃ msgs,
         Wrote (json_path "direct_messages"
                  (dm_user dm +:+ " (name unknown)"))
           (Export (Members [dm_user dm; ownerId]) msgs)
         ∈ events
             (getDirectMessages fuel slack ownerId userIdNameMap false w).2)
  ∧ ((∀ op w', refuses op w' = false) →
     (∀ dm' w', dm' ∈ dms →
        ∃ msgs,
          (getHistory fuel (im slack) (dm_id dm') default_pageSize w').1
          = Ok msgs) →
     (∀ dm', dm' ∈ dms →
        slash_free (dict_get userIdNameMap (dm_user dm')
                      (dm_user dm' +:+ " (name unknown)")) = true) →
     files w !! "direct_messages" = None →
     (∀ dm', dm' ∈ dms → dm_file userIdNameMap dm' ∉ dirs w) →
     (getDirectMessages fuel slack ownerId userIdNameMap false w).1 = Ok tt
     ∧ Printed ("getting history for direct messages with "
                +:+ dm_user dm +:+ " (name unknown)")
       ∈ events
           (getDirectMessages fuel slack ownerId userIdNameMap false w).2
     ∧ ∃ msgs,
         Wrote (json_path "direct_messages"
                  (dm_user dm +:+ " (name unknown)"))
           (Export (Members [dm_user dm; ownerId]) msgs)
         ∈ events
             (getDirectMessages fuel slack ownerId userIdNameMap false w).2).
Proof.
  intros Hlist Hdm Hnone.
  assert (dict_get userIdNameMap (dm_user dm)
            (dm_user dm +:+ " (name unknown)")
          = dm_user dm +:+ " (name unknown)") as Hname
    by (unfold dict_get; by rewrite Hnone).
  assert (Printed (dm_user dm +:+ " (name unknown)")
          ∈ (λ dm, Printed (dict_get userIdNameMap (dm_user dm)
                              (dm_user dm +:+ " (name unknown)"))) <$> dms)
    as Hprinted.
  { apply list_elem_of_fmap. exists dm. by rewrite Hname. }
  assert ((getDirectMessages fuel slack ownerId userIdNameMap false w).1
          = Ok tt →
          Printed ("getting history for direct messages with "
                   +:+ dm_user dm +:+ " (name unknown)")
          ∈ events
              (getDirectMessages fuel slack ownerId userIdNameMap false w).2
          ∧ ∃ msgs,
              Wrote (json_path "direct_messages"
                       (dm_user dm +:+ " (name unknown)"))
                (Export (Members [dm_user dm; ownerId]) msgs)
              ∈ events
                  (getDirectMessages fuel slack ownerId userIdNameMap false
                     w).2) as Hexport.
  { rewrite (getDirectMessages_listing _ _ _ _ _ _ _ _ Hlist). cbn [negb].
    match goal with |- (?m ?w3).1 = _ → _ =>
      destruct (m w3) as [r w'] eqn:Hrun
    end.
    cbn [fst snd]. intros ->.
    unfold mbind at 1 in Hrun. unfold M_bind at 1 in Hrun.
    match type of Hrun with context [mkdir ?d ?w3] =>
      destruct (mkdir d w3) as [[[]|e|] wd]; [|done..]
    end.
    eapply for_each_Ok_inv in Hrun as (w1 & w2 & evs & Hbody & ->);
      [|intros x; confine; done|exact Hdm].
    rewrite Hname in Hbody.
    apply export_direct_message_Ok in Hbody as [Hp (msgs & Hw)].
    split; [|exists msgs]; apply elem_of_app; by left. }
  split; [|split; [|split; [exact Hexport|]]].
  - intros dryRun.
    rewrite (getDirectMessages_listing _ _ _ _ _ _ _ _ Hlist).
    match goal with |- _ ∈ events (?m ?w3).2 =>
      destruct (confined_any m w3) as [evs ->]
    end.
    { destruct (negb dryRun); [|apply confined_ret].
      apply confined_bind; [by apply confined_mkdir|]. intros _.
      apply confined_for_each. intros x. confine; done. }
    cbn [events]. rewrite !elem_of_app. auto.
  - by rewrite (getDirectMessages_listing _ _ _ _ _ _ _ _ Hlist).
  - intros Hdisk Hhistory Hnames Hfile Hfree.
    pose proof (getDirectMessages_completes fuel slack ownerId
                  userIdNameMap dms s' w Hlist Hdisk Hhistory Hnames Hfile
                  Hfree) as Hok.
    split; [exact Hok|]. by apply Hexport.
Qed.

(** The user [U9] of the demo workspace is not in the map: the listing
    shows the id with the suffix, and the export writes the file of that
    name. *)
Lemma unknown_user_name_witness :
  (im_list (demo_service (Some "xoxp")) (remote (fresh tt))
   = (inr [ {| dm_id := "D1"; dm_user := "U2" |};
            {| dm_id := "D2"; dm_user := "U9" |} ], tt)
   ∧ {| dm_id := "D2"; dm_user := "U9" |}
     ∈ [ {| dm_id := "D1"; dm_user := "U2" |};
         {| dm_id := "D2"; dm_user := "U9" |} ]
   ∧ demo_users !! "U9" = None)
  ∧ Printed "U9 (name unknown)"
    ∈ events (getDirectMessages 2 (demo_service (Some "xoxp")) "U1"
                demo_users true (fresh tt)).2
  ∧ (getDirectMessages 2 (demo_service (Some "xoxp")) "U1" demo_users false
       (fresh tt)).1 = Ok tt
  ∧ ∃ msgs,
      Wrote "direct_messages/U9 (name unknown).json"
        (Export (Members ["U9"; "U1"]) msgs)
      ∈ events (getDirectMessages 2 (demo_service (Some "xoxp")) "U1"
                  demo_users false (fresh tt)).2.
Proof.
  assert (im_list (demo_service (Some "xoxp")) (remote (fresh tt))
          = (inr [ {| dm_id := "D1"; dm_user := "U2" |};
                   {| dm_id := "D2"; dm_user := "U9" |} ], tt)) as H1
    by reflexivity.
  assert ({| dm_id := "D2"; dm_user := "U9" |}
          ∈ [ {| dm_id := "D1"; dm_user := "U2" |};
              {| dm_id := "D2"; dm_user := "U9" |} ]) as H2
    by (apply list_elem_of_further, list_elem_of_here).
  assert (demo_users !! "U9" = None) as H3 by (vm_compute; reflexivity).
  split; [done|].
  destruct (unknown_user_name 2 (demo_service (Some "xoxp")) "U1" demo_users
              _ _ _ (fresh tt) H1 H2 H3) as (Hprinted & _ & _ & Hwritten).
  split; [exact (Hprinted true)|].
  destruct Hwritten as (Hok & _ & Hwrote).
  - by intros op w'.
  - intros dm' w' Hdm'.
    repeat (apply elem_of_cons in Hdm' as [->|Hdm']);
      [..|by apply elem_of_nil in Hdm']; by eexists.
  - intros dm' Hdm'.
    repeat (apply elem_of_cons in Hdm' as [->|Hdm']);
      [..|by apply elem_of_nil in Hdm']; reflexivity.
  - reflexivity.
  - intros dm' _. apply not_elem_of_empty.
  - by split.
Defined.

Ltac confine_any :=
  repeat first
    [ progress confine
    | match goal with
      | |- confined _ (if ?b then _ else _) => destruct b
      end ];
  try done.

Section CommandLine.
Implicit Types (ns : Namespace) (argv : list string).

Lemma consume_flag arg rest ns seen extras :
  arg ∈ boolean_flags →
  ∃ d, d ≠ "token"
    ∧ consume (arg :: rest) ns seen extras
      = consume rest (<[d := VBool true]> ns) (d :: seen) extras.
Proof.
  intros Harg. unfold boolean_flags in Harg.
  repeat (apply elem_of_cons in Harg as [->|Harg]);
    [..|by apply elem_of_nil in Harg];
    eexists; (split; [|reflexivity]); done.
Qed.

Lemma consume_flags argv : ∀ ns seen,
  Forall (λ arg, arg ∈ boolean_flags) argv →
  ∃ ns' seen',
    consume argv ns seen false = inr (ns', seen', false)
    ∧ ns' !! "token" = ns !! "token".
Proof.
  induction argv as [|arg rest IH]; intros ns seen Hflags.
  { by exists ns, seen. }
  apply Forall_cons in Hflags as [Harg Hrest].
  destruct (consume_flag arg rest ns seen false Harg) as (d & Hd & ->).
  destruct (IH (<[d := VBool true]> ns) (d :: seen) Hrest)
    as (ns' & seen' & -> & Htoken).
  exists ns', seen'. split; [done|].
  by rewrite Htoken, lookup_insert_ne.
Qed.

Lemma flags_not_ambiguous argv :
  Forall (λ arg, arg ∈ boolean_flags) argv →
  existsb ambiguous argv = false.
Proof.
  induction 1 as [|arg rest Harg _ IH]; [done|].
  cbn [existsb]. rewrite IH, orb_false_r. unfold boolean_flags in Harg.
  repeat (apply elem_of_cons in Harg as [->|Harg]);
    [..|by apply elem_of_nil in Harg]; by vm_compute.
Qed.

Lemma nothing_required seen : missing_required seen = false.
Proof. reflexivity. Qed.

Lemma parse_flags argv :
  Forall (λ arg, arg ∈ boolean_flags) argv →
  ∃ args, parse argv = inr args ∧ token args = None.
Proof.
  intros Hflags. unfold parse. rewrite (flags_not_ambiguous _ Hflags).
  destruct (consume_flags argv defaults [] Hflags)
    as (ns' & seen' & -> & Htoken).
  rewrite nothing_required. exists ns'. split; [done|].
  unfold token. by rewrite Htoken.
Qed.
End CommandLine.

Section FirstCall.
Context {S : Type} `{!Disk S}.

Lemma getChannels_any fuel (slack : Slacker S) dryRun :
  confined (λ _, True) (getChannels fuel slack dryRun).
Proof. unfold getChannels. confine_any. Qed.

Lemma getPrivateChannels_any fuel (slack : Slacker S) dryRun :
  confined (λ _, True) (getPrivateChannels fuel slack dryRun).
Proof. unfold getPrivateChannels. confine_any. Qed.

Lemma getDirectMessages_any fuel (slack : Slacker S) ownerId users dryRun :
  confined (λ _, True) (getDirectMessages fuel slack ownerId users dryRun).
Proof. unfold getDirectMessages. confine_any. Qed.

Lemma call_first_event {A} c (endpoint : Reply S A) (w : World S) :
  ∃ evs, events (call c endpoint w).2 = events w ++ Called c :: evs.
Proof.
  unfold call. cbn.
  destruct (endpoint (remote w)) as [[e|body] s']; by exists [].
Qed.

Lemma bind_first_event {A B} (m : M S A) (f : A → M S B) e (w : World S) :
  (∃ evs, events (m w).2 = events w ++ e :: evs) →
  (∀ a, confined (λ _, True) (f a)) →
  ∃ evs, events ((m ≫= f) w).2 = events w ++ e :: evs.
Proof.
  unfold mbind, M_bind. intros [evs1 Hev1] Hf.
  destruct (m w) as [[a|e'|] w1]; cbn [snd] in *; [|eauto..].
  destruct (confined_any (f a) w1 (Hf a)) as [evs2 Hev2].
  exists (evs1 ++ evs2). by rewrite Hev2, Hev1, <- app_assoc.
Qed.

Lemma program_first_call fuel (service : option string → Slacker S) args w :
  ∃ evs, events (program fuel service args w).2
         = events w ++ Called AuthTest :: evs.
Proof.
  unfold program. apply bind_first_event.
  - unfold doTestAuth. apply bind_first_event; [|intros; by confine].
    apply call_first_event.
  - intros testAuth.
    confine_any; auto using getChannels_any, getPrivateChannels_any,
      getDirectMessages_any.
Qed.
End FirstCall.

(** C8, amended.  [--token] is optional: a command line made of the
    boolean flags only is parsed, with [token] unset, and the script goes
    on to call the identity check. *)
Theorem token_not_required (argv : list string) :
  Forall (λ arg, arg ∈ boolean_flags) argv →
  ∃ args,
    parse argv = inr args
    ∧ token args = None
    ∧ ∀ S (disk : Disk S) fuel (service : option string → Slacker S)
        (w : World S),
        ∃ evs, events (main fuel service argv w).2
               = events w ++ Called AuthTest :: evs.
Proof.
  intros Hflags. destruct (parse_flags argv Hflags) as (args & Hparse & Htok).
  exists args. split; [done|]. split; [done|].
  intros S disk fuel service w. rewrite (main_parsed _ _ _ _ _ Hparse).
  apply program_first_call.
Qed.

(** Two flags and no token. *)
Lemma token_not_required_witness :
  Forall (λ arg, arg ∈ boolean_flags) ["--skipChannels"; "--dryRun"]
  ∧ ∃ args,
      parse ["--skipChannels"; "--dryRun"] = inr args
      ∧ token args = None
      ∧ ∀ S (disk : Disk S) fuel (service : option string → Slacker S)
          (w : World S),
          ∃ evs, events (main fuel service ["--skipChannels"; "--dryRun"] w).2
                 = events w ++ Called AuthTest :: evs.
Proof.
  assert (Forall (λ arg, arg ∈ boolean_flags) ["--skipChannels"; "--dryRun"])
    as H1.
  { repeat constructor; unfold boolean_flags;
      rewrite !elem_of_cons; auto. }
  split; [exact H1|].
  exact (token_not_required ["--skipChannels"; "--dryRun"] H1).
Defined.

(** C8 as stated fails: the empty command line is parsed, and the remote
    is called (and refuses the missing token). *)
Lemma token_omitted_run :
  parse [] = inr defaults
  ∧ main 0 demo_service [] (fresh tt)
    = (Raise (RemoteError AuthFailure), mkWorld tt ∅ ∅ [Called AuthTest]).
Proof. split; reflexivity. Qed.

(** * Instances of the properties of [getHistory] *)

(** A first page of two messages that is also the last. *)
Lemma getHistory_first_page_final_witness :
  (history (scripted Im) (history_args "D1" None 100)
     (remote (fresh [inr {| messages := [msg "5"; msg "4"];
                            has_more := false |}]))
   = (inr {| messages := [msg "5"; msg "4"]; has_more := false |}, [])
   ∧ has_more {| messages := [msg "5"; msg "4"]; has_more := false |}
     = false)
  ∧ (getHistory 1 (scripted Im) "D1" 100
       (fresh [inr {| messages := [msg "5"; msg "4"];
                      has_more := false |}])).1
    = Ok [msg "5"; msg "4"]
  ∧ requests_since
      (fresh [inr {| messages := [msg "5"; msg "4"]; has_more := false |}])
      (getHistory 1 (scripted Im) "D1" 100
         (fresh [inr {| messages := [msg "5"; msg "4"];
                        has_more := false |}])).2
    = [history_args "D1" None 100].
Proof.
  split; [by split|].
  destruct (getHistory_first_page_final (scripted Im)
              (fresh [inr {| messages := [msg "5"; msg "4"];
                             has_more := false |}])
              "D1" 100 0 {| messages := [msg "5"; msg "4"];
                            has_more := false |} [] eq_refl eq_refl)
    as [Hrun Hreqs].
  split; [by rewrite Hrun|exact Hreqs].
Defined.

(** A conversation without messages. *)
Lemma getHistory_empty_conversation_witness :
  history (scripted Channels) (history_args "C0" None 100)
    (remote (fresh [inr {| messages := []; has_more := false |}]))
  = (inr {| messages := []; has_more := false |}, [])
  ∧ (getHistory 1 (scripted Channels) "C0" 100
       (fresh [inr {| messages := []; has_more := false |}])).1 = Ok []
  ∧ requests_since (fresh [inr {| messages := []; has_more := false |}])
      (getHistory 1 (scripted Channels) "C0" 100
         (fresh [inr {| messages := []; has_more := false |}])).2
    = [history_args "C0" None 100].
Proof.
  split; [reflexivity|].
  exact (getHistory_empty_conversation (scripted Channels)
           (fresh [inr {| messages := []; has_more := false |}])
           "C0" 100 0 [] eq_refl).
Defined.

(** The second request is rate limited. *)
Lemma getHistory_failure_propagates_witness :
  replies (scripted Groups) (remote (fresh rate_limited))
    (requests_since (fresh rate_limited)
       (getHistory 5 (scripted Groups) "G1" 2 (fresh rate_limited)).2) !! 1
  = Some (inl RateLimited)
  ∧ (getHistory 5 (scripted Groups) "G1" 2 (fresh rate_limited)).1
    = Raise (RemoteError RateLimited)
  ∧ length (requests_since (fresh rate_limited)
              (getHistory 5 (scripted Groups) "G1" 2 (fresh rate_limited)).2)
    = 2.
Proof.
  assert (replies (scripted Groups) (remote (fresh rate_limited))
            (requests_since (fresh rate_limited)
               (getHistory 5 (scripted Groups) "G1" 2
                  (fresh rate_limited)).2) !! 1
          = Some (inl RateLimited)) as H1 by (vm_compute; reflexivity).
  split; [exact H1|].
  exact (getHistory_failure_propagates (scripted Groups) (fresh rate_limited)
           "G1" 2 5 1 RateLimited H1).
Defined.

(** The endless service uses up any number of iterations. *)
Lemma getHistory_returns_iff_witness :
  (∀ args s, ∃ body s',
      history (endless Channels) args s = (inr body, s')
      ∧ has_more body = true
      ∧ ∃ m ts, last (messages body) = Some m ∧ m !! "ts" = Some ts)
  ∧ (getHistory 7 (endless Channels) "C1" 100 (fresh tt)).1 = OutOfFuel
  ∧ length (requests_since (fresh tt)
              (getHistory 7 (endless Channels) "C1" 100 (fresh tt)).2) = 7.
Proof.
  assert (∀ args s, ∃ body s',
      history (endless Channels) args s = (inr body, s')
      ∧ has_more body = true
      ∧ ∃ m ts, last (messages body) = Some m ∧ m !! "ts" = Some ts) as H1.
  { intros args s. eexists _, _. split; [reflexivity|]. split; [done|].
    by exists (msg "1"), "1". }
  split; [exact H1|].
  destruct (getHistory_returns_iff (endless Channels) (fresh tt) "C1" 100)
    as (_ & _ & Hdiv).
  exact (Hdiv H1 7).
Defined.

(** An empty first page that announces more. *)
Lemma getHistory_IndexError_iff_witness :
  (0 < 3
   ∧ history (scripted Im) (history_args "D1" None 100)
       (remote (fresh [inr {| messages := []; has_more := true |}]))
     = (inr {| messages := []; has_more := true |}, [])
   ∧ has_more {| messages := []; has_more := true |} = true
   ∧ messages {| messages := []; has_more := true |} = [])
  ∧ getHistory 3 (scripted Im) "D1" 100
      (fresh [inr {| messages := []; has_more := true |}])
    = (Raise IndexError,
       requested (scripted Im) (history_args "D1" None 100) []
         (fresh [inr {| messages := []; has_more := true |}])).
Proof.
  assert (0 < 3) as H1 by lia.
  split; [by repeat split|].
  exact (proj2 (getHistory_IndexError_iff (scripted Im)
                  (fresh [inr {| messages := []; has_more := true |}])
                  "D1" 100 3)
           {| messages := []; has_more := true |} [] H1 eq_refl eq_refl
           eq_refl).
Defined.

(** * The requests and the failures of [getHistory] *)

Section Requests.
Context {S : Type} `{!Disk S}.
Implicit Types (p : Pageable S) (w : World S) (msgs : list Message).

(** The requests of a run of the loop: its first request, then those of
    the rest of the run. *)
Lemma requests_since_step fuel p ch P msgs cur w :
  requests_since w (getHistory_loop (Datatypes.S fuel) p ch P msgs cur w).2
  = history_args ch cur P
    :: match history p (history_args ch cur P) (remote w) with
       | (inl _, _) => []
       | (inr body, s') =>
         if has_more body then
           match last (msgs ++ messages body) with
           | None => []
           | Some m =>
             match m !! "ts" with
             | None => []
             | Some ts =>
               requests_since (requested p (history_args ch cur P) s' w)
                 (getHistory_loop fuel p ch P (msgs ++ messages body)
                    (Some ts) (requested p (history_args ch cur P) s' w)).2
             end
           end
         else []
       end.
Proof.
  rewrite getHistory_loop_step. cbn zeta.
  set (args := history_args ch cur P).
  destruct (history p args (remote w)) as [[e|body] s'].
  { cbn [snd]. by rewrite (requests_since_app _ _ _ (events_requested _ _ _ _)). }
  destruct (has_more body).
  2:{ cbn [snd].
      by rewrite (requests_since_app _ _ _ (events_requested _ _ _ _)). }
  destruct (last (msgs ++ messages body)) as [m|].
  2:{ cbn [snd].
      by rewrite (requests_since_app _ _ _ (events_requested _ _ _ _)). }
  destruct (m !! "ts") as [ts|].
  2:{ cbn [snd].
      by rewrite (requests_since_app _ _ _ (events_requested _ _ _ _)). }
  destruct (getHistory_loop_trace p ch P fuel (msgs ++ messages body)
              (Some ts) (requested p args s' w)) as (reqs & Hev & _).
  cbn zeta in Hev.
  rewrite (requests_since_app _ _ _ Hev), history_requests_called.
  rewrite events_requested, <- app_assoc in Hev.
  rewrite (requests_since_app _ _ _ Hev).
  change (history_requests ([Called (HistoryOf (kind p) args)]
                            ++ (called p <$> reqs)))
    with (args :: history_requests (called p <$> reqs)).
  by rewrite history_requests_called.
Qed.

Lemma getHistory_loop_requests p ch P fuel : ∀ msgs cur w i req,
  requests_since w (getHistory_loop fuel p ch P msgs cur w).2 !! i
  = Some req →
  req = history_args ch
          (match i with
           | 0 => cur
           | _ => last (msgs ++ received
                          (take i (replies p (remote w)
                             (requests_since w
                                (getHistory_loop fuel p ch P msgs cur w).2))))
                  ≫= (.!! "ts")
           end) P.
Proof.
  induction fuel as [|fuel IH]; intros msgs cur w i req.
  { cbn. unfold requests_since. by rewrite drop_all. }
  rewrite requests_since_step. destruct i as [|i]; [by intros [= <-]|].
  cbn [lookup list_lookup replies].
  destruct (history p (history_args ch cur P) (remote w))
    as [[e|body] s'] eqn:Hreply; [done|].
  destruct (has_more body); [|done].
  destruct (last (msgs ++ messages body)) as [m|] eqn:Hlast; [|done].
  destruct (m !! "ts") as [ts|] eqn:Hts; [|done].
  intros Hreq. rewrite (IH _ _ _ _ _ Hreq). f_equal.
  change (remote (requested p (history_args ch cur P) s' w)) with s'.
  cbn [take]. unfold received. cbn [mbind list_bind]. fold (received).
  destruct i as [|i].
  - cbn. by rewrite app_nil_r, Hlast.
  - by rewrite <- app_assoc.
Qed.
End Requests.

(** Every request of a run asks for the same conversation, from the
    beginning of time and with the same page size; the first has no cursor
    and each later one carries the timestamp of the last message received
    so far. *)
Theorem getHistory_requests {S} (p : Pageable S) (w : World S)
    (ch : string) (P fuel i : nat) (req : HistoryArgs) :
  requests_since w (getHistory fuel p ch P w).2 !! i = Some req →
  req = history_args ch
          (cursor_of (take i (replies p (remote w)
                                (requests_since w
                                   (getHistory fuel p ch P w).2)))) P.
Proof.
  intros Hreq. unfold getHistory in *.
  rewrite (getHistory_loop_requests _ _ _ _ _ _ _ _ _ Hreq).
  by destruct i.
Qed.

(** Whatever the remote answers, what [getHistory] returns is the messages
    of the pages it received, page after page, nothing dropped, repeated or
    moved. *)
Theorem getHistory_returns_pages {S} (p : Pageable S) (w : World S)
    (ch : string) (P fuel : nat) (msgs : list Message) :
  (getHistory fuel p ch P w).1 = Ok msgs →
  msgs = received (replies p (remote w)
                     (requests_since w (getHistory fuel p ch P w).2)).
Proof.
  intros Hok.
  exact (getHistory_loop_returns p ch P fuel [] None w msgs Hok).
Qed.

(** A run of [getHistory] does nothing but send [history] requests to its
    own object, at most one per iteration: it prints nothing and leaves
    directories and files alone. *)
Theorem getHistory_frame {S} (p : Pageable S) (w : World S)
    (ch : string) (P fuel : nat) :
  events (getHistory fuel p ch P w).2
  = events w
    ++ ((λ args, Called (HistoryOf (kind p) args))
        <$> requests_since w (getHistory fuel p ch P w).2)
  ∧ length (requests_since w (getHistory fuel p ch P w).2) ≤ fuel
  ∧ dirs (getHistory fuel p ch P w).2 = dirs w
  ∧ files (getHistory fuel p ch P w).2 = files w.
Proof.
  destruct (getHistory_trace p ch P fuel w)
    as (Hev & Hd & Hf & Hlen & _). cbn zeta in *. done.
Qed.

Section Raises.
Context {S : Type} `{!Disk S}.
Implicit Types (p : Pageable S) (w : World S) (msgs : list Message).

Lemma getHistory_loop_raises p ch P fuel : ∀ msgs cur w e,
  (getHistory_loop fuel p ch P msgs cur w).1 = Raise e →
  (∃ failure, e = RemoteError failure)
  ∨ (e = IndexError ∧ msgs = [])
  ∨ (e = KeyError "ts"
     ∧ ∃ m, last (msgs ++ received
                    (replies p (remote w)
                       (requests_since w
                          (getHistory_loop fuel p ch P msgs cur w).2)))
            = Some m
            ∧ m !! "ts" = None).
Proof.
  induction fuel as [|fuel IH]; intros msgs cur w e; [done|].
  rewrite requests_since_step, getHistory_loop_step. cbn zeta.
  cbn [replies].
  destruct (history p (history_args ch cur P) (remote w))
    as [[failure|body] s'] eqn:Hreply.
  { intros [= <-]. left. eauto. }
  destruct (has_more body); [|done].
  destruct (last (msgs ++ messages body)) as [m|] eqn:Hlast.
  2:{ intros [= <-]. right. left. split; [done|].
      apply last_None in Hlast. by destruct msgs. }
  destruct (m !! "ts") as [ts|] eqn:Hts.
  2:{ intros [= <-]. right. right. split; [done|]. exists m.
      unfold received. cbn. by rewrite app_nil_r. }
  intros Hraise.
  destruct (IH _ _ _ _ Hraise) as [?|[[-> Hnil]|[-> (m' & Hm' & Hts')]]].
  - by left.
  - apply app_eq_nil in Hnil as [-> Hnil]. rewrite Hnil in Hlast. done.
  - right. right. split; [done|]. exists m'. split; [|done].
    change (remote (requested p (history_args ch cur P) s' w)) with s'
      in Hm'.
    unfold received in *. cbn [mbind list_bind].
    by rewrite app_assoc.
Qed.
End Raises.

(** On answers that carry a list of messages and a [has_more] flag, as
    [HistoryBody] has them, [getHistory] raises nothing but the failure of
    a request, [IndexError] and [KeyError] for the key ["ts"]; the latter
    only when the last message received carries no timestamp. *)
Theorem getHistory_raises {S} (p : Pageable S) (w : World S)
    (ch : string) (P fuel : nat) (e : Exn) :
  (getHistory fuel p ch P w).1 = Raise e →
  (∃ failure, e = RemoteError failure)
  ∨ e = IndexError
  ∨ (e = KeyError "ts"
     ∧ ∃ m, last (received
                    (replies p (remote w)
                       (requests_since w (getHistory fuel p ch P w).2)))
            = Some m
            ∧ m !! "ts" = None).
Proof.
  intros Hraise.
  destruct (getHistory_loop_raises p ch P fuel [] None w e Hraise)
    as [?|[[-> _]|?]]; auto.
Qed.

(** When a page announces more and the last message received has no
    timestamp, the run fails at once with [KeyError]. *)
Theorem getHistory_missing_timestamp {S} (p : Pageable S) (w : World S)
    (ch : string) (P fuel : nat) (body : HistoryBody) (s' : S)
    (m : Message) :
  history p (history_args ch None P) (remote w) = (inr body, s') →
  has_more body = true →
  last (messages body) = Some m →
  m !! "ts" = None →
  getHistory (Datatypes.S fuel) p ch P w
  = (Raise (KeyError "ts"), requested p (history_args ch None P) s' w).
Proof.
  intros Hreply Hmore Hlast Hts. unfold getHistory.
  rewrite getHistory_loop_step. cbn zeta.
  by rewrite Hreply, Hmore, app_nil_l, Hlast, Hts.
Qed.

(** * Directories, the user map and the first steps of the script *)

Section Mkdir.
Context {S : Type} `{!Disk S}.
Implicit Types (w : World S) (cur names : list string).

Lemma is_dir_snoc w cur name :
  is_dir w (cur ++ [name]) = bool_decide (join_path (cur ++ [name]) ∈ dirs w).
Proof. unfold is_dir. by destruct cur. Qed.

Lemma is_dir_mono w w' names :
  dirs w ⊆ dirs w' → is_dir w names = true → is_dir w' names = true.
Proof.
  intros Hsub. destruct names as [|n ns]; [done|]. unfold is_dir.
  intros Hdir. apply bool_decide_eq_true in Hdir.
  apply bool_decide_eq_true. by apply Hsub.
Qed.

(** [os.makedirs] touches no file and removes no directory, whatever its
    outcome. *)
Lemma makedirs_from_frame name names : ∀ cur w,
  files (makedirs_from name cur names w).2 = files w
  ∧ dirs w ⊆ dirs (makedirs_from name cur names w).2.
Proof.
  induction names as [|n rest IH]; intros cur w; [done|].
  cbn [makedirs_from].
  destruct (stays n); [by apply IH|].
  destruct (String.eqb n "..").
  { destruct rest; [done|apply IH]. }
  destruct (is_dir w (cur ++ [n])).
  { destruct rest; [done|apply IH]. }
  destruct (is_file w (cur ++ [n]) || refuses _ w); [done|].
  match goal with |- context [makedirs_from name ?c rest ?w1] =>
    pose proof (IH c w1) as [Hf Hd]
  end.
  split; [by rewrite Hf|]. etrans; [|exact Hd]. cbn.
  intros d Hin. apply elem_of_union. by right.
Qed.

(** When it returns, the whole path leads to a directory. *)
Lemma makedirs_from_Ok name names : ∀ cur w w',
  makedirs_from name cur names w = (Ok tt, w') →
  ∀ w'', dirs w' ⊆ dirs w'' →
    ∃ d, target_from w'' cur names = Directory d.
Proof.
  induction names as [|n rest IH]; intros cur w w' Hrun w'' Hsub;
    [by eexists|].
  cbn [makedirs_from] in Hrun. cbn [target_from].
  destruct (stays n); [by apply (IH _ _ _ Hrun)|].
  destruct (String.eqb n "..").
  { destruct rest; [done|by apply (IH _ _ _ Hrun)]. }
  destruct (is_dir w (cur ++ [n])) eqn:Hdir.
  { destruct rest as [|n' rest]; [done|].
    rewrite (is_dir_mono w w''); [by apply (IH _ _ _ Hrun)| |done].
    etrans; [|exact Hsub].
    pose proof (makedirs_from_frame name (n' :: rest) (cur ++ [n]) w)
      as [_ Hd]. by rewrite Hrun in Hd. }
  destruct (is_file w (cur ++ [n]) || refuses _ w); [done|].
  match type of Hrun with makedirs_from name ?c rest ?w1 = _ =>
    pose proof (makedirs_from_frame name rest c w1) as [_ Hd]
  end.
  rewrite Hrun in Hd. cbn [snd dirs] in Hd.
  rewrite is_dir_snoc, bool_decide_eq_true_2;
    [by apply (IH _ _ _ Hrun)|].
  apply Hsub, Hd. set_solver.
Qed.

Lemma strip_slashes_nil names :
  strip_slashes names = [] → Forall (λ n, n = "") names.
Proof.
  induction names as [|n rest IH]; [constructor|]. cbn.
  destruct (strip_slashes rest); [|done].
  destruct (String.eqb n "") eqn:Hn; [|done].
  apply String.eqb_eq in Hn. intros _. constructor; auto.
Qed.

Lemma target_from_slashes w names : ∀ cur,
  Forall (λ n, n = "") names → target_from w cur names = Directory cur.
Proof.
  induction names as [|n rest IH]; intros cur Hall; [done|].
  apply Forall_cons in Hall as [-> Hrest]. cbn. by apply IH.
Qed.

(** Trailing slashes do not matter for a path that leads to a
    directory. *)
Lemma target_from_strip w names : ∀ cur d,
  target_from w cur (strip_slashes names) = Directory d →
  target_from w cur names = Directory d.
Proof.
  induction names as [|n rest IH]; intros cur d; [done|].
  cbn [strip_slashes].
  destruct (strip_slashes rest) as [|r rs] eqn:Hstrip.
  - apply strip_slashes_nil in Hstrip.
    destruct (String.eqb n "") eqn:Hn.
    + apply String.eqb_eq in Hn as ->. cbn.
      rewrite (target_from_slashes _ _ _ Hstrip). done.
    + cbn [target_from].
      destruct (stays n);
        [by rewrite (target_from_slashes _ _ _ Hstrip)|].
      destruct (String.eqb n "..");
        [by rewrite (target_from_slashes _ _ _ Hstrip)|].
      destruct (is_dir w (cur ++ [n]));
        [by rewrite (target_from_slashes _ _ _ Hstrip)|done].
  - cbn [target_from].
    destruct (stays n); [apply IH|].
    destruct (String.eqb n ".."); [apply IH|].
    destruct (is_dir w (cur ++ [n])); [apply IH|done].
Qed.

Lemma mkdir_files directory w : files (mkdir directory w).2 = files w.
Proof.
  unfold mkdir. destruct (path_exists directory w); [done|].
  unfold makedirs. destruct (strip_slashes _); [done|].
  apply makedirs_from_frame.
Qed.

Lemma mkdir_dirs directory w : dirs w ⊆ dirs (mkdir directory w).2.
Proof.
  unfold mkdir. destruct (path_exists directory w); [done|].
  unfold makedirs. destruct (strip_slashes _); [done|].
  apply makedirs_from_frame.
Qed.

Lemma mkdir_exists directory w :
  (mkdir directory w).1 = Ok tt →
  path_exists directory (mkdir directory w).2 = true.
Proof.
  unfold mkdir. destruct (path_exists directory w) eqn:Hp; [done|].
  unfold makedirs.
  destruct (strip_slashes (split_path directory)) as [|n ns] eqn:Hstrip;
    [done|].
  destruct (makedirs_from directory [] (n :: ns) w) as [r w'] eqn:Hrun.
  cbn [fst snd]. intros ->.
  destruct (makedirs_from_Ok _ _ _ _ _ Hrun w') as [d Hd]; [done|].
  rewrite <- Hstrip in Hd. apply target_from_strip in Hd.
  unfold path_exists, target.
  destruct (String.eqb directory "") eqn:Hempty; [|by rewrite Hd].
  apply String.eqb_eq in Hempty. by subst directory.
Qed.

Lemma strip_slashes_cons name names :
  String.eqb name "" = false →
  strip_slashes (name :: names) = name :: strip_slashes names.
Proof.
  intros Hname. cbn. destruct (strip_slashes names); [|done].
  by rewrite Hname.
Qed.
End Mkdir.

(** [mkdir] returns without doing anything when the path exists, and
    otherwise calls [os.makedirs]: whatever the outcome, no file changes
    and no directory is lost; when it returns, the path exists and a second
    [mkdir] changes nothing.  It raises [OSError] for the empty path and
    for a path below a file, and it creates a missing parent directory
    before the directory itself. *)
Theorem mkdir_idempotent {S} `{!Disk S} (directory : string) (w : World S) :
  files (mkdir directory w).2 = files w
  ∧ dirs w ⊆ dirs (mkdir directory w).2
  ∧ ((mkdir directory w).1 = Ok tt →
     path_exists directory (mkdir directory w).2 = true
     ∧ mkdir directory (mkdir directory w).2
       = (Ok tt, (mkdir directory w).2))
  ∧ mkdir "" w = (Raise (OSError ""), w)
  ∧ (∀ parent rest,
       plain parent = true →
       is_Some (files w !! parent) →
       parent ∉ dirs w →
       mkdir (parent +:+ "/" +:+ rest) w
       = (Raise (OSError (parent +:+ "/" +:+ rest)), w))
  ∧ (∀ parent child,
       plain parent = true →
       plain child = true →
       path_exists parent w = false →
       (parent +:+ "/" +:+ child) ∉ dirs w →
       files w !! (parent +:+ "/" +:+ child) = None →
       (∀ op w', refuses op w' = false) →
       mkdir (parent +:+ "/" +:+ child) w
       = (Ok tt,
          mkWorld (remote w)
            ({[parent +:+ "/" +:+ child]} ∪ ({[parent]} ∪ dirs w))
            (files w)
            (events w ++ [MadeDirs parent;
                          MadeDirs (parent +:+ "/" +:+ child)]))).
Proof.
  split; [apply mkdir_files|]. split; [apply mkdir_dirs|].
  split; [|split; [done|split]].
  - intros Hok. pose proof (mkdir_exists _ _ Hok) as Hexists.
    split; [done|]. unfold mkdir at 1. by rewrite Hexists.
  - intros parent rest Hparent Hfile Hdir. unfold mkdir, path_exists.
    rewrite (target_below _ _ _ Hparent Hdir). unfold makedirs.
    rewrite (split_path_app _ _ (plain_slash_free _ Hparent)).
    rewrite (strip_slashes_cons _ _ (plain_nonempty _ Hparent)).
    cbn [makedirs_from].
    rewrite (plain_stays _ Hparent), (plain_up _ Hparent).
    cbn [app]. unfold is_dir, is_file. cbn [join_path].
    rewrite (bool_decide_eq_false_2 _ Hdir).
    by rewrite (bool_decide_eq_true_2 _ Hfile).
  - intros parent child Hparent Hchild Hnone Hdir Hfile Hdisk.
    rewrite (path_exists_plain _ _ Hparent) in Hnone.
    apply orb_false_iff in Hnone as [Hpd Hpf].
    apply bool_decide_eq_false in Hpd.
    unfold mkdir, path_exists.
    rewrite (target_below _ _ _ Hparent Hpd). unfold makedirs.
    rewrite (split_path_app _ _ (plain_slash_free _ Hparent)).
    rewrite (split_path_slash_free _ (plain_slash_free _ Hchild)).
    rewrite (strip_slashes_cons _ _ (plain_nonempty _ Hparent)).
    rewrite (strip_slashes_cons _ _ (plain_nonempty _ Hchild)).
    cbn [strip_slashes makedirs_from].
    rewrite (plain_stays _ Hparent), (plain_up _ Hparent).
    rewrite (plain_stays _ Hchild), (plain_up _ Hchild).
    cbn [app]. unfold is_dir, is_file. cbn [join_path files dirs].
    rewrite (bool_decide_eq_false_2 _ Hpd), Hpf, !Hdisk. cbn [orb].
    rewrite bool_decide_eq_false_2.
    2:{ rewrite elem_of_union, elem_of_singleton. intros [Heq|?]; [|done].
        apply (f_equal String.length) in Heq.
        rewrite !length_append in Heq. cbn in Heq. lia. }
    rewrite Hfile.
    rewrite (bool_decide_eq_false_2 (is_Some None)) by (by intros [? ?]).
    cbn [orb remote events]. by rewrite <- app_assoc.
Qed.

Section UserMap.
Implicit Types (users : list User).

Lemma user_map_snoc users user :
  user_map (users ++ [user])
  = <[user_id user := user_name user]> (user_map users).
Proof. unfold user_map. by rewrite foldl_snoc. Qed.

Lemma user_map_lookup users id :
  user_map users !! id
  = user_name <$> last (filter (λ user, user_id user = id) users).
Proof.
  induction users as [|user users IH] using rev_ind; [done|].
  rewrite user_map_snoc, filter_app.
  destruct (decide (user_id user = id)) as [<-|Hne].
  - rewrite lookup_insert_eq.
    rewrite (filter_cons _ user []), decide_True by done.
    by rewrite filter_nil, last_snoc.
  - rewrite lookup_insert_ne by done.
    rewrite (filter_cons _ user []), decide_False by done.
    by rewrite filter_nil, app_nil_r.
Qed.

Lemma user_map_fresh users id :
  user_map users !! id = None ↔ id ∉ user_id <$> users.
Proof.
  rewrite user_map_lookup, fmap_None, last_None. split.
  - intros Hfilter Hin. apply list_elem_of_fmap in Hin as (u & -> & Hu).
    by apply (filter_nil_not_elem_of _ _ u Hfilter).
  - intros Hid.
    destruct (filter _ users) as [|u l] eqn:Hfilter; [done|].
    assert (u ∈ filter (λ user, user_id user = id) users)
      as Hin by (rewrite Hfilter; apply list_elem_of_here).
    apply list_elem_of_filter in Hin as [<- Hin].
    destruct Hid. apply list_elem_of_fmap. by exists u.
Qed.

Lemma user_map_size users :
  size (user_map users) ≤ length users
  ∧ (size (user_map users) = length users ↔ NoDup (user_id <$> users)).
Proof.
  induction users as [|user users [IHle IHeq]] using rev_ind.
  { unfold user_map. cbn. rewrite map_size_empty.
    split; [done|]. split; [constructor|done]. }
  rewrite user_map_snoc, length_app, map_size_insert, fmap_app. cbn.
  rewrite NoDup_app.
  destruct (user_map users !! user_id user) as [name|] eqn:Hlookup; cbn.
  - split; [lia|]. split; [lia|]. intros (_ & Hfresh & _).
    assert (user_id user ∈ user_id <$> users) as Hin.
    { destruct (decide (user_id user ∈ user_id <$> users)) as [?|Hnot];
        [done|].
      apply user_map_fresh in Hnot. congruence. }
    destruct (Hfresh _ Hin). apply list_elem_of_here.
  - apply user_map_fresh in Hlookup. split; [lia|]. split.
    + intros Hsize. split; [apply IHeq; lia|]. split.
      * intros id Hid Hin. apply list_elem_of_singleton in Hin as ->. done.
      * apply NoDup_singleton.
    + intros (Hnd & _). apply IHeq in Hnd. lia.
Qed.
End UserMap.

Lemma getUserMap_run {S} (slack : Slacker S) (w : World S)
    (users : list User) (s' : S) :
  users_list slack (remote w) = (inr users, s') →
  getUserMap slack w
  = (Ok (user_map users),
     mkWorld s' (dirs w) (files w)
       (events w ++ [Called UsersList;
                     Printed ("found " +:+ pretty (length users)
                              +:+ " users ")])).
Proof.
  intros Hlist. unfold getUserMap, mbind, M_bind, call. cbn. rewrite Hlist.
  cbn. unfold emit, set_remote. cbn. by rewrite <- app_assoc.
Qed.

(** When the user list arrives, [getUserMap] returns the dictionary in
    which every id maps to the name of the last user listed with that id and
    ids that are not listed are absent; it has made this one call and
    printed the number of users listed, which is the number of entries
    exactly when the ids are distinct and exceeds it otherwise. *)
Theorem getUserMap_spec {S} (slack : Slacker S) (w : World S)
    (users : list User) (s' : S) :
  users_list slack (remote w) = (inr users, s') →
  getUserMap slack w
  = (Ok (user_map users),
     mkWorld s' (dirs w) (files w)
       (events w ++ [Called UsersList;
                     Printed ("found " +:+ pretty (length users)
                              +:+ " users ")]))
  ∧ (∀ id, user_map users !! id
           = user_name <$> last (filter (λ user, user_id user = id) users))
  ∧ (∀ id, user_map users !! id = None ↔ id ∉ user_id <$> users)
  ∧ size (user_map users) ≤ length users
  ∧ (size (user_map users) = length users ↔ NoDup (user_id <$> users)).
Proof.
  intros Hlist. split; [by apply getUserMap_run|].
  split; [apply user_map_lookup|]. split; [apply user_map_fresh|].
  apply user_map_size.
Qed.

(** When the identity check fails, the script stops there: the failure is
    raised, the check is the only call made, nothing is printed and no
    directory or file is touched. *)
Theorem main_auth_failure {S} `{!Disk S} (fuel : nat)
    (service : option string → Slacker S) (argv : list string)
    (args : Namespace) (w : World S) (e : RemoteFailure) (s' : S) :
  parse argv = inr args →
  auth_test (service (token args)) (remote w) = (inl e, s') →
  main fuel service argv w
  = (Raise (RemoteError e),
     mkWorld s' (dirs w) (files w) (events w ++ [Called AuthTest])).
Proof.
  intros Hparse Hauth. unfold main, parse_args. rewrite Hparse.
  unfold program, doTestAuth, mbind, M_bind, call. cbn. by rewrite Hauth.
Qed.

(** When the user list fails after a successful identity check, the script
    stops before it writes [metadata.json] and before any exporter runs. *)
Theorem main_users_failure {S} `{!Disk S} (fuel : nat)
    (service : option string → Slacker S) (argv : list string)
    (args : Namespace) (w : World S) (testAuth : AuthInfo)
    (e : RemoteFailure) (s1 s2 : S) :
  parse argv = inr args →
  auth_test (service (token args)) (remote w) = (inr testAuth, s1) →
  users_list (service (token args)) s1 = (inl e, s2) →
  main fuel service argv w
  = (Raise (RemoteError e),
     mkWorld s2 (dirs w) (files w)
       (events w
        ++ [Called AuthTest;
            Printed ("Successfully authenticated for team "
                     +:+ auth_team testAuth +:+ " and user "
                     +:+ auth_user testAuth +:+ " ");
            Called UsersList])).
Proof.
  intros Hparse Hauth Husers. unfold main, parse_args. rewrite Hparse.
  unfold program, doTestAuth, getUserMap, mbind, M_bind, call. cbn.
  rewrite Hauth. cbn. rewrite Husers. cbn.
  unfold emit, set_remote. cbn. by rewrite <- !app_assoc.
Qed.

Section DryListing.
Context {S : Type} `{!Disk S}.
Implicit Types (slack : Slacker S) (w : World S).

Lemma getChannels_listing fuel slack w chans s' :
  channels_list slack (remote w) = (inr chans, s') →
  getChannels fuel slack true w
  = (Ok tt,
     mkWorld s' (dirs w) (files w)
       (events w
        ++ [Called (ListOf Channels);
            Printed (newline +:+ "found channels: ")]
        ++ ((λ channel, Printed (channel_name channel)) <$> chans))).
Proof.
  intros Hlist. unfold getChannels.
  unfold mbind at 1. unfold M_bind at 1. unfold call. cbn [emit remote].
  rewrite Hlist.
  unfold mbind at 1. unfold M_bind at 1. cbn [print log].
  unfold mbind at 1. unfold M_bind at 1. rewrite for_each_print.
  cbn [negb]. unfold mret, M_ret, emit, set_remote.
  cbn [remote dirs files events]. by rewrite <- !app_assoc.
Qed.

Lemma getPrivateChannels_listing fuel slack w grps s' :
  groups_list slack (remote w) = (inr grps, s') →
  getPrivateChannels fuel slack true w
  = (Ok tt,
     mkWorld s' (dirs w) (files w)
       (events w
        ++ [Called (ListOf Groups);
            Printed (newline +:+ "found private channels:")]
        ++ ((λ group, Printed (group_name group +:+ ": ("
                               +:+ pretty (length (group_members group))
                               +:+ " members)")) <$> grps))).
Proof.
  intros Hlist. unfold getPrivateChannels.
  unfold mbind at 1. unfold M_bind at 1. unfold call. cbn [emit remote].
  rewrite Hlist.
  unfold mbind at 1. unfold M_bind at 1. cbn [print log].
  unfold mbind at 1. unfold M_bind at 1. rewrite for_each_print.
  cbn [negb]. unfold mret, M_ret, emit, set_remote.
  cbn [remote dirs files events]. by rewrite <- !app_assoc.
Qed.
End DryListing.

(** The messages of a dry run, in full: when its five calls succeed, a dry
    run without skip flags completes, whatever the fuel, having printed the
    greeting, the number of users, and the names of the channels, of the
    private channels (with their numbers of members) and of the partners
    of the direct messages, in this order. *)
Theorem dry_run_transcript {S} `{!Disk S} (fuel : nat)
    (service : option string → Slacker S) (argv : list string)
    (args : Namespace) (w : World S) (testAuth : AuthInfo)
    (users : list User) (chans : list Channel) (grps : list Group)
    (dms : list DirectMessage) (s1 s2 s3 s4 s5 : S) :
  parse argv = inr args →
  flag args "dryRun" = true →
  flag args "skipChannels" = false →
  flag args "skipPrivateChannels" = false →
  flag args "skipDirectMessages" = false →
  auth_test (service (token args)) (remote w) = (inr testAuth, s1) →
  users_list (service (token args)) s1 = (inr users, s2) →
  channels_list (service (token args)) s2 = (inr chans, s3) →
  groups_list (service (token args)) s3 = (inr grps, s4) →
  im_list (service (token args)) s4 = (inr dms, s5) →
  main fuel service argv w
  = (Ok tt,
     mkWorld s5 (dirs w) (files w)
       (events w
        ++ [Called AuthTest;
            Printed ("Successfully authenticated for team "
                     +:+ auth_team testAuth +:+ " and user "
                     +:+ auth_user testAuth +:+ " ");
            Called UsersList;
            Printed ("found " +:+ pretty (length users) +:+ " users ");
            Called (ListOf Channels);
            Printed (newline +:+ "found channels: ")]
        ++ ((λ channel, Printed (channel_name channel)) <$> chans)
        ++ [Called (ListOf Groups);
            Printed (newline +:+ "found private channels:")]
        ++ ((λ group, Printed (group_name group +:+ ": ("
                               +:+ pretty (length (group_members group))
                               +:+ " members)")) <$> grps)
        ++ [Called (ListOf Im);
            Printed (newline +:+
              "found direct messages (1:1) with the following users:")]
        ++ ((λ dm, Printed (dict_get (user_map users) (dm_user dm)
                              (dm_user dm +:+ " (name unknown)")))
            <$> dms))).
Proof.
  intros Hparse Hdry Hc Hp Hd Hauth Husers Hchans Hgrps Hdms.
  rewrite (main_parsed _ _ _ _ _ Hparse). unfold program.
  rewrite Hdry, Hc, Hp, Hd. cbn [negb].
  unfold mbind at 1. unfold M_bind at 1.
  unfold doTestAuth at 1.
  unfold mbind at 1. unfold M_bind at 1. unfold call at 1.
  cbn [emit remote]. rewrite Hauth.
  unfold mbind at 1. unfold M_bind at 1. cbn [print log].
  unfold mret at 1. unfold M_ret at 1.
  unfold mbind at 1. unfold M_bind at 1.
  match goal with |- context [getUserMap ?sl ?w0] =>
    rewrite (getUserMap_run sl w0 users s2 Husers)
  end.
  unfold mbind at 1. unfold M_bind at 1. unfold mret at 1. unfold M_ret at 1.
  unfold mbind at 1. unfold M_bind at 1.
  match goal with |- context [getChannels ?f ?sl true ?w0] =>
    rewrite (getChannels_listing f sl w0 chans s3 Hchans)
  end.
  unfold mbind at 1. unfold M_bind at 1.
  match goal with |- context [getPrivateChannels ?f ?sl true ?w0] =>
    rewrite (getPrivateChannels_listing f sl w0 grps s4 Hgrps)
  end.
  match goal with |- getDirectMessages ?f ?sl ?o ?m true ?w0 = _ =>
    rewrite (getDirectMessages_listing f sl o m true dms s5 w0 Hdms)
  end.
  cbn [negb]. unfold mret, M_ret, emit, set_remote.
  cbn [remote dirs files events].
  repeat rewrite <- app_assoc. reflexivity.
Qed.

(** * The files of the exporters *)

Section Saved.
Context {S : Type} `{!Disk S}.
Implicit Types (slack : Slacker S) (w : World S).

(** A loop that completes, each pass of which leaves one document in one
    file: every element has its file, written by the last element that
    goes to this file. *)
Lemma for_each_saved {A} (path : A → string) (good : A → Document → Prop)
    (P : A → Prop) (body : A → M S unit) (xs : list A) :
  (∀ x w1 w2, P x → body x w1 = (Ok tt, w2) →
     ∃ doc, good x doc ∧ files w2 = <[path x := [doc]]> (files w1)) →
  Forall P xs →
  ∀ w w', for_each xs body w = (Ok tt, w') →
    (∀ x, x ∈ xs →
       ∃ y doc, y ∈ xs ∧ path y = path x ∧ good y doc
         ∧ files w' !! path x = Some [doc])
    ∧ (∀ k, k ∉ path <$> xs → files w' !! k = files w !! k).
Proof.
  intros Hbody. induction xs as [|x xs IH]; intros HP w w' Hrun.
  { cbn in Hrun. injection Hrun as <-. split; [|done].
    intros x Hx. by apply elem_of_nil in Hx. }
  apply Forall_cons in HP as [Hx HP].
  cbn [for_each] in Hrun. unfold mbind, M_bind in Hrun.
  destruct (body x w) as [[[]|e|] w1] eqn:Hrunx; [|done..].
  destruct (Hbody _ _ _ Hx Hrunx) as (doc & Hgood & Hfiles).
  destruct (IH HP _ _ Hrun) as [Hin Hout]. split.
  - assert (∀ z, z ∈ xs →
              ∃ y doc, y ∈ x :: xs ∧ path y = path z ∧ good y doc
                ∧ files w' !! path z = Some [doc]) as Hin'.
    { intros z Hz. destruct (Hin z Hz) as (y & d & Hy & ? & ? & ?).
      exists y, d. split; [by apply list_elem_of_further|done]. }
    intros y Hy. apply elem_of_cons in Hy as [->|Hy]; [|by apply Hin'].
    destruct (decide (path x ∈ path <$> xs)) as [Hdup|Hfresh].
    + apply list_elem_of_fmap in Hdup as (z & Hz & Hzin).
      rewrite Hz. by apply Hin'.
    + exists x, doc. split; [apply list_elem_of_here|]. split; [done|].
      split; [done|].
      by rewrite (Hout _ Hfresh), Hfiles, lookup_insert_eq.
  - intros k Hk. rewrite fmap_cons, not_elem_of_cons in Hk.
    destruct Hk as [Hne Hk].
    by rewrite (Hout _ Hk), Hfiles, lookup_insert_ne.
Qed.


Lemma getChannels_listed fuel slack dryRun w chans s' :
  channels_list slack (remote w) = (inr chans, s') →
  getChannels fuel slack dryRun w
  = (if negb dryRun then
       mkdir "channels";; for_each chans (export_channel fuel slack)
     else mret tt)
      (mkWorld s' (dirs w) (files w)
         (events w
          ++ [Called (ListOf Channels);
              Printed (newline +:+ "found channels: ")]
          ++ ((λ channel, Printed (channel_name channel)) <$> chans))).
Proof.
  intros Hlist. unfold getChannels.
  unfold mbind at 1. unfold M_bind at 1. unfold call. cbn [emit remote].
  rewrite Hlist.
  unfold mbind at 1. unfold M_bind at 1. cbn [print log].
  unfold mbind at 1. unfold M_bind at 1. rewrite for_each_print.
  unfold emit, set_remote. cbn [remote dirs files events].
  by rewrite <- !app_assoc.
Qed.

Lemma getPrivateChannels_listed fuel slack dryRun w grps s' :
  groups_list slack (remote w) = (inr grps, s') →
  getPrivateChannels fuel slack dryRun w
  = (if negb dryRun then
       mkdir "private_channels";; for_each grps (export_group fuel slack)
     else mret tt)
      (mkWorld s' (dirs w) (files w)
         (events w
          ++ [Called (ListOf Groups);
              Printed (newline +:+ "found private channels:")]
          ++ ((λ group, Printed (group_name group +:+ ": ("
                                 +:+ pretty (length (group_members group))
                                 +:+ " members)")) <$> grps))).
Proof.
  intros Hlist. unfold getPrivateChannels.
  unfold mbind at 1. unfold M_bind at 1. unfold call. cbn [emit remote].
  rewrite Hlist.
  unfold mbind at 1. unfold M_bind at 1. cbn [print log].
  unfold mbind at 1. unfold M_bind at 1. rewrite for_each_print.
  unfold emit, set_remote. cbn [remote dirs files events].
  by rewrite <- !app_assoc.
Qed.

(** One pass of the loop that exports the channels. *)
Lemma export_channel_run fuel slack (channel : Channel) w1 r w' :
  export_channel fuel slack channel w1 = (r, w') →
  dirs w' = dirs w1
  ∧ (r = Ok tt →
     ∃ doc, channel_document fuel slack channel doc
       ∧ files w'
         = <[key_of (json_path "channels" (channel_name channel)) := [doc]]>
             (files w1))
  ∧ (r ≠ Ok tt →
     files w' = files w1
     ∨ files w'
       = <[key_of (json_path "channels" (channel_name channel)) := []]>
           (files w1))
  ∧ ("channels" ∉ dirs w1 → r ≠ Ok tt ∧ files w' = files w1).
Proof.
  unfold export_channel. cbn zeta.
  unfold mbind at 1. unfold M_bind at 1. cbn [print log].
  set (w2 := emit _ w1).
  unfold mbind at 1. unfold M_bind at 1.
  destruct (getHistory_trace (channels slack) (channel_id channel)
              default_pageSize fuel w2) as (_ & Hd & Hf & _).
  cbn zeta in Hd, Hf.
  destruct (getHistory fuel (channels slack) (channel_id channel)
              default_pageSize w2) as [[msgs|e|] w3] eqn:Hhistory;
    cbn [fst snd] in *.
  2,3: intros [= <- <-]; repeat split; auto; done.
  unfold mbind at 1. unfold M_bind at 1. unfold call.
  cbn [emit remote].
  destruct (channels_info slack (channel_id channel) (remote w3))
    as [[e|info] s4] eqn:Hinfo.
  { intros [= <- <-]. repeat split; auto; done. }
  set (w4 := set_remote s4 _).
  assert (dirs w4 = dirs w1) as Hd4 by exact Hd.
  assert (files w4 = files w1) as Hf4 by exact Hf.
  clearbody w4. intros Hsave.
  destruct (save_any _ _ _ _ _ _ Hsave) as [Hdirs Hfailed].
  split; [by rewrite Hdirs|]. split; [|split].
  - intros ->. apply save_Ok in Hsave as ->. cbn [files].
    eexists. split; [by eexists w2, w3, msgs, info, s4|]. by rewrite Hf4.
  - intros Hr. rewrite <- Hf4. by apply Hfailed.
  - intros Hnot. rewrite <- Hd4 in Hnot.
    revert Hsave. unfold mbind at 1, M_bind at 1, open_w, json_path.
    rewrite (target_below w4 "channels" _ eq_refl Hnot).
    intros [= <- <-]. by rewrite Hf4.
Qed.

(** One pass of the loop that exports the private channels. *)
Lemma export_group_run fuel slack (group : Group) w1 r w' :
  export_group fuel slack group w1 = (r, w') →
  dirs w' = dirs w1
  ∧ (r = Ok tt →
     ∃ doc, group_document fuel slack group doc
       ∧ files w'
         = <[key_of (json_path "private_channels" (group_name group))
             := [doc]]> (files w1)).
Proof.
  unfold export_group. cbn zeta.
  unfold mbind at 1. unfold M_bind at 1. cbn [print log].
  set (w2 := emit _ w1).
  unfold mbind at 1. unfold M_bind at 1.
  destruct (getHistory_trace (groups slack) (group_id group)
              default_pageSize fuel w2) as (_ & Hd & Hf & _).
  cbn zeta in Hd, Hf.
  destruct (getHistory fuel (groups slack) (group_id group)
              default_pageSize w2) as [[msgs|e|] w3] eqn:Hhistory;
    cbn [fst snd] in *.
  2,3: by intros [= <- <-].
  unfold mbind at 1. unfold M_bind at 1. unfold call.
  cbn [emit remote].
  destruct (groups_info slack (group_id group) (remote w3))
    as [[e|info] s4] eqn:Hinfo.
  { by intros [= <- <-]. }
  set (w4 := set_remote s4 _).
  assert (dirs w4 = dirs w1) as Hd4 by exact Hd.
  assert (files w4 = files w1) as Hf4 by exact Hf.
  clearbody w4. intros Hsave.
  destruct (save_any _ _ _ _ _ _ Hsave) as [Hdirs _].
  split; [by rewrite Hdirs|].
  intros ->. apply save_Ok in Hsave as ->. cbn [files].
  eexists. split; [by eexists w2, w3, msgs, info, s4|]. by rewrite Hf4.
Qed.


End Saved.


(** When [channels] exists but is a file, [mkdir] leaves it alone and the
    export of the first channel cannot open its file: a run of
    [getChannels] over at least one channel does not complete, and it
    leaves directories and files as they were. *)
Theorem getChannels_blocked {S} `{!Disk S} (fuel : nat) (slack : Slacker S)
    (w : World S) (channel : Channel) (chans : list Channel) (s' : S) :
  channels_list slack (remote w) = (inr (channel :: chans), s') →
  is_Some (files w !! "channels") →
  "channels" ∉ dirs w →
  (getChannels fuel slack false w).1 ≠ Ok tt
  ∧ dirs (getChannels fuel slack false w).2 = dirs w
  ∧ files (getChannels fuel slack false w).2 = files w.
Proof.
  intros Hlist Hfile Hdir.
  rewrite (getChannels_listed _ _ _ _ _ _ Hlist). cbn [negb].
  set (w3 := mkWorld s' _ _ _).
  assert (mkdir "channels" w3 = (Ok tt, w3)) as Hmk.
  { rewrite (mkdir_plain "channels" _ eq_refl), (path_exists_plain "channels" _ eq_refl).
    subst w3. cbn [dirs files].
    by rewrite (bool_decide_eq_true_2 _ Hfile), orb_true_r. }
  assert (files w3 = files w) as Hf3 by done.
  assert (dirs w3 = dirs w) as Hd3 by done. clearbody w3.
  destruct ((mkdir "channels";;
             for_each (channel :: chans) (export_channel fuel slack)) w3)
    as [r w5] eqn:Hrun.
  cbn [fst snd]. unfold mbind at 1, M_bind at 1 in Hrun.
  rewrite Hmk in Hrun. cbn [for_each] in Hrun.
  unfold mbind at 1, M_bind at 1 in Hrun.
  destruct (export_channel fuel slack channel w3) as [r4 w4] eqn:Hc.
  destruct (export_channel_run _ _ _ _ _ _ Hc) as (Hd & _ & _ & Hblocked).
  rewrite <- Hd3 in Hdir. destruct (Hblocked Hdir) as [Hnot Hf].
  destruct r4 as [[]|e|]; [done|..]; injection Hrun as <- <-;
    by rewrite Hd, Hf, Hd3, Hf3.
Qed.


(** After a run of [getPrivateChannels] that completes over private
    channels whose names have no [/], every private channel listed has its
    file [private_channels/<name>.json]; the file holds one document, made
    of the info and the messages fetched for a private channel of this
    name; no other file has changed. *)
Theorem getPrivateChannels_files {S} `{!Disk S} (fuel : nat)
    (slack : Slacker S) (w : World S) (grps : list Group) (s' : S) :
  groups_list slack (remote w) = (inr grps, s') →
  Forall (λ group, slash_free (group_name group) = true) grps →
  (getPrivateChannels fuel slack false w).1 = Ok tt →
  (∀ group, group ∈ grps →
     ∃ group' doc,
       group' ∈ grps
       ∧ group_name group' = group_name group
       ∧ group_document fuel slack group' doc
       ∧ files (getPrivateChannels fuel slack false w).2
           !! json_path "private_channels" (group_name group) = Some [doc])
  ∧ (∀ f, f ∉ (λ group, json_path "private_channels" (group_name group))
              <$> grps →
          files (getPrivateChannels fuel slack false w).2 !! f
          = files w !! f).
Proof.
  intros Hlist Hnames.
  rewrite (getPrivateChannels_listed _ _ _ _ _ _ Hlist). cbn [negb].
  set (w3 := mkWorld s' _ _ _).
  assert (files w3 = files w) as Hf3 by done. clearbody w3.
  destruct ((mkdir "private_channels";;
             for_each grps (export_group fuel slack)) w3)
    as [r w5] eqn:Hrun.
  cbn [fst snd]. intros ->.
  unfold mbind at 1, M_bind at 1 in Hrun.
  pose proof (mkdir_files "private_channels" w3) as Hf.
  destruct (mkdir "private_channels" w3) as [[[]|e|] w4]; [|done..].
  cbn [fst snd] in *. rewrite Hf3 in Hf.
  destruct (for_each_saved
              (λ group, json_path "private_channels" (group_name group))
              (group_document fuel slack)
              (λ group, slash_free (group_name group) = true)
              (export_group fuel slack) grps)
    with (w := w4) (w' := w5) as [Hin Hout]; [|done|done|].
  { intros g w1 w2 Hg Hbody.
    destruct (export_group_run _ _ _ _ _ _ Hbody) as (_ & Hfiles).
    destruct (Hfiles eq_refl) as (doc & Hdoc & ->).
    exists doc. split; [done|]. by rewrite (key_of_json_path "private_channels" _ eq_refl Hg). }
  split.
  - intros group Hgroup.
    destruct (Hin group Hgroup) as (g' & doc & Hg' & Hpath & Hdoc & Hfile).
    exists g', doc. split; [done|]. split; [|done].
    by apply json_path_name in Hpath.
  - intros f Hfresh. by rewrite (Hout _ Hfresh), Hf.
Qed.


(** * The metadata file *)

(** Within one directory, two conversations whose names have no [/] and
    differ go to different files. *)
Theorem json_path_inj (parent name1 name2 : string) :
  plain parent = true →
  slash_free name1 = true →
  slash_free name2 = true →
  name1 ≠ name2 →
  key_of (json_path parent name1) ≠ key_of (json_path parent name2).
Proof.
  intros Hparent Hname1 Hname2 Hne.
  rewrite (key_of_json_path _ _ Hparent Hname1).
  rewrite (key_of_json_path _ _ Hparent Hname2).
  intros Heq. by apply json_path_name in Heq.
Qed.

Section Metadata.
Context {S : Type} `{!Disk S}.
Implicit Types (slack : Slacker S) (w : World S).

Lemma json_path_not_metadata parent name :
  parent ∈ ["channels"; "private_channels"; "direct_messages"] →
  slash_free name = true →
  key_of (json_path parent name) ≠ "metadata.json".
Proof.
  intros Hparent Hname Heq.
  repeat (apply elem_of_cons in Hparent as [->|Hparent]);
    [..|by apply elem_of_nil in Hparent];
    match type of Heq with
    | key_of (json_path ?p _) = _ =>
      rewrite (key_of_json_path p _ eq_refl Hname) in Heq
    end;
    apply (f_equal (String.get 0)) in Heq; by cbv in Heq.
Qed.

(** A call whose answer decides what may follow. *)
Lemma confined_call_bind (Q : Event → Prop) {A B} c (endpoint : Reply S A)
    (f : A → M S B) :
  Q (Called c) →
  (∀ s body s', endpoint s = (inr body, s') → confined Q (f body)) →
  confined Q (call c endpoint ≫= f).
Proof.
  intros HQ Hf w. unfold mbind, M_bind.
  pose proof (confined_call Q c endpoint HQ w) as Hcall.
  unfold call in *. cbn [emit remote] in *.
  destruct (endpoint (remote w)) as [[e|body] s'] eqn:Hreply; [done|].
  eapply extends_trans; [exact Hcall|]. by apply (Hf _ _ _ Hreply).
Qed.

Lemma getChannels_keeps_metadata fuel slack dryRun :
  (∀ s chans s',
     channels_list slack s = (inr chans, s') →
     Forall (λ channel, slash_free (channel_name channel) = true) chans) →
  confined keeps_metadata (getChannels fuel slack dryRun).
Proof.
  intros Hnames. unfold getChannels.
  apply confined_call_bind; [done|]. intros s chans s' Hlist.
  apply confined_bind; [confine; done|]. intros _.
  apply confined_bind; [confine; done|]. intros _.
  destruct (negb dryRun); [|confine].
  apply confined_bind; [confine; done|]. intros _.
  apply confined_for_each_in. intros channel Hchannel.
  assert (slash_free (channel_name channel) = true) as Hname
    by (by apply (proj1 (Forall_forall _ _) (Hnames _ _ _ Hlist))).
  confine; cbn; try done;
    (apply json_path_not_metadata; [rewrite !elem_of_cons; auto|exact Hname]).
Qed.

Lemma getPrivateChannels_keeps_metadata fuel slack dryRun :
  (∀ s grps s',
     groups_list slack s = (inr grps, s') →
     Forall (λ group, slash_free (group_name group) = true) grps) →
  confined keeps_metadata (getPrivateChannels fuel slack dryRun).
Proof.
  intros Hnames. unfold getPrivateChannels.
  apply confined_call_bind; [done|]. intros s grps s' Hlist.
  apply confined_bind; [confine; done|]. intros _.
  apply confined_bind; [confine; done|]. intros _.
  destruct (negb dryRun); [|confine].
  apply confined_bind; [confine; done|]. intros _.
  apply confined_for_each_in. intros group Hgroup.
  assert (slash_free (group_name group) = true) as Hname
    by (by apply (proj1 (Forall_forall _ _) (Hnames _ _ _ Hlist))).
  confine; cbn; try done;
    (apply json_path_not_metadata; [rewrite !elem_of_cons; auto|exact Hname]).
Qed.

Lemma getDirectMessages_keeps_metadata fuel slack ownerId users dryRun :
  (∀ s dms s',
     im_list slack s = (inr dms, s') →
     Forall (λ dm, slash_free (dict_get users (dm_user dm)
                                 (dm_user dm +:+ " (name unknown)"))
                   = true) dms) →
  confined keeps_metadata
    (getDirectMessages fuel slack ownerId users dryRun).
Proof.
  intros Hnames. unfold getDirectMessages.
  apply confined_call_bind; [done|]. intros s dms s' Hlist.
  apply confined_bind; [confine; done|]. intros _.
  apply confined_bind; [confine; done|]. intros _.
  destruct (negb dryRun); [|confine].
  apply confined_bind; [confine; done|]. intros _.
  apply confined_for_each_in. intros dm Hdm.
  assert (slash_free (dict_get users (dm_user dm)
                        (dm_user dm +:+ " (name unknown)")) = true)
    as Hname
    by (by apply (proj1 (Forall_forall _ _) (Hnames _ _ _ Hlist))).
  confine; cbn; try done;
    (apply json_path_not_metadata; [rewrite !elem_of_cons; auto|exact Hname]).
Qed.

Lemma keeps_metadata_file (m : M S unit) w :
  confined keeps_metadata m →
  files (m w).2 !! "metadata.json" = files w !! "metadata.json".
Proof.
  intros Hm. destruct (Hm w) as (evs & _ & HQ & _ & Hf).
  assert (∀ e, e ∈ evs → keeps_metadata e) as Hin
    by (by apply Forall_forall).
  apply Hf.
  - intros f Ho. by apply Hin in Ho.
  - intros f doc Hw. by apply Hin in Hw.
Qed.
End Metadata.

(** In a run that is not a dry run, once the identity check and the user
    list have succeeded, [metadata.json] is written when it is not a
    directory and the disk takes it; it then holds exactly the answer of
    the identity check and the user map, however the exporters end,
    provided the names of the conversations have no [/]. *)
Theorem main_metadata {S} `{!Disk S} (fuel : nat)
    (service : option string → Slacker S) (argv : list string)
    (args : Namespace) (w : World S) (testAuth : AuthInfo)
    (users : list User) (s1 s2 : S) :
  parse argv = inr args →
  flag args "dryRun" = false →
  auth_test (service (token args)) (remote w) = (inr testAuth, s1) →
  users_list (service (token args)) s1 = (inr users, s2) →
  "metadata.json" ∉ dirs w →
  (∀ w', refuses (OpenW "metadata.json") w' = false) →
  (∀ doc w', refuses (WriteTo "metadata.json" doc) w' = false) →
  slash_free_names (service (token args)) (user_map users) →
  files (main fuel service argv w).2 !! "metadata.json"
  = Some [Metadata testAuth (user_map users)].
Proof.
  intros Hparse Hdry Hauth Husers Hdir Hopen Hwrite (Hchans & Hgrps & Hdms).
  rewrite (main_parsed _ _ _ _ _ Hparse). unfold program.
  rewrite Hdry. cbn [negb].
  unfold mbind at 1. unfold M_bind at 1.
  unfold doTestAuth at 1.
  unfold mbind at 1. unfold M_bind at 1. unfold call at 1.
  cbn [emit remote]. rewrite Hauth.
  unfold mbind at 1. unfold M_bind at 1. cbn [print log].
  unfold mret at 1. unfold M_ret at 1.
  unfold mbind at 1. unfold M_bind at 1.
  match goal with |- context [getUserMap ?sl ?w0] =>
    rewrite (getUserMap_run sl w0 users s2 Husers)
  end.
  unfold mbind at 1. unfold M_bind at 1.
  unfold mbind at 1. unfold M_bind at 1.
  unfold open_w at 1. rewrite (target_plain _ "metadata.json" eq_refl).
  cbn [dirs emit set_remote].
  rewrite (bool_decide_eq_false_2 _ Hdir), Hopen. cbn [join_path].
  unfold mbind at 1. unfold M_bind at 1. cbn [print log].
  unfold write at 1. rewrite Hwrite.
  change (key_of "metadata.json") with "metadata.json".
  cbn [emit files events dirs remote].
  rewrite lookup_insert_eq, insert_insert_eq. cbn [default app].
  match goal with |- files (?m ?w0).2 !! _ = _ =>
    rewrite (keeps_metadata_file m w0)
  end.
  - cbn. by rewrite lookup_insert_eq.
  - apply confined_bind.
    { destruct (negb _);
        [by apply getChannels_keeps_metadata|apply confined_ret]. }
    intros _. apply confined_bind.
    { destruct (negb _);
        [by apply getPrivateChannels_keeps_metadata|apply confined_ret]. }
    intros _.
    destruct (negb _);
      [by apply getDirectMessages_keeps_metadata|apply confined_ret].
Qed.

(** When [metadata.json] is a directory, a run that is not a dry run stops
    with [IOError] after the identity check and the user list: no exporter
    runs. *)
Theorem main_metadata_blocked {S} `{!Disk S} (fuel : nat)
    (service : option string → Slacker S) (argv : list string)
    (args : Namespace) (w : World S) (testAuth : AuthInfo)
    (users : list User) (s1 s2 : S) :
  parse argv = inr args →
  flag args "dryRun" = false →
  auth_test (service (token args)) (remote w) = (inr testAuth, s1) →
  users_list (service (token args)) s1 = (inr users, s2) →
  "metadata.json" ∈ dirs w →
  main fuel service argv w
  = (Raise (IOError "metadata.json"),
     mkWorld s2 (dirs w) (files w)
       (events w
        ++ [Called AuthTest;
            Printed ("Successfully authenticated for team "
                     +:+ auth_team testAuth +:+ " and user "
                     +:+ auth_user testAuth +:+ " ");
            Called UsersList;
            Printed ("found " +:+ pretty (length users) +:+ " users ")])).
Proof.
  intros Hparse Hdry Hauth Husers Hdir.
  rewrite (main_parsed _ _ _ _ _ Hparse). unfold program.
  rewrite Hdry. cbn [negb].
  unfold mbind at 1. unfold M_bind at 1.
  unfold doTestAuth at 1.
  unfold mbind at 1. unfold M_bind at 1. unfold call at 1.
  cbn [emit remote]. rewrite Hauth.
  unfold mbind at 1. unfold M_bind at 1. cbn [print log].
  unfold mret at 1. unfold M_ret at 1.
  unfold mbind at 1. unfold M_bind at 1.
  match goal with |- context [getUserMap ?sl ?w0] =>
    rewrite (getUserMap_run sl w0 users s2 Husers)
  end.
  unfold mbind at 1. unfold M_bind at 1.
  unfold mbind at 1. unfold M_bind at 1.
  unfold open_w at 1. rewrite (target_plain _ "metadata.json" eq_refl).
  cbn [dirs emit set_remote].
  rewrite (bool_decide_eq_true_2 _ Hdir).
  unfold emit, set_remote. cbn [remote dirs files events].
  by rewrite <- !app_assoc.
Qed.

(** * Names of direct messages and boolean flags *)

(** The direct messages with a partner who is in the user map go by the
    name of the partner: that name is printed in the listing, and an export
    that completes has announced and written
    [direct_messages/<name>.json], whose [channel_info] lists the partner
    and the owner. *)
Theorem known_user_name {S} `{!Disk S} (fuel : nat) (slack : Slacker S)
    (ownerId name : string) (userIdNameMap : gmap string string)
    (dms : list DirectMessage) (dm : DirectMessage) (s' : S) (w : World S) :
  im_list slack (remote w) = (inr dms, s') →
  dm ∈ dms →
  userIdNameMap !! dm_user dm = Some name →
  (∀ dryRun,
     Printed name
     ∈ events (getDirectMessages fuel slack ownerId userIdNameMap dryRun w).2)
  ∧ ((getDirectMessages fuel slack ownerId userIdNameMap false w).1 = Ok tt →
     Printed ("getting history for direct messages with " +:+ name)
     ∈ events (getDirectMessages fuel slack ownerId userIdNameMap false w).2
     ∧ ∃ msgs,
         Wrote (json_path "direct_messages" name)
           (Export (Members [dm_user dm; ownerId]) msgs)
         ∈ events
             (getDirectMessages fuel slack ownerId userIdNameMap false w).2).
Proof.
  intros Hlist Hdm Hsome.
  assert (dict_get userIdNameMap (dm_user dm)
            (dm_user dm +:+ " (name unknown)") = name) as Hname
    by (unfold dict_get; by rewrite Hsome).
  assert (Printed name
          ∈ (λ dm, Printed (dict_get userIdNameMap (dm_user dm)
                              (dm_user dm +:+ " (name unknown)"))) <$> dms)
    as Hprinted.
  { apply list_elem_of_fmap. exists dm. by rewrite Hname. }
  split.
  - intros dryRun.
    rewrite (getDirectMessages_listing _ _ _ _ _ _ _ _ Hlist).
    match goal with |- _ ∈ events (?m ?w3).2 =>
      destruct (confined_any m w3) as [evs ->]
    end.
    { destruct (negb dryRun); [|apply confined_ret].
      apply confined_bind; [by apply confined_mkdir|]. intros _.
      apply confined_for_each. intros x. confine; done. }
    cbn [events]. rewrite !elem_of_app. auto.
  - rewrite (getDirectMessages_listing _ _ _ _ _ _ _ _ Hlist). cbn [negb].
    match goal with |- (?m ?w3).1 = _ → _ =>
      destruct (m w3) as [r w'] eqn:Hrun
    end.
    cbn [fst snd]. intros ->.
    unfold mbind at 1 in Hrun. unfold M_bind at 1 in Hrun.
    match type of Hrun with context [mkdir ?d ?w3] =>
      destruct (mkdir d w3) as [[[]|e|] wd]; [|done..]
    end.
    eapply for_each_Ok_inv in Hrun as (w1 & w2 & evs & Hbody & ->);
      [|intros x; confine; done|exact Hdm].
    rewrite Hname in Hbody.
    apply export_direct_message_Ok in Hbody as [Hp (msgs & Hw)].
    split; [|exists msgs]; apply elem_of_app; by left.
Qed.

Section FlagsOnly.
Implicit Types (ns : Namespace) (argv : list string).

Lemma consume_flag_dest arg rest ns seen extras :
  arg ∈ boolean_flags →
  consume (arg :: rest) ns seen extras
  = consume rest (<[dest (add_argument arg store_true) := VBool true]> ns)
      (dest (add_argument arg store_true) :: seen) extras.
Proof.
  intros Harg. unfold boolean_flags in Harg.
  repeat (apply elem_of_cons in Harg as [->|Harg]);
    [..|by apply elem_of_nil in Harg]; reflexivity.
Qed.

Lemma consume_flags_exact argv : ∀ ns seen,
  Forall (λ arg, arg ∈ boolean_flags) argv →
  ∃ ns' seen',
    consume argv ns seen false = inr (ns', seen', false)
    ∧ ∀ d, ns' !! d
           = if decide (d ∈ (λ arg, dest (add_argument arg store_true))
                            <$> argv)
             then Some (VBool true) else ns !! d.
Proof.
  induction argv as [|arg rest IH]; intros ns seen Hflags.
  { exists ns, seen. split; [done|]. intros d. rewrite decide_False; [done|].
    apply not_elem_of_nil. }
  apply Forall_cons in Hflags as [Harg Hrest].
  rewrite (consume_flag_dest _ _ _ _ _ Harg).
  destruct (IH (<[dest (add_argument arg store_true) := VBool true]> ns)
              (dest (add_argument arg store_true) :: seen) Hrest)
    as (ns' & seen' & -> & Hlookup).
  exists ns', seen'. split; [done|]. intros d. rewrite Hlookup, fmap_cons.
  destruct (decide (d ∈ _ <$> rest)) as [Hin|Hnot].
  - rewrite decide_True; [done|]. by apply list_elem_of_further.
  - destruct (decide (d = dest (add_argument arg store_true))) as [->|Hne].
    + rewrite lookup_insert_eq, decide_True; [done|].
      apply list_elem_of_here.
    + rewrite lookup_insert_ne by done. rewrite decide_False; [done|].
      rewrite not_elem_of_cons. done.
Qed.

Lemma dest_inj name1 name2 :
  name1 ∈ boolean_flags → name2 ∈ boolean_flags →
  dest (add_argument name1 store_true) = dest (add_argument name2 store_true)
  → name1 = name2.
Proof.
  unfold boolean_flags. intros H1 H2.
  repeat (apply elem_of_cons in H1 as [->|H1]);
    [..|by apply elem_of_nil in H1];
    repeat (apply elem_of_cons in H2 as [->|H2]);
    try (by apply elem_of_nil in H2); by vm_compute.
Qed.

Lemma flag_default name :
  name ∈ boolean_flags →
  defaults !! dest (add_argument name store_true) = Some (VBool false).
Proof.
  unfold boolean_flags. intros H1.
  repeat (apply elem_of_cons in H1 as [->|H1]);
    [..|by apply elem_of_nil in H1]; by vm_compute.
Qed.
End FlagsOnly.

(** A command line made of boolean flags sets exactly the flags that stand
    on it: neither their order nor a repetition matters, and the flags that
    do not occur keep their default [False]. *)
Theorem parse_boolean_flags (argv : list string) :
  Forall (λ arg, arg ∈ boolean_flags) argv →
  ∃ args,
    parse argv = inr args
    ∧ ∀ name, name ∈ boolean_flags →
        (flag args (dest (add_argument name store_true)) = true
         ↔ name ∈ argv).
Proof.
  intros Hflags. unfold parse. rewrite (flags_not_ambiguous _ Hflags).
  destruct (consume_flags_exact argv defaults [] Hflags)
    as (args & seen & -> & Hlookup).
  rewrite nothing_required. exists args. split; [done|].
  intros name Hname. unfold flag. rewrite Hlookup.
  destruct (decide (_ ∈ _ <$> argv)) as [Hin|Hnot].
  - split; [intros _|done].
    apply list_elem_of_fmap in Hin as (arg & Heq & Harg).
    assert (arg ∈ boolean_flags) as Hb
      by (by apply (proj1 (Forall_forall _ _) Hflags)).
    by rewrite (dest_inj _ _ Hname Hb Heq).
  - rewrite (flag_default _ Hname). split; [done|]. intros Hin.
    destruct Hnot. apply list_elem_of_fmap. by exists name.
Qed.

(** A boolean flag takes no value: a command line that starts with
    [--dryRun=<anything>] (or the like for the other flags) is rejected
    with status 2, as [--dryRun=True] of the usage notes is. *)
Theorem flag_with_value_rejected (name value : string)
    (rest : list string) :
  name ∈ boolean_flags →
  parse ((name +:+ "=" +:+ value) :: rest) = inl (SystemExit 2).
Proof.
  intros Hname. unfold parse. cbn [existsb].
  destruct (ambiguous (name +:+ "=" +:+ value) || existsb ambiguous rest);
    [done|].
  unfold boolean_flags in Hname.
  repeat (apply elem_of_cons in Hname as [->|Hname]);
    [..|by apply elem_of_nil in Hname]; reflexivity.
Qed.

(** * Instances of the further properties *)

Lemma getHistory_requests_witness :
  requests_since (fresh tt)
    (getHistory 2 (serving Channels [msg "3"; msg "2"; msg "1"]) "C1" 2
       (fresh tt)).2 !! 1
  = Some (history_args "C1" (Some "2") 2)
  ∧ history_args "C1" (Some "2") 2
    = history_args "C1"
        (cursor_of (take 1
           (replies (serving Channels [msg "3"; msg "2"; msg "1"])
              (remote (fresh tt))
              (requests_since (fresh tt)
                 (getHistory 2 (serving Channels [msg "3"; msg "2"; msg "1"])
                    "C1" 2 (fresh tt)).2)))) 2.
Proof.
  assert (requests_since (fresh tt)
    (getHistory 2 (serving Channels [msg "3"; msg "2"; msg "1"]) "C1" 2
       (fresh tt)).2 !! 1
  = Some (history_args "C1" (Some "2") 2)) as H1 by (vm_compute; reflexivity).
  split; [exact H1|].
  exact (getHistory_requests _ _ _ _ _ _ _ H1).
Defined.

Lemma getHistory_returns_pages_witness :
  (getHistory 2 (serving Channels [msg "3"; msg "2"; msg "1"]) "C1" 2
     (fresh tt)).1 = Ok [msg "3"; msg "2"; msg "1"]
  ∧ [msg "3"; msg "2"; msg "1"]
    = received
        (replies (serving Channels [msg "3"; msg "2"; msg "1"])
           (remote (fresh tt))
           (requests_since (fresh tt)
              (getHistory 2 (serving Channels [msg "3"; msg "2"; msg "1"])
                 "C1" 2 (fresh tt)).2)).
Proof.
  assert ((getHistory 2 (serving Channels [msg "3"; msg "2"; msg "1"]) "C1" 2
     (fresh tt)).1 = Ok [msg "3"; msg "2"; msg "1"]) as H1
    by (vm_compute; reflexivity).
  split; [exact H1|].
  exact (getHistory_returns_pages _ _ _ _ _ _ H1).
Defined.

Lemma getHistory_raises_witness :
  (getHistory 3 (scripted Im) "D1" 100 (fresh untimed)).1
  = Raise (KeyError "ts")
  ∧ ((∃ failure, KeyError "ts" = RemoteError failure)
     ∨ KeyError "ts" = IndexError
     ∨ (KeyError "ts" = KeyError "ts"
        ∧ ∃ m, last (received
                       (replies (scripted Im) (remote (fresh untimed))
                          (requests_since (fresh untimed)
                             (getHistory 3 (scripted Im) "D1" 100
                                (fresh untimed)).2)))
               = Some m
               ∧ m !! "ts" = None)).
Proof.
  assert ((getHistory 3 (scripted Im) "D1" 100 (fresh untimed)).1
          = Raise (KeyError "ts")) as H1 by (vm_compute; reflexivity).
  split; [exact H1|].
  exact (getHistory_raises _ _ _ _ _ _ H1).
Defined.

Lemma getHistory_missing_timestamp_witness :
  (history (scripted Im) (history_args "D1" None 100)
     (remote (fresh untimed))
   = (inr {| messages := [{["text" := "hello"]}]; has_more := true |}, [])
   ∧ last [({["text" := "hello"]} : Message)] = Some {["text" := "hello"]}
   ∧ ({["text" := "hello"]} : Message) !! "ts" = None)
  ∧ getHistory 1 (scripted Im) "D1" 100 (fresh untimed)
    = (Raise (KeyError "ts"),
       requested (scripted Im) (history_args "D1" None 100) []
         (fresh untimed)).
Proof.
  assert (({["text" := "hello"]} : Message) !! "ts" = None) as H3
    by (vm_compute; reflexivity).
  split; [by repeat split|].
  exact (getHistory_missing_timestamp (scripted Im) (fresh untimed) "D1" 100
           0 _ [] {["text" := "hello"]} eq_refl eq_refl eq_refl H3).
Defined.

Lemma getUserMap_spec_witness :
  users_list (demo_service (Some "xoxp")) (remote (fresh tt))
  = (inr [ {| user_id := "U1"; user_name := "alice" |};
           {| user_id := "U2"; user_name := "bob" |} ], tt)
  ∧ (getUserMap (demo_service (Some "xoxp")) (fresh tt)).1
    = Ok (user_map [ {| user_id := "U1"; user_name := "alice" |};
                     {| user_id := "U2"; user_name := "bob" |} ]).
Proof.
  split; [reflexivity|].
  destruct (getUserMap_spec (demo_service (Some "xoxp")) (fresh tt)
              [ {| user_id := "U1"; user_name := "alice" |};
                {| user_id := "U2"; user_name := "bob" |} ] tt eq_refl)
    as [Hrun _].
  by rewrite Hrun.
Defined.

Lemma main_auth_failure_witness :
  (parse [] = inr defaults
   ∧ auth_test (demo_service (token defaults)) (remote (fresh tt))
     = (inl AuthFailure, tt))
  ∧ main 0 demo_service [] (fresh tt)
    = (Raise (RemoteError AuthFailure),
       mkWorld tt (dirs (fresh tt)) (files (fresh tt))
         (events (fresh tt) ++ [Called AuthTest])).
Proof.
  split; [by split|].
  exact (main_auth_failure 0 demo_service [] defaults (fresh tt) AuthFailure
           tt eq_refl eq_refl).
Defined.

Lemma main_users_failure_witness :
  (parse ["--token=xoxp"] = inr (parsed ["--token=xoxp"])
   ∧ users_list (no_users_service (token (parsed ["--token=xoxp"]))) tt
     = (inl NetworkFailure, tt))
  ∧ (main 2 no_users_service ["--token=xoxp"] (fresh tt)).1
    = Raise (RemoteError NetworkFailure).
Proof.
  assert (parse ["--token=xoxp"] = inr (parsed ["--token=xoxp"])) as H1
    by (vm_compute; reflexivity).
  assert (auth_test (no_users_service (token (parsed ["--token=xoxp"])))
            (remote (fresh tt))
          = (inr {| auth_team := "acme"; auth_user := "alice";
                    auth_user_id := "U1" |}, tt)) as H2
    by (vm_compute; reflexivity).
  assert (users_list (no_users_service (token (parsed ["--token=xoxp"]))) tt
          = (inl NetworkFailure, tt)) as H3 by reflexivity.
  split; [by split|].
  by rewrite (main_users_failure 2 no_users_service ["--token=xoxp"] _
                (fresh tt) _ NetworkFailure tt tt H1 H2 H3).
Defined.

Lemma dry_run_transcript_witness :
  (parse ["--token=xoxp"; "--dryRun"]
   = inr (parsed ["--token=xoxp"; "--dryRun"])
   ∧ flag (parsed ["--token=xoxp"; "--dryRun"]) "dryRun" = true
   ∧ flag (parsed ["--token=xoxp"; "--dryRun"]) "skipChannels" = false
   ∧ flag (parsed ["--token=xoxp"; "--dryRun"]) "skipPrivateChannels" = false
   ∧ flag (parsed ["--token=xoxp"; "--dryRun"]) "skipDirectMessages" = false)
  ∧ (main 0 demo_service ["--token=xoxp"; "--dryRun"] (fresh tt)).1 = Ok tt.
Proof.
  assert (parse ["--token=xoxp"; "--dryRun"]
          = inr (parsed ["--token=xoxp"; "--dryRun"])) as H1
    by (vm_compute; reflexivity).
  split; [repeat split; by vm_compute|].
  assert (token (parsed ["--token=xoxp"; "--dryRun"]) = Some "xoxp") as Ht
    by (vm_compute; reflexivity).
  rewrite (dry_run_transcript 0 demo_service ["--token=xoxp"; "--dryRun"]
             (parsed ["--token=xoxp"; "--dryRun"]) (fresh tt)
             {| auth_team := "acme"; auth_user := "alice";
                auth_user_id := "U1" |}
             [ {| user_id := "U1"; user_name := "alice" |};
               {| user_id := "U2"; user_name := "bob" |} ]
             [ {| channel_id := "C1"; channel_name := "general" |} ]
             [ {| group_id := "G1"; group_name := "secret";
                  group_members := ["U1"; "U2"] |} ]
             [ {| dm_id := "D1"; dm_user := "U2" |};
               {| dm_id := "D2"; dm_user := "U9" |} ]
             tt tt tt tt tt H1);
    try (by vm_compute); by rewrite Ht.
Defined.


Lemma getChannels_blocked_witness :
  (channels_list (demo_service (Some "xoxp")) (remote cluttered)
   = (inr [ {| channel_id := "C1"; channel_name := "general" |} ], tt)
   ∧ is_Some (files cluttered !! "channels")
   ∧ "channels" ∉ dirs cluttered)
  ∧ (getChannels 2 (demo_service (Some "xoxp")) false cluttered).1 ≠ Ok tt.
Proof.
  assert (is_Some (files cluttered !! "channels")) as H2
    by (exists []; vm_compute; reflexivity).
  assert ("channels" ∉ dirs cluttered) as H3 by apply not_elem_of_empty.
  split; [by repeat split|].
  by destruct (getChannels_blocked 2 (demo_service (Some "xoxp")) cluttered
                 _ [] tt eq_refl H2 H3) as [? _].
Defined.


Lemma json_path_inj_witness :
  (plain "channels" = true
   ∧ slash_free "general" = true
   ∧ slash_free "random" = true
   ∧ "general" ≠ "random")
  ∧ key_of (json_path "channels" "general")
    ≠ key_of (json_path "channels" "random").
Proof.
  assert ("general" ≠ "random") as H4 by discriminate.
  split; [by repeat split|].
  exact (json_path_inj "channels" "general" "random" eq_refl eq_refl eq_refl
           H4).
Defined.

Lemma main_metadata_witness :
  (parse ["--token=xoxp"] = inr (parsed ["--token=xoxp"])
   ∧ flag (parsed ["--token=xoxp"]) "dryRun" = false
   ∧ ("metadata.json" ∉ dirs (fresh tt))
   ∧ slash_free_names (demo_service (token (parsed ["--token=xoxp"])))
       (user_map [ {| user_id := "U1"; user_name := "alice" |};
                   {| user_id := "U2"; user_name := "bob" |} ]))
  ∧ files (main 2 demo_service ["--token=xoxp"] (fresh tt)).2
      !! "metadata.json"
    = Some [Metadata {| auth_team := "acme"; auth_user := "alice";
                        auth_user_id := "U1" |}
              (user_map [ {| user_id := "U1"; user_name := "alice" |};
                          {| user_id := "U2"; user_name := "bob" |} ])].
Proof.
  assert (parse ["--token=xoxp"] = inr (parsed ["--token=xoxp"])) as H1
    by (vm_compute; reflexivity).
  assert (flag (parsed ["--token=xoxp"]) "dryRun" = false) as H2
    by (vm_compute; reflexivity).
  assert ("metadata.json" ∉ dirs (fresh tt)) as H5
    by apply not_elem_of_empty.
  assert (token (parsed ["--token=xoxp"]) = Some "xoxp") as Ht
    by (vm_compute; reflexivity).
  assert (slash_free_names (demo_service (token (parsed ["--token=xoxp"])))
            (user_map [ {| user_id := "U1"; user_name := "alice" |};
                        {| user_id := "U2"; user_name := "bob" |} ])) as H8.
  { rewrite Ht. split; [|split]; intros s l s' Heq;
      injection Heq as <- _; by repeat constructor. }
  split; [exact (conj H1 (conj H2 (conj H5 H8)))|].
  apply (main_metadata 2 demo_service ["--token=xoxp"] _ (fresh tt) _ _ tt tt
           H1 H2); [by rewrite Ht..|exact H5|done|done|exact H8].
Defined.

Lemma main_metadata_blocked_witness :
  (parse ["--token=xoxp"] = inr (parsed ["--token=xoxp"])
   ∧ flag (parsed ["--token=xoxp"]) "dryRun" = false
   ∧ "metadata.json" ∈ dirs occupied)
  ∧ (main 2 demo_service ["--token=xoxp"] occupied).1
    = Raise (IOError "metadata.json").
Proof.
  assert (parse ["--token=xoxp"] = inr (parsed ["--token=xoxp"])) as H1
    by (vm_compute; reflexivity).
  assert (flag (parsed ["--token=xoxp"]) "dryRun" = false) as H2
    by (vm_compute; reflexivity).
  assert ("metadata.json" ∈ dirs occupied) as H5
    by (by apply elem_of_singleton).
  assert (token (parsed ["--token=xoxp"]) = Some "xoxp") as Ht
    by (vm_compute; reflexivity).
  split; [by repeat split|].
  rewrite (main_metadata_blocked 2 demo_service ["--token=xoxp"] _ occupied
             {| auth_team := "acme"; auth_user := "alice";
                auth_user_id := "U1" |}
             [ {| user_id := "U1"; user_name := "alice" |};
               {| user_id := "U2"; user_name := "bob" |} ] tt tt H1 H2);
    [done|by rewrite Ht..|exact H5].
Defined.

Lemma known_user_name_witness :
  (im_list (demo_service (Some "xoxp")) (remote (fresh tt))
   = (inr [ {| dm_id := "D1"; dm_user := "U2" |};
            {| dm_id := "D2"; dm_user := "U9" |} ], tt)
   ∧ {| dm_id := "D1"; dm_user := "U2" |}
     ∈ [ {| dm_id := "D1"; dm_user := "U2" |};
         {| dm_id := "D2"; dm_user := "U9" |} ]
   ∧ demo_users !! "U2" = Some "bob")
  ∧ Printed "bob"
    ∈ events (getDirectMessages 2 (demo_service (Some "xoxp")) "U1"
                demo_users true (fresh tt)).2.
Proof.
  assert ({| dm_id := "D1"; dm_user := "U2" |}
          ∈ [ {| dm_id := "D1"; dm_user := "U2" |};
              {| dm_id := "D2"; dm_user := "U9" |} ]) as H2
    by apply list_elem_of_here.
  assert (demo_users !! "U2" = Some "bob") as H3 by (vm_compute; reflexivity).
  split; [by repeat split|].
  destruct (known_user_name 2 (demo_service (Some "xoxp")) "U1" "bob"
              demo_users _ _ tt (fresh tt) eq_refl H2 H3) as [Hprinted _].
  exact (Hprinted true).
Defined.

Lemma parse_boolean_flags_witness :
  Forall (λ arg, arg ∈ boolean_flags)
    ["--skipChannels"; "--dryRun"; "--skipChannels"]
  ∧ ∃ args,
      parse ["--skipChannels"; "--dryRun"; "--skipChannels"] = inr args
      ∧ ∀ name, name ∈ boolean_flags →
          (flag args (dest (add_argument name store_true)) = true
           ↔ name ∈ ["--skipChannels"; "--dryRun"; "--skipChannels"]).
Proof.
  assert (Forall (λ arg, arg ∈ boolean_flags)
            ["--skipChannels"; "--dryRun"; "--skipChannels"]) as H1.
  { repeat constructor; unfold boolean_flags; rewrite !elem_of_cons; auto. }
  split; [exact H1|].
  exact (parse_boolean_flags _ H1).
Defined.

Lemma flag_with_value_rejected_witness :
  "--dryRun" ∈ boolean_flags
  ∧ parse ["--token=123token"; "--dryRun=True"] = inl (SystemExit 2)
  ∧ parse (("--dryRun" +:+ "=" +:+ "True") :: ["--token=123token"])
    = inl (SystemExit 2).
Proof.
  assert ("--dryRun" ∈ boolean_flags) as H1
    by (unfold boolean_flags; rewrite !elem_of_cons; auto).
  split; [exact H1|]. split; [reflexivity|].
  exact (flag_with_value_rejected "--dryRun" "True" ["--token=123token"] H1).
Defined.

Lemma getPrivateChannels_files_witness :
  (groups_list (demo_service (Some "xoxp")) (remote (fresh tt))
   = (inr [ {| group_id := "G1"; group_name := "secret";
               group_members := ["U1"; "U2"] |} ], tt)
   ∧ Forall (λ group, slash_free (group_name group) = true)
       [ {| group_id := "G1"; group_name := "secret";
            group_members := ["U1"; "U2"] |} ]
   ∧ (getPrivateChannels 2 (demo_service (Some "xoxp")) false (fresh tt)).1
     = Ok tt)
  ∧ ∃ group' doc,
      group' ∈ [ {| group_id := "G1"; group_name := "secret";
                    group_members := ["U1"; "U2"] |} ]
      ∧ group_name group' = "secret"
      ∧ group_document 2 (demo_service (Some "xoxp")) group' doc
      ∧ files (getPrivateChannels 2 (demo_service (Some "xoxp")) false
                 (fresh tt)).2
          !! "private_channels/secret.json" = Some [doc].
Proof.
  assert (Forall (λ group, slash_free (group_name group) = true)
            [ {| group_id := "G1"; group_name := "secret";
                 group_members := ["U1"; "U2"] |} ]) as H2
    by (by repeat constructor).
  assert ((getPrivateChannels 2 (demo_service (Some "xoxp")) false
             (fresh tt)).1 = Ok tt) as H3 by (vm_compute; reflexivity).
  split; [by repeat split|].
  destruct (getPrivateChannels_files 2 (demo_service (Some "xoxp"))
              (fresh tt) _ tt eq_refl H2 H3) as [Hin _].
  apply (Hin {| group_id := "G1"; group_name := "secret";
                group_members := ["U1"; "U2"] |}).
  apply list_elem_of_here.
Defined.

